(** * AllyIn licensing: a verification model of [allyin_licensing]

    The development embeds the licensing library of the repository
    ([license_manager.py], [machine_binding.py], [exceptions.py]) together
    with the parts of the Python runtime it stands on (SHA-256 and HMAC,
    the [base64] codec, UTF-8 decoding, [datetime] formatting and parsing,
    [int()] and [str()] on numbers), and states the properties of the
    specification over it.

    Conventions.
    - A Python [str] is a [string] holding its UTF-8 encoding, so
      [s.encode()] is the identity and [b.decode()] is the strict UTF-8
      check [Utf8.decode].  [bytes] are [string]s as well.
    - Python [float]s are exact rationals ([Q]); the places where IEEE
      rounding could differ are named where they occur.
    - Stateful methods run in the monad [M] over a [world]: the files of
      the data directory and the readings of the wall clock.
    - [print] calls and the in-process trials lock have no counterpart:
      the model is sequential and ignores standard output. *)

From Stdlib Require Import ZArith QArith String Ascii List Lia Bool.
From stdpp Require Import base option gmap strings.
Import ListNotations.

#[local] Open Scope string_scope.
#[local] Open Scope Z_scope.

(* ===================================================================== *)
(** ** Bytes and text *)
(* ===================================================================== *)

Definition byte_val (c : ascii) : Z := Z.of_N (N_of_ascii c).
Definition byte_chr (z : Z) : ascii := ascii_of_N (Z.to_N (z mod 256)).

Definition bytes_of (s : string) : list Z := map byte_val (list_ascii_of_string s).
Definition string_of_bytes (l : list Z) : string :=
  string_of_list_ascii (map byte_chr l).

Definition strlen (s : string) : Z := Z.of_nat (String.length s).

(** [''.join(parts)] and [sep.join(parts)]. *)
Fixpoint concat_str (l : list string) : string :=
  match l with
  | [] => ""
  | s :: r => s +:+ concat_str r
  end.

Fixpoint join (sep : string) (l : list string) : string :=
  match l with
  | [] => ""
  | [s] => s
  | s :: r => s +:+ sep +:+ join sep r
  end.

(** [s.startswith(p)]-style prefix of length [n], [s[:n]]. *)
Fixpoint str_take (n : nat) (s : string) : string :=
  match n, s with
  | S k, String c r => String c (str_take k r)
  | _, _ => ""
  end.

Fixpoint str_drop (n : nat) (s : string) : string :=
  match n, s with
  | S k, String _ r => str_drop k r
  | _, _ => s
  end.

(** [s.split(sep)] for a one-character separator: the pieces between the
    separators, empty pieces kept, one more piece than separators. *)
Fixpoint split_on (sep : ascii) (s : string) : list string :=
  match s with
  | EmptyString => [""]
  | String c r =>
      if Ascii.eqb c sep then "" :: split_on sep r
      else match split_on sep r with
           | p :: ps => String c p :: ps
           | [] => [String c ""]
           end
  end.

(** [needle in haystack] on strings. *)
Fixpoint is_prefix (p s : string) : bool :=
  match p, s with
  | EmptyString, _ => true
  | String a p', String b s' => Ascii.eqb a b && is_prefix p' s'
  | String _ _, EmptyString => false
  end.

Fixpoint str_contains (needle s : string) : bool :=
  is_prefix needle s ||
  match s with
  | EmptyString => false
  | String _ r => str_contains needle r
  end.

Definition hex_digit (z : Z) : ascii :=
  if z <? 10 then byte_chr (48 + z) else byte_chr (87 + z).

Definition hex_of_byte (z : Z) : string :=
  String (hex_digit (z / 16)) (String (hex_digit (z mod 16)) "").

Definition hexlify (l : list Z) : string := concat_str (map hex_of_byte l).

(** Decimal digits of a natural number, as [str(n)] prints them. *)
Fixpoint digits_fuel (fuel : nat) (n : Z) (acc : string) : string :=
  match fuel with
  | O => acc
  | S k =>
      let acc' := String (byte_chr (48 + n mod 10)) acc in
      if n <? 10 then acc' else digits_fuel k (n / 10) acc'
  end.

Definition str_of_nonneg (n : Z) : string :=
  digits_fuel (S (Z.to_nat (Z.log2 n))) n "".

Definition str_of_int (n : Z) : string :=
  if n <? 0 then "-" +:+ str_of_nonneg (- n) else str_of_nonneg n.

(** [n] printed with at least [w] digits, zero-padded on the left
    ([%02d], [%04d], [%06d]). *)
Definition zfill (w : nat) (n : Z) : string :=
  let d := str_of_nonneg n in
  string_of_list_ascii (repeat "0"%char (w - String.length d)) +:+ d.

Definition is_digit (c : ascii) : bool :=
  (48 <=? byte_val c) && (byte_val c <=? 57).

Definition digit_val (c : ascii) : Z := byte_val c - 48.

(* ===================================================================== *)
(** ** Python exceptions and results *)
(* ===================================================================== *)

(** The exception classes that occur: the builtins the library and the
    runtime raise, [binascii.Error], [cryptography]'s [InvalidSignature],
    and the classes of [exceptions.py]. *)
Inductive exn_class :=
| Exception
| ValueError | TypeError | KeyError | AttributeError | OverflowError
| ZeroDivisionError
| BinasciiError | UnicodeDecodeError | InvalidSignature
| LicenseError
| InvalidProductError | InvalidTrialPeriodError | InvalidCustomerError
| LicenseFileError | LicenseValidationError | LicenseExpiredError
| MachineBindingError | CryptographicError | ConfigurationError
| MultiProductError | DuplicateProductError | ProductNotFoundError.

(** The direct base class, as declared ([class X(LicenseError)], ...). *)
Definition base_class (c : exn_class) : option exn_class :=
  match c with
  | Exception => None
  | BinasciiError | UnicodeDecodeError => Some ValueError
  | DuplicateProductError | ProductNotFoundError => Some MultiProductError
  | InvalidProductError | InvalidTrialPeriodError | InvalidCustomerError
  | LicenseFileError | LicenseValidationError | LicenseExpiredError
  | MachineBindingError | CryptographicError | ConfigurationError
  | MultiProductError => Some LicenseError
  | _ => Some Exception
  end.

Definition exn_class_eqb (a b : exn_class) : bool :=
  match a, b with
  | Exception, Exception | ValueError, ValueError | TypeError, TypeError
  | KeyError, KeyError | AttributeError, AttributeError
  | OverflowError, OverflowError | ZeroDivisionError, ZeroDivisionError
  | BinasciiError, BinasciiError | UnicodeDecodeError, UnicodeDecodeError
  | InvalidSignature, InvalidSignature | LicenseError, LicenseError
  | InvalidProductError, InvalidProductError
  | InvalidTrialPeriodError, InvalidTrialPeriodError
  | InvalidCustomerError, InvalidCustomerError
  | LicenseFileError, LicenseFileError
  | LicenseValidationError, LicenseValidationError
  | LicenseExpiredError, LicenseExpiredError
  | MachineBindingError, MachineBindingError
  | CryptographicError, CryptographicError
  | ConfigurationError, ConfigurationError
  | MultiProductError, MultiProductError
  | DuplicateProductError, DuplicateProductError
  | ProductNotFoundError, ProductNotFoundError => true
  | _, _ => false
  end.

(** [issubclass(c, d)]; the hierarchy is three levels deep. *)
Fixpoint issubclass_fuel (fuel : nat) (c d : exn_class) : bool :=
  exn_class_eqb c d ||
  match fuel, base_class c with
  | S k, Some b => issubclass_fuel k b d
  | _, _ => false
  end.

Definition issubclass : exn_class -> exn_class -> bool := issubclass_fuel 4.

(** An exception instance: its class and [str(e)]. *)
Record exn := Exn { exn_cls : exn_class; exn_str : string }.

Definition isinstance (e : exn) (c : exn_class) : bool := issubclass (exn_cls e) c.

Inductive result (A : Type) :=
| Ok (a : A)
| Raise (e : exn).
Arguments Ok {A} a.
Arguments Raise {A} e.

Definition rbind {A B} (r : result A) (k : A -> result B) : result B :=
  match r with
  | Ok a => k a
  | Raise e => Raise e
  end.

(* ===================================================================== *)
(** ** SHA-256 and HMAC-SHA256 ([hashlib.sha256], [hmac.new])

    FIPS 180-4 on 32-bit words kept as integers in [0, 2^32), every
    addition reduced explicitly. *)
(* ===================================================================== *)

Module Sha256.

Definition mask32 : Z := 4294967295.
Definition w32 (x : Z) : Z := Z.land x mask32.
Definition add32 (x y : Z) : Z := w32 (x + y).
Definition rotr (n x : Z) : Z := Z.lor (Z.shiftr x n) (w32 (Z.shiftl x (32 - n))).
Definition shr (n x : Z) : Z := Z.shiftr x n.
Definition not32 (x : Z) : Z := Z.lxor x mask32.

Definition Ch (x y z : Z) : Z := Z.lxor (Z.land x y) (Z.land (not32 x) z).
Definition Maj (x y z : Z) : Z :=
  Z.lxor (Z.lxor (Z.land x y) (Z.land x z)) (Z.land y z).
Definition bsig0 (x : Z) : Z := Z.lxor (Z.lxor (rotr 2 x) (rotr 13 x)) (rotr 22 x).
Definition bsig1 (x : Z) : Z := Z.lxor (Z.lxor (rotr 6 x) (rotr 11 x)) (rotr 25 x).
Definition ssig0 (x : Z) : Z := Z.lxor (Z.lxor (rotr 7 x) (rotr 18 x)) (shr 3 x).
Definition ssig1 (x : Z) : Z := Z.lxor (Z.lxor (rotr 17 x) (rotr 19 x)) (shr 10 x).

(** The round constants: the first 32 bits of the fractional parts of the
    cube roots of the first sixty-four primes. *)
Definition K : list Z :=
  [
    1116352408; 1899447441; 3049323471; 3921009573; 961987163;
    1508970993; 2453635748; 2870763221; 3624381080; 310598401;
    607225278; 1426881987; 1925078388; 2162078206; 2614888103;
    3248222580; 3835390401; 4022224774; 264347078; 604807628;
    770255983; 1249150122; 1555081692; 1996064986; 2554220882;
    2821834349; 2952996808; 3210313671; 3336571891; 3584528711;
    113926993; 338241895; 666307205; 773529912; 1294757372;
    1396182291; 1695183700; 1986661051; 2177026350; 2456956037;
    2730485921; 2820302411; 3259730800; 3345764771; 3516065817;
    3600352804; 4094571909; 275423344; 430227734; 506948616;
    659060556; 883997877; 958139571; 1322822218; 1537002063;
    1747873779; 1955562222; 2024104815; 2227730452; 2361852424;
    2428436474; 2756734187; 3204031479; 3329325298 ].

(** The initial hash value: the same of the square roots of the first
    eight primes. *)
Definition H0 : list Z :=
  [
    1779033703; 3144134277; 1013904242; 2773480762;
    1359893119; 2600822924; 528734635; 1541459225 ].

(** Big-endian packing of bytes into 32-bit words and back. *)
Fixpoint words_of_bytes (l : list Z) : list Z :=
  match l with
  | a :: b :: c :: d :: r =>
      (Z.lor (Z.shiftl a 24) (Z.lor (Z.shiftl b 16) (Z.lor (Z.shiftl c 8) d)))
        :: words_of_bytes r
  | _ => []
  end.

Definition bytes_of_word (x : Z) : list Z :=
  [ Z.land (Z.shiftr x 24) 255; Z.land (Z.shiftr x 16) 255;
    Z.land (Z.shiftr x 8) 255; Z.land x 255 ].

Definition be64 (n : Z) : list Z :=
  bytes_of_word (Z.shiftr n 32) ++ bytes_of_word (w32 n).

(** The message followed by 0x80, zeros up to 56 mod 64, and its length
    in bits on eight bytes. *)
Definition pad (msg : list Z) : list Z :=
  let n := Z.of_nat (length msg) in
  let zeros := Z.to_nat ((55 - n) mod 64) in
  msg ++ [128] ++ repeat 0 zeros ++ be64 (8 * n).

(** The message schedule, most recent word first while it is built. *)
Fixpoint extend (k : nat) (rev_w : list Z) : list Z :=
  match k with
  | O => rev_w
  | S k' =>
      let w2 := nth 1 rev_w 0 in
      let w7 := nth 6 rev_w 0 in
      let w15 := nth 14 rev_w 0 in
      let w16 := nth 15 rev_w 0 in
      extend k' (add32 (add32 (ssig1 w2) w7) (add32 (ssig0 w15) w16) :: rev_w)
  end.

Definition schedule (block : list Z) : list Z :=
  rev (extend 48 (rev (words_of_bytes block))).

Record regs := Regs { ra : Z; rb : Z; rc : Z; rd : Z; re : Z; rf : Z; rg : Z; rh : Z }.

Definition round (s : regs) (kw : Z * Z) : regs :=
  let t1 := add32 (add32 (add32 (rh s) (bsig1 (re s))) (Ch (re s) (rf s) (rg s)))
                  (add32 (fst kw) (snd kw)) in
  let t2 := add32 (bsig0 (ra s)) (Maj (ra s) (rb s) (rc s)) in
  Regs (add32 t1 t2) (ra s) (rb s) (rc s) (add32 (rd s) t1) (re s) (rf s) (rg s).

Definition regs_of (h : list Z) : regs :=
  Regs (nth 0 h 0) (nth 1 h 0) (nth 2 h 0) (nth 3 h 0)
       (nth 4 h 0) (nth 5 h 0) (nth 6 h 0) (nth 7 h 0).

Definition list_of (s : regs) : list Z :=
  [ra s; rb s; rc s; rd s; re s; rf s; rg s; rh s].

Definition compress (h : list Z) (block : list Z) : list Z :=
  let s := fold_left round (combine K (schedule block)) (regs_of h) in
  map (fun p => add32 (fst p) (snd p)) (combine h (list_of s)).

Fixpoint blocks (fuel : nat) (l : list Z) : list (list Z) :=
  match fuel, l with
  | S k, _ :: _ => firstn 64 l :: blocks k (skipn 64 l)
  | _, _ => []
  end.

(** [hashlib.sha256(msg).digest()] *)
Definition digest (msg : list Z) : list Z :=
  let p := pad msg in
  concat (map bytes_of_word (fold_left compress (blocks (length p) p) H0)).

(** [hashlib.sha256(msg).hexdigest()] *)
Definition hexdigest (msg : string) : string := hexlify (digest (bytes_of msg)).

End Sha256.

Module Hmac.

Definition block_size : nat := 64.

Definition xor_pad (p : Z) (key : list Z) : list Z := map (Z.lxor p) key.

(** The key hashed when longer than a block, then zero-padded to one. *)
Definition block_key (key : list Z) : list Z :=
  let k := if (block_size <? length key)%nat then Sha256.digest key else key in
  k ++ repeat 0 (block_size - length k).

(** [hmac.new(key, msg, hashlib.sha256).digest()] *)
Definition digest (key msg : list Z) : list Z :=
  let k := block_key key in
  Sha256.digest (xor_pad 0x5c k ++ Sha256.digest (xor_pad 0x36 k ++ msg)).

(** [hmac.new(key, msg, hashlib.sha256).hexdigest()] *)
Definition hexdigest (key msg : string) : string :=
  hexlify (digest (bytes_of key) (bytes_of msg)).

Definition is_ascii (s : string) : bool :=
  forallb (fun c => byte_val c <? 128) (list_ascii_of_string s).

(** [hmac.compare_digest(a, b)] on two [str]: equality, in constant time;
    text outside ASCII is refused. *)
Definition compare_digest (a b : string) : result bool :=
  if is_ascii a && is_ascii b then Ok (String.eqb a b)
  else Raise (Exn TypeError
         "comparing strings with non-ASCII characters is not supported").

End Hmac.

(* ===================================================================== *)
(** ** [repr] of a string and [int()] of a string *)
(* ===================================================================== *)

Definition squote : ascii := "'"%char.
Definition dquote : ascii := ascii_of_nat 34.
Definition backslash : ascii := ascii_of_nat 92.

Definition has_char (c : ascii) (s : string) : bool :=
  existsb (Ascii.eqb c) (list_ascii_of_string s).

(** One character of [repr(s)] inside quotes [q].  Bytes of a multi-byte
    UTF-8 character are copied: the characters outside ASCII are taken
    to be printable. *)
Definition repr_char (q c : ascii) : string :=
  let v := byte_val c in
  if Ascii.eqb c backslash then String backslash (String backslash "")
  else if Ascii.eqb c q then String backslash (String q "")
  else if v =? 10 then String backslash "n"
  else if v =? 13 then String backslash "r"
  else if v =? 9 then String backslash "t"
  else if (v <? 32) || (v =? 127) then String backslash ("x" +:+ hex_of_byte v)
  else String c "".

(** [repr(s)]: single quotes, unless the text has one and no double quote. *)
Definition py_repr (s : string) : string :=
  let q := if has_char squote s && negb (has_char dquote s) then dquote else squote in
  String q (concat_str (map (repr_char q) (list_ascii_of_string s))) +:+ String q "".

(** A character [int()] and [strip()] treat as white space (ASCII only). *)
Definition is_space (c : ascii) : bool :=
  let v := byte_val c in
  (v =? 32) || ((9 <=? v) && (v <=? 13)).

Fixpoint lstrip (s : list ascii) : list ascii :=
  match s with
  | c :: r => if is_space c then lstrip r else s
  | [] => []
  end.

Definition strip (s : list ascii) : list ascii := rev (lstrip (rev (lstrip s))).

(** Digits with single underscores between them; value and digit count. *)
Fixpoint int_digits (s : list ascii) (acc n : Z) (prev_digit : bool) : option (Z * Z) :=
  match s with
  | [] => if prev_digit then Some (acc, n) else None
  | c :: r =>
      if is_digit c then int_digits r (10 * acc + digit_val c) (n + 1) true
      else if Ascii.eqb c "_" && prev_digit then int_digits r acc n false
      else None
  end.

Definition max_str_digits : Z := 4300.

(** [int(s)] for a [str] in base 10.  Digits and white space outside
    ASCII, which Python also accepts, are not recognised. *)
Definition int_of_str (s : string) : result Z :=
  let bad := Raise (Exn ValueError
                 ("invalid literal for int() with base 10: " +:+ py_repr s)) in
  let body := strip (list_ascii_of_string s) in
  let (neg, ds) :=
    match body with
    | c :: r => if Ascii.eqb c "-" then (true, r)
                else if Ascii.eqb c "+" then (false, r) else (false, body)
    | [] => (false, [])
    end in
  match int_digits ds 0 0 false with
  | Some (v, n) =>
      if max_str_digits <? n then
        Raise (Exn ValueError
          ("Exceeds the limit (4300 digits) for integer string conversion: value has "
           +:+ str_of_int n +:+
           " digits; use sys.set_int_max_str_digits() to increase the limit"))
      else Ok (if neg then - v else v)
  | None => bad
  end.

(* ===================================================================== *)
(** ** [base64.urlsafe_b64encode] and [base64.urlsafe_b64decode]

    The decoder is [binascii.a2b_base64] in its default, non-strict mode
    (CPython 3.11): characters outside the alphabet are skipped, padding
    ends the input, and the bits of the last character that do not fill
    a byte are dropped without a check. *)
(* ===================================================================== *)

Module Base64.

(** The URL-safe alphabet: [A-Z a-z 0-9 - _]. *)
Definition enc (v : Z) : ascii :=
  if v <? 26 then byte_chr (65 + v)
  else if v <? 52 then byte_chr (71 + v)
  else if v <? 62 then byte_chr (v - 4)
  else if v =? 62 then "-"%char
  else "_"%char.

(** [urlsafe_b64decode] first maps [-] to [+] and [_] to [/] and leaves
    the rest, so both spellings of 62 and 63 decode. *)
Definition dec (c : ascii) : option Z :=
  let v := byte_val c in
  if (65 <=? v) && (v <=? 90) then Some (v - 65)
  else if (97 <=? v) && (v <=? 122) then Some (v - 71)
  else if (48 <=? v) && (v <=? 57) then Some (v + 4)
  else if (v =? 43) || (v =? 45) then Some 62
  else if (v =? 47) || (v =? 95) then Some 63
  else None.

Definition pad_char : ascii := "="%char.

Fixpoint encode_bytes (l : list Z) : list ascii :=
  match l with
  | a :: b :: c :: r =>
      enc (Z.shiftr a 2)
      :: enc (Z.lor (Z.shiftl (Z.land a 3) 4) (Z.shiftr b 4))
      :: enc (Z.lor (Z.shiftl (Z.land b 15) 2) (Z.shiftr c 6))
      :: enc (Z.land c 63) :: encode_bytes r
  | [a; b] =>
      [ enc (Z.shiftr a 2);
        enc (Z.lor (Z.shiftl (Z.land a 3) 4) (Z.shiftr b 4));
        enc (Z.shiftl (Z.land b 15) 2); pad_char ]
  | [a] => [ enc (Z.shiftr a 2); enc (Z.shiftl (Z.land a 3) 4); pad_char; pad_char ]
  | [] => []
  end.

(** [base64.urlsafe_b64encode(data).decode()] *)
Definition urlsafe_b64encode (data : string) : string :=
  string_of_list_ascii (encode_bytes (bytes_of data)).

(** The decoder's loop: [quad] is the position in the current group of
    four, [left] the bits carried over, [pads] the padding characters seen
    since the last data character, [out] the bytes produced, last first. *)
Fixpoint a2b (s : list ascii) (quad left pads : Z) (out : list Z) : result (list Z) :=
  match s with
  | [] =>
      if quad =? 0 then Ok (rev out)
      else if quad =? 1 then
        Raise (Exn BinasciiError
          ("Invalid base64-encoded string: number of data characters ("
           +:+ str_of_int (Z.of_nat (length out) / 3 * 4 + 1)
           +:+ ") cannot be 1 more than a multiple of 4"))
      else Raise (Exn BinasciiError "Incorrect padding")
  | c :: r =>
      if Ascii.eqb c pad_char then
        if 2 <=? quad then
          if 4 <=? quad + (pads + 1) then Ok (rev out)
          else a2b r quad left (pads + 1) out
        else a2b r quad left pads out
      else
        match dec c with
        | None => a2b r quad left pads out
        | Some v =>
            if quad =? 0 then a2b r 1 v 0 out
            else if quad =? 1 then
              a2b r 2 (Z.land v 15) 0 (Z.lor (Z.shiftl left 2) (Z.shiftr v 4) :: out)
            else if quad =? 2 then
              a2b r 3 (Z.land v 3) 0 (Z.lor (Z.shiftl left 4) (Z.shiftr v 2) :: out)
            else a2b r 0 0 0 (Z.lor (Z.shiftl left 6) v :: out)
        end
  end.

(** [base64.urlsafe_b64decode(s)] *)
Definition urlsafe_b64decode (s : string) : result string :=
  rbind (a2b (list_ascii_of_string s) 0 0 0 []) (fun l => Ok (string_of_bytes l)).

End Base64.

(* ===================================================================== *)
(** ** [bytes.decode()]: strict UTF-8 *)
(* ===================================================================== *)

Module Utf8.

Definition is_cont (b : Z) : bool := (128 <=? b) && (b <=? 191).

(** [str(e)] of the [UnicodeDecodeError] for the bytes [start, stop). *)
Definition error (bytes : list Z) (start stop : Z) (reason : string) : exn :=
  let place :=
    if stop =? start + 1 then
      "byte 0x" +:+ hex_of_byte (nth (Z.to_nat start) bytes 0)
      +:+ " in position " +:+ str_of_int start
    else
      "bytes in position " +:+ str_of_int start +:+ "-" +:+ str_of_int (stop - 1) in
  Exn UnicodeDecodeError ("'utf-8' codec can't decode " +:+ place +:+ ": " +:+ reason).

(** The lowest and highest second byte a lead byte admits: no overlong
    forms, no surrogates, nothing above U+10FFFF. *)
Definition second_ok (lead b : Z) : bool :=
  is_cont b &&
  negb ((lead =? 224) && (b <? 160)) && negb ((lead =? 237) && (160 <=? b)) &&
  negb ((lead =? 240) && (b <? 144)) && negb ((lead =? 244) && (144 <=? b)).

(** The scan of [rest], the input from position [pos] on; [all] is the
    whole input, for the error message. *)
Fixpoint scan (fuel : nat) (all rest : list Z) (pos : Z) : result unit :=
  let bad_start := Raise (error all pos (pos + 1) "invalid start byte") in
  let bad_cont k := Raise (error all pos (pos + k) "invalid continuation byte") in
  let truncated :=
    Raise (error all pos (Z.of_nat (length all)) "unexpected end of data") in
  match fuel with
  | O => Ok tt
  | S fuel' =>
      match rest with
      | [] => Ok tt
      | b :: r =>
          if b <? 128 then scan fuel' all r (pos + 1)
          else if b <? 194 then bad_start
          else if b <? 224 then
            match r with
            | [] => truncated
            | b2 :: r2 => if is_cont b2 then scan fuel' all r2 (pos + 2) else bad_cont 1
            end
          else if b <? 240 then
            match r with
            | [] => truncated
            | b2 :: r2 =>
                if negb (second_ok b b2) then bad_cont 1
                else match r2 with
                     | [] => truncated
                     | b3 :: r3 =>
                         if is_cont b3 then scan fuel' all r3 (pos + 3) else bad_cont 2
                     end
            end
          else if b <? 245 then
            match r with
            | [] => truncated
            | b2 :: r2 =>
                if negb (second_ok b b2) then bad_cont 1
                else match r2 with
                     | [] => truncated
                     | b3 :: r3 =>
                         if negb (is_cont b3) then bad_cont 2
                         else match r3 with
                              | [] => truncated
                              | b4 :: r4 =>
                                  if is_cont b4 then scan fuel' all r4 (pos + 4)
                                  else bad_cont 3
                              end
                     end
            end
          else bad_start
      end
  end.

(** [data.decode()]: the text itself when it is well-formed UTF-8. *)
Definition decode (data : string) : result string :=
  let l := bytes_of data in
  rbind (scan (length l) l l 0) (fun _ => Ok data).

End Utf8.

(* ===================================================================== *)
(** ** Numbers: [int] and [float] *)
(* ===================================================================== *)

(** A duration in days as the callers pass it: an [int] or a [float].
    A float is its exact rational value. *)
Inductive pynum :=
| PyInt (n : Z)
| PyFloat (q : Q).

Fixpoint frac_digits (fuel : nat) (r d : Z) : string :=
  match fuel with
  | O => ""
  | S k =>
      let r10 := 10 * r in
      String (byte_chr (48 + r10 / d))
             (if r10 mod d =? 0 then "" else frac_digits k (r10 mod d) d)
  end.

(** [repr(x)] of a float in positional notation: the integer part, a dot
    and the fraction digits, at least one.  This is what Python prints
    for every value with at most 15 significant decimal digits and a
    magnitude in [1e-4, 1e16), and for zero; beyond seventeen fraction
    digits the expansion is cut. *)
Definition repr_float (q : Q) : string :=
  let a := Z.abs (Qnum q) in
  let d := Z.pos (Qden q) in
  (if Qnum q <? 0 then "-" else "")
  +:+ str_of_nonneg (a / d) +:+ "." +:+ frac_digits 17 (a mod d) d.

(** [str(x)], which is also what an f-string prints for [{x}]. *)
Definition num_str (x : pynum) : string :=
  match x with
  | PyInt n => str_of_int n
  | PyFloat q => repr_float q
  end.

Definition num_Q (x : pynum) : Q :=
  match x with
  | PyInt n => inject_Z n
  | PyFloat q => q
  end.

Definition Qfloor (q : Q) : Z := Qnum q / Z.pos (Qden q).

(** Rounding to the nearest integer, ties to the even one ([round]). *)
Definition round_half_even (q : Q) : Z :=
  let f := Qfloor q in
  let twice_rem := 2 * (Qnum q - f * Z.pos (Qden q)) in
  let d := Z.pos (Qden q) in
  if twice_rem <? d then f
  else if d <? twice_rem then f + 1
  else if Z.even f then f else f + 1.

(* ===================================================================== *)
(** ** [datetime]

    A naive [datetime] is the number of microseconds since
    0001-01-01T00:00:00 in the proleptic Gregorian calendar; the values
    Python can hold are those of [valid_datetime].  The calendar
    functions follow [Lib/datetime.py]. *)
(* ===================================================================== *)

Module Datetime.

Definition us_per_second : Z := 1000000.
Definition us_per_day : Z := 86400 * us_per_second.
Definition max_ordinal : Z := 3652059.   (* date.max.toordinal(): 9999-12-31 *)

Definition valid_datetime (t : Z) : bool := (0 <=? t) && (t <? max_ordinal * us_per_day).

Definition is_leap (y : Z) : bool :=
  (y mod 4 =? 0) && (negb (y mod 100 =? 0) || (y mod 400 =? 0)).

Definition days_before_year (year : Z) : Z :=
  let y := year - 1 in y * 365 + y / 4 - y / 100 + y / 400.

Definition DAYS_IN_MONTH : list Z := [-1; 31; 28; 31; 30; 31; 30; 31; 31; 30; 31; 30; 31].
Definition DAYS_BEFORE_MONTH : list Z :=
  [-1; 0; 31; 59; 90; 120; 151; 181; 212; 243; 273; 304; 334].

Definition days_in_month (year month : Z) : Z :=
  if (month =? 2) && is_leap year then 29
  else nth (Z.to_nat month) DAYS_IN_MONTH 0.

Definition days_before_month (year month : Z) : Z :=
  nth (Z.to_nat month) DAYS_BEFORE_MONTH 0
  + (if (2 <? month) && is_leap year then 1 else 0).

(** [_ymd2ord]: 0001-01-01 is day 1. *)
Definition ymd2ord (year month day : Z) : Z :=
  days_before_year year + days_before_month year month + day.

Definition DI400Y : Z := 146097.
Definition DI100Y : Z := 36524.
Definition DI4Y : Z := 1461.

(** [_ord2ymd] *)
Definition ord2ymd (ordinal : Z) : Z * Z * Z :=
  let n := ordinal - 1 in
  let n400 := n / DI400Y in
  let n := n mod DI400Y in
  let n100 := n / DI100Y in
  let n := n mod DI100Y in
  let n4 := n / DI4Y in
  let n := n mod DI4Y in
  let n1 := n / 365 in
  let n := n mod 365 in
  let year := n400 * 400 + 1 + n100 * 100 + n4 * 4 + n1 in
  if (n1 =? 4) || (n100 =? 4) then (year - 1, 12, 31)
  else
    let leapyear := (n1 =? 3) && (negb (n4 =? 24) || (n100 =? 3)) in
    let month := Z.shiftr (n + 50) 5 in
    let preceding :=
      nth (Z.to_nat month) DAYS_BEFORE_MONTH 0
      + (if (2 <? month) && leapyear then 1 else 0) in
    if n <? preceding then
      let month' := month - 1 in
      let preceding' :=
        preceding - (nth (Z.to_nat month') DAYS_IN_MONTH 0
                     + (if (month' =? 2) && leapyear then 1 else 0)) in
      (year, month', n - preceding' + 1)
    else (year, month, n - preceding + 1).

(** The fields of a datetime. *)
Record fields := Fields {
  year : Z; month : Z; day : Z; hour : Z; minute : Z; second : Z; microsecond : Z }.

Definition fields_of (t : Z) : fields :=
  let days := t / us_per_day in
  let us := t mod us_per_day in
  let '(y, m, d) := ord2ymd (days + 1) in
  let secs := us / us_per_second in
  Fields y m d (secs / 3600) (secs / 60 mod 60) (secs mod 60) (us mod us_per_second).

(** [datetime(year, month, day, hour, minute, second, microsecond)] with
    the constructor's range checks. *)
Definition make (f : fields) : result Z :=
  if negb ((1 <=? year f) && (year f <=? 9999)) then
    Raise (Exn ValueError ("year " +:+ str_of_int (year f) +:+ " is out of range"))
  else if negb ((1 <=? month f) && (month f <=? 12)) then
    Raise (Exn ValueError "month must be in 1..12")
  else if negb ((1 <=? day f) && (day f <=? days_in_month (year f) (month f))) then
    Raise (Exn ValueError "day is out of range for month")
  else if negb ((0 <=? hour f) && (hour f <=? 23)) then
    Raise (Exn ValueError "hour must be in 0..23")
  else if negb ((0 <=? minute f) && (minute f <=? 59)) then
    Raise (Exn ValueError "minute must be in 0..59")
  else if negb ((0 <=? second f) && (second f <=? 59)) then
    Raise (Exn ValueError "second must be in 0..59")
  else if negb ((0 <=? microsecond f) && (microsecond f <=? 999999)) then
    Raise (Exn ValueError "microsecond must be in 0..999999")
  else
    Ok (((ymd2ord (year f) (month f) (day f) - 1) * 86400
         + hour f * 3600 + minute f * 60 + second f) * us_per_second
        + microsecond f).

(** [dt.strftime("%Y%m%dT%H%M%S")].  The year is printed on four digits,
    as the library documents [%Y] ([0001] to [9999]); a C library that
    prints the years before 1000 without the leading zeros gives a
    shorter text for those. *)
Definition date_fmt : string := "%Y%m%dT%H%M%S".

Definition strftime (t : Z) : string :=
  let f := fields_of t in
  zfill 4 (year f) +:+ zfill 2 (month f) +:+ zfill 2 (day f) +:+ "T"
  +:+ zfill 2 (hour f) +:+ zfill 2 (minute f) +:+ zfill 2 (second f).

(** [dt.isoformat()]: the fraction is printed when it is not zero. *)
Definition isoformat (t : Z) : string :=
  let f := fields_of t in
  zfill 4 (year f) +:+ "-" +:+ zfill 2 (month f) +:+ "-" +:+ zfill 2 (day f) +:+ "T"
  +:+ zfill 2 (hour f) +:+ ":" +:+ zfill 2 (minute f) +:+ ":" +:+ zfill 2 (second f)
  +:+ (if microsecond f =? 0 then "" else "." +:+ zfill 6 (microsecond f)).

(** [timedelta(days=d)] in microseconds.  For a float the constructor
    rounds to the nearest microsecond, ties to even. *)
Definition timedelta_days (d : pynum) : result Z :=
  let us :=
    match d with
    | PyInt n => n * us_per_day
    | PyFloat q => round_half_even (q * inject_Z us_per_day)
    end in
  let days := us / us_per_day in
  if (Z.abs days <=? 999999999) then Ok us
  else Raise (Exn OverflowError
         ("days=" +:+ str_of_int days +:+ "; must have magnitude <= 999999999")).

(** [dt + delta] *)
Definition add (t delta : Z) : result Z :=
  if valid_datetime (t + delta) then Ok (t + delta)
  else Raise (Exn OverflowError "date value out of range").

(** [(a - b).total_seconds()] as an exact rational, and [(a - b).days]. *)
Definition total_seconds (a b : Z) : Q := (a - b) # 1000000.
Definition delta_days (a b : Z) : Z := (a - b) / us_per_day.

End Datetime.

(** *** Parsing: [datetime.strptime] for [date_fmt], [datetime.fromisoformat] *)

Module Parse.

Import Datetime.

(** Exactly [n] ASCII digits at the head of the input. *)
Fixpoint take_digits (n : nat) (s : list ascii) (acc : Z) : option (Z * list ascii) :=
  match n with
  | O => Some (acc, s)
  | S k =>
      match s with
      | c :: r => if is_digit c then take_digits k r (10 * acc + digit_val c) else None
      | [] => None
      end
  end.

Definition in_range (lo hi c : ascii) : bool :=
  (byte_val lo <=? byte_val c) && (byte_val c <=? byte_val hi).

(** The alternatives of a directive's regular expression, in the order
    the regex engine tries them.  [two a b c d] is [[a-b][c-d]], [one a b]
    is [[a-b]], [blank_one] is a blank followed by [[1-9]]. *)
Definition two (a b c d : ascii) (s : list ascii) : list (Z * list ascii) :=
  match s with
  | x :: y :: r =>
      if in_range a b x && in_range c d y then [(10 * digit_val x + digit_val y, r)] else []
  | _ => []
  end.

Definition one (a b : ascii) (s : list ascii) : list (Z * list ascii) :=
  match s with
  | x :: r => if in_range a b x then [(digit_val x, r)] else []
  | _ => []
  end.

Definition blank_one (s : list ascii) : list (Z * list ascii) :=
  match s with
  | x :: y :: r =>
      if Ascii.eqb x " " && in_range "1" "9" y then [(digit_val y, r)] else []
  | _ => []
  end.

Definition re_Y (s : list ascii) : list (Z * list ascii) :=
  match take_digits 4 s 0 with Some p => [p] | None => [] end.
Definition re_m (s : list ascii) : list (Z * list ascii) := two "1" "1" "0" "2" s ++ two "0" "0" "1" "9" s ++ one "1" "9" s.
Definition re_d (s : list ascii) : list (Z * list ascii) :=
  two "3" "3" "0" "1" s ++ two "1" "2" "0" "9" s ++ two "0" "0" "1" "9" s
  ++ one "1" "9" s ++ blank_one s.
Definition re_H (s : list ascii) : list (Z * list ascii) := two "2" "2" "0" "3" s ++ two "0" "1" "0" "9" s ++ one "0" "9" s.
Definition re_M (s : list ascii) : list (Z * list ascii) := two "0" "5" "0" "9" s ++ one "0" "9" s.
Definition re_S (s : list ascii) : list (Z * list ascii) := two "6" "6" "0" "1" s ++ two "0" "5" "0" "9" s ++ one "0" "9" s.

(** The literal [T] of the format; the pattern is compiled with
    [re.IGNORECASE]. *)
Definition re_T (s : list ascii) : list (unit * list ascii) :=
  match s with
  | x :: r => if Ascii.eqb x "T" || Ascii.eqb x "t" then [(tt, r)] else []
  | [] => []
  end.

Definition seq_bind {A B} (l : list (A * list ascii))
    (k : A -> list ascii -> list B) : list B :=
  flat_map (fun p => k (fst p) (snd p)) l.

(** Every way the pattern matches a prefix, the engine's choice first. *)
Definition matches (s : list ascii) : list (fields * list ascii) :=
  seq_bind (re_Y s) (fun y s =>
  seq_bind (re_m s) (fun m s =>
  seq_bind (re_d s) (fun d s =>
  seq_bind (re_T s) (fun _ s =>
  seq_bind (re_H s) (fun h s =>
  seq_bind (re_M s) (fun mi s =>
  seq_bind (re_S s) (fun sec s =>
  [(Fields y m d h mi sec 0, s)]))))))).

(** [datetime.strptime(s, "%Y%m%dT%H%M%S")].  Digits outside ASCII, which
    [\d] also matches, are not recognised. *)
Definition strptime (s : string) : result Z :=
  match matches (list_ascii_of_string s) with
  | [] =>
      Raise (Exn ValueError ("time data " +:+ py_repr s
                             +:+ " does not match format '%Y%m%dT%H%M%S'"))
  | (f, []) :: _ => make f
  | (_, rest) :: _ =>
      Raise (Exn ValueError ("unconverted data remains: " +:+ string_of_list_ascii rest))
  end.

(** [datetime.fromisoformat(s)] (CPython 3.11) for calendar dates
    without a UTC offset: [YYYY-MM-DD] or [YYYYMMDD], then optionally one
    separator character and the time of day as [parse_hh_mm_ss_ff] reads
    it.  Week dates and UTC offsets are outside the model and are
    reported as invalid. *)
Definition expect (c : ascii) (s : list ascii) : option (list ascii) :=
  match s with
  | x :: r => if Ascii.eqb x c then Some r else None
  | [] => None
  end.

(** The digits after the decimal mark: the first six count, the rest
    are dropped; the value is in microseconds. *)
Fixpoint fraction (n : nat) (s : list ascii) (acc : Z) : option Z :=
  match s with
  | [] => Some (acc * 10 ^ Z.of_nat n)
  | c :: r =>
      if is_digit c then
        match n with
        | O => fraction O r acc
        | S k => fraction k r (10 * acc + digit_val c)
        end
      else None
  end.

(** What follows a two-digit component. *)
Inductive iso_next :=
| IsoEnd                        (* the string ends: the rest is zero *)
| IsoMore (s : list ascii)      (* another component starts at [s] *)
| IsoFraction (s : list ascii)  (* a decimal mark was read *)
| IsoBad.

Definition iso_after (has_sep : bool) (s : list ascii) : iso_next :=
  match s with
  | [] => IsoEnd
  | [_] => IsoBad
  | c :: r =>
      if has_sep && Ascii.eqb c ":" then IsoMore r
      else if Ascii.eqb c "." || Ascii.eqb c "," then IsoFraction r
      else if negb has_sep then IsoMore s
      else IsoBad
  end.

Definition iso_us (s : list ascii) (h m sec : Z) : option (Z * Z * Z * Z) :=
  match fraction 6 s 0 with
  | Some us => Some (h, m, sec, us)
  | None => None
  end.

(** The time of day after the separator: hour, minute, second, microsecond. *)
Definition iso_time (s : list ascii) : option (Z * Z * Z * Z) :=
  if existsb (fun c => Ascii.eqb c "Z" || Ascii.eqb c "+" || Ascii.eqb c "-") s
  then None
  else
  match take_digits 2 s 0 with
  | None => None
  | Some (h, r) =>
      let has_sep := match r with c :: _ => Ascii.eqb c ":" | [] => false end in
      match iso_after has_sep r with
      | IsoEnd => Some (h, 0, 0, 0)
      | IsoBad => None
      | IsoFraction f => iso_us f h 0 0
      | IsoMore r1 =>
          match take_digits 2 r1 0 with
          | None => None
          | Some (m, r2) =>
              match iso_after has_sep r2 with
              | IsoEnd => Some (h, m, 0, 0)
              | IsoBad => None
              | IsoFraction f => iso_us f h m 0
              | IsoMore r3 =>
                  match take_digits 2 r3 0 with
                  | None => None
                  | Some (sec, r4) =>
                      match iso_after has_sep r4 with
                      | IsoEnd => Some (h, m, sec, 0)
                      | IsoBad => None
                      | IsoFraction f | IsoMore f => iso_us f h m sec
                      end
                  end
              end
          end
      end
  end.

(** The separator between date and time is one character, whatever it
    is; a multi-byte one is skipped whole. *)
Definition skip_separator (s : list ascii) : list ascii :=
  match s with
  | [] => []
  | c :: r =>
      let v := byte_val c in
      if v <? 128 then r
      else if Z.land v 240 =? 224 then skipn 2 r
      else if Z.land v 240 =? 240 then skipn 3 r
      else skipn 1 r
  end.

Definition iso_date (s : list ascii) : option (Z * Z * Z * list ascii) :=
  match take_digits 4 s 0 with
  | None => None
  | Some (y, r) =>
      match expect "-" r with
      | Some r1 =>
          match take_digits 2 r1 0 with
          | None => None
          | Some (m, r2) =>
              match expect "-" r2 with
              | None => None
              | Some r3 =>
                  match take_digits 2 r3 0 with
                  | Some (d, r4) => Some (y, m, d, r4)
                  | None => None
                  end
              end
          end
      | None =>
          match take_digits 2 r 0 with
          | None => None
          | Some (m, r2) =>
              match take_digits 2 r2 0 with
              | Some (d, r4) => Some (y, m, d, r4)
              | None => None
              end
          end
      end
  end.

Definition fromisoformat (s : string) : result Z :=
  let invalid := Raise (Exn ValueError ("Invalid isoformat string: " +:+ py_repr s)) in
  match iso_date (list_ascii_of_string s) with
  | None => invalid
  | Some (y, m, d, []) => make (Fields y m d 0 0 0 0)
  | Some (y, m, d, rest) =>
      match iso_time (skip_separator rest) with
      | Some (h, mi, sec, us) => make (Fields y m d h mi sec us)
      | None => invalid
      end
  end.

End Parse.

(* ===================================================================== *)
(** ** Python values that reach [json.dumps] *)
(* ===================================================================== *)

(** The values the library stores and loads: what [json.loads] can
    return.  A [dict] is a finite map on its [str] keys. *)
#[warnings="-register-all"]
Inductive json :=
| JNull
| JBool (b : bool)
| JNum (n : pynum)
| JStr (s : string)
| JList (l : list json)
| JDict (d : gmap string json).

(** Truth value ([if not x], [x or y]). *)
Definition truthy (v : json) : bool :=
  match v with
  | JNull => false
  | JBool b => b
  | JNum (PyInt n) => negb (n =? 0)
  | JNum (PyFloat q) => negb (Qeq_bool q 0)
  | JStr s => negb (String.eqb s "")
  | JList l => match l with [] => false | _ => true end
  | JDict d => negb (bool_decide (d = ∅))
  end.

(** [type(v).__name__], for the messages of type errors. *)
Definition type_name (v : json) : string :=
  match v with
  | JNull => "NoneType"
  | JBool _ => "bool"
  | JNum (PyInt _) => "int"
  | JNum (PyFloat _) => "float"
  | JStr _ => "str"
  | JList _ => "list"
  | JDict _ => "dict"
  end.

(** [v == JStr s] for a list element: only a string equals a string. *)
Definition is_str (s : string) (v : json) : bool :=
  match v with
  | JStr t => String.eqb s t
  | _ => false
  end.

(** [key in v] for a [str] key. *)
Definition py_contains (key : string) (v : json) : result bool :=
  match v with
  | JDict d => Ok (bool_decide (is_Some (d !! key)))
  | JList l => Ok (existsb (is_str key) l)
  | JStr s => Ok (str_contains key s)
  | _ => Raise (Exn TypeError
           ("argument of type '" +:+ type_name v +:+ "' is not iterable"))
  end.

(** [v[key]] for a [str] key. *)
Definition py_getitem (v : json) (key : string) : result json :=
  match v with
  | JDict d =>
      match d !! key with
      | Some x => Ok x
      | None => Raise (Exn KeyError (py_repr key))
      end
  | JStr _ => Raise (Exn TypeError "string indices must be integers, not 'str'")
  | JList _ => Raise (Exn TypeError "list indices must be integers or slices, not str")
  | _ => Raise (Exn TypeError
           ("'" +:+ type_name v +:+ "' object is not subscriptable"))
  end.

(** [v[key] = x] for a [str] key; the updated container. *)
Definition py_setitem (v : json) (key : string) (x : json) : result json :=
  match v with
  | JDict d => Ok (JDict (<[key := x]> d))
  | JList _ => Raise (Exn TypeError "list indices must be integers or slices, not str")
  | _ => Raise (Exn TypeError
           ("'" +:+ type_name v +:+ "' object does not support item assignment"))
  end.

(** [v.get(key)] *)
Definition py_get (v : json) (key : string) : result json :=
  match v with
  | JDict d => Ok (default JNull (d !! key))
  | _ => Raise (Exn AttributeError
           ("'" +:+ type_name v +:+ "' object has no attribute 'get'"))
  end.

(* ===================================================================== *)
(** ** Fernet, files and the clock *)
(* ===================================================================== *)

(** The content of a file.  A Fernet token is kept symbolically: the
    32 key bytes it was made under, the initialisation vector it drew,
    and the document it encrypts; it decrypts under that key and no
    other.  Every other content is [Opaque] bytes. *)
Inductive blob :=
| Token (key : string) (iv : nat) (doc : json)
| Opaque (raw : string).

(** The state the methods act on: the files by path, the readings the
    wall clock gives to the successive [datetime.now()] calls, and the
    number of readings and of random draws taken so far. *)
Record world := World {
  files : gmap string blob;
  clock : nat -> Z;
  ticks : nat;
  draws : nat }.

Definition M (A : Type) : Type := world -> result A * world.

Definition ret {A} (a : A) : M A := fun w => (Ok a, w).
Definition raise {A} (e : exn) : M A := fun w => (Raise e, w).
Definition bind {A B} (c : M A) (k : A -> M B) : M B :=
  fun w => match c w with
           | (Ok a, w') => k a w'
           | (Raise e, w') => (Raise e, w')
           end.
Definition lift {A} (r : result A) : M A := fun w => (r, w).

(** [try: c  except Exception as e: h e] *)
Definition try_except {A} (c : M A) (h : exn -> M A) : M A :=
  fun w => match c w with
           | (Ok a, w') => (Ok a, w')
           | (Raise e, w') => h e w'
           end.

Notation "x <- c ;; k" := (bind c (fun x => k))
  (at level 62, c at next level, k at level 200, right associativity).
Notation "c ;;; k" := (bind c (fun _ => k))
  (at level 62, k at level 200, right associativity).

(** [datetime.now()] *)
Definition now : M Z :=
  fun w => (Ok (clock w (ticks w)),
            World (files w) (clock w) (S (ticks w)) (draws w)).

(** [os.urandom] as Fernet uses it: a fresh initialisation vector. *)
Definition fresh_iv : M nat :=
  fun w => (Ok (draws w), World (files w) (clock w) (ticks w) (S (draws w))).

(** [os.path.exists(path)] *)
Definition path_exists (path : string) : M bool :=
  fun w => (Ok (bool_decide (is_Some (files w !! path))), w).

(** [open(path, 'rb').read()]; a missing file is [FileNotFoundError],
    which the callers never meet: they test [os.path.exists] first. *)
Definition read_file (path : string) : M blob :=
  fun w => match files w !! path with
           | Some b => (Ok b, w)
           | None => (Raise (Exn Exception
                        ("[Errno 2] No such file or directory: " +:+ py_repr path)), w)
           end.

(** [open(path, 'wb').write(data)] *)
Definition write_file (path : string) (b : blob) : M unit :=
  fun w => (Ok tt, World (<[path := b]> (files w)) (clock w) (ticks w) (draws w)).

(** [os.remove(path)] of a file that exists. *)
Definition remove_file (path : string) : M unit :=
  fun w => (Ok tt, World (delete path (files w)) (clock w) (ticks w) (draws w)).

(** [Fernet(key)]: the key must decode to 32 bytes. *)
Definition fernet_key (key : string) : result string :=
  let bad := Raise (Exn ValueError "Fernet key must be 32 url-safe base64-encoded bytes.") in
  match Base64.urlsafe_b64decode key with
  | Ok k => if (String.length k =? 32)%nat then Ok k else bad
  | Raise _ => bad
  end.

(** [Fernet(key).decrypt(token)]; [InvalidToken] prints as the empty string. *)
Definition fernet_decrypt (k : string) (b : blob) : result json :=
  match b with
  | Token k' _ doc =>
      if String.eqb k k' then Ok doc else Raise (Exn Exception "")
  | Opaque _ => Raise (Exn Exception "")
  end.

(* ===================================================================== *)
(** ** [machine_binding.py] *)
(* ===================================================================== *)

(** The characters of a [str], the items [zip] and [len] see.  A [str] is
    held as its UTF-8 bytes, where a character is one lead byte and the
    continuation bytes ([10xxxxxx]) that follow it; two characters are
    equal exactly when their bytes are. *)
Definition is_continuation (c : ascii) : bool :=
  (128 <=? byte_val c) && (byte_val c <=? 191).

Definition continues (s : string) : bool :=
  match s with
  | String d _ => is_continuation d
  | EmptyString => false
  end.

Fixpoint characters (s : string) : list string :=
  match s with
  | EmptyString => []
  | String c r =>
      match continues r, characters r with
      | true, g :: gs => String c g :: gs
      | _, gs => String c "" :: gs
      end
  end.

(** [len(s)] of a [str]: the number of its characters. *)
Definition str_len (s : string) : nat := length (characters s).

(** [sum(1 for a, b in zip(l1, l2) if a == b)] over two sequences of
    characters: [zip] stops at the end of the shorter one. *)
Fixpoint zip_matches (l1 l2 : list string) : nat :=
  match l1, l2 with
  | a :: r1, b :: r2 =>
      ((if String.eqb a b then 1 else 0) + zip_matches r1 r2)%nat
  | _, _ => O
  end.

(** [sum(1 for a, b in zip(fp1, fp2) if a == b)] *)
Definition count_matches (fp1 fp2 : string) : nat :=
  zip_matches (characters fp1) (characters fp2).

(** [matches / len(fp1)]: true division, [ZeroDivisionError] on an empty
    [fp1].  The quotient is kept exact; Python rounds it to the nearest
    double, which is monotone and leaves 0 and 1 fixed. *)
Definition true_div (matches len : nat) : result Q :=
  match len with
  | O => Raise (Exn ZeroDivisionError "division by zero")
  | S _ => Ok (Z.of_nat matches # Pos.of_nat len)
  end.

(** [calculate_fingerprint_similarity(fp1, fp2)], on any two [str]s:
    lengths and positions are counted in characters. *)
Definition calculate_fingerprint_similarity (fp1 fp2 : string) : Q :=
  let body : result Q :=
    if negb (str_len fp1 =? str_len fp2)%nat then Ok 0%Q
    else
      let matches := count_matches fp1 fp2 in
      rbind (true_div matches (str_len fp1)) (fun similarity =>
      Ok similarity) in
  match body with
  | Ok q => q
  | Raise _ => 0%Q          (* except Exception: return 0.0 *)
  end.

(** The threshold of [validate_machine_binding], the literal [0.8]. *)
Definition binding_threshold : Q := 8 # 10.

(** [validate_machine_binding(license_data, current_fingerprint)].  The
    license data is a [dict] from field names to text; only its
    ['machine_fingerprint'] entry is read.  No step of the body raises on
    such data, so the [MachineBindingError] wrapper is never entered. *)
Definition validate_machine_binding
    (license_data : gmap string string) (current_fingerprint : string) : bool :=
  match license_data !! "machine_fingerprint" with
  | None => true                                  (* no machine binding: allow *)
  | Some license_fingerprint =>
      if String.eqb license_fingerprint current_fingerprint then true
      else
        let tolerance_score :=
          calculate_fingerprint_similarity license_fingerprint current_fingerprint in
        Qle_bool binding_threshold tolerance_score
  end.

(* ===================================================================== *)
(** ** [license_manager.py]: the [LicenseManager] class *)
(* ===================================================================== *)

(** A key object as [serialization.load_pem_private_key] or
    [load_pem_public_key] returns it.  An RSA key carries its PSS-SHA256
    operation: [sign data salt] is the signature made with the salt drawn
    for this call, [verify signature data] tells whether the library's
    [verify] returns (it raises [InvalidSignature] otherwise). *)
Inductive key_object :=
| RSAPrivateKey (sign : string -> nat -> string)
| RSAPublicKey (verify : string -> string -> bool)
| OtherKey (algorithm : string).

Record LicenseManager := {
  product_id : string;
  trial_days : Q;
  user_id : option string;
  secret_key : string;
  data_dir : string;
  trials_file : string;
  license_file : string;
  installation_file : string;
  machine_id : string;
  rsa_private_key : option key_object;
  rsa_public_key : option key_object }.

(** What the constructor reads from the host. *)
Record host := {
  system : string;              (* platform.system() *)
  appdata : option string;      (* os.getenv('APPDATA') *)
  home : string;                (* os.path.expanduser('~') *)
  machine : string;             (* platform.machine() *)
  processor : string;           (* platform.processor() *)
  node : string;                (* platform.node() *)
  getnode : Z;                  (* uuid.getnode() *)
  generated_key : string;       (* Fernet.generate_key() *)
  path_sep : ascii }.           (* os.sep *)

Definition ends_with_char (c : ascii) (s : string) : bool :=
  match rev (list_ascii_of_string s) with
  | x :: _ => Ascii.eqb x c
  | [] => false
  end.

Definition starts_with_char (c : ascii) (s : string) : bool :=
  match s with
  | String x _ => Ascii.eqb x c
  | EmptyString => false
  end.

(** [os.path.join(a, b)], drive letters apart. *)
Definition path_join (sep : ascii) (a b : string) : string :=
  if starts_with_char sep b then b
  else if String.eqb a "" || ends_with_char sep a then a +:+ b
  else a +:+ String sep b.

Definition opt_truthy (s : option string) : bool :=
  match s with
  | Some x => negb (String.eqb x "")
  | None => false
  end.

(** [a or b] on optional strings. *)
Definition opt_or (a b : option string) : option string :=
  if opt_truthy a then a else b.

Definition _get_data_directory (h : host) : string :=
  let j := path_join (path_sep h) in
  if String.eqb (system h) "Windows" then
    let appdata := if opt_truthy (appdata h) then default "" (appdata h) else home h in
    j (j appdata "AllyIn") "Licensing"
  else if String.eqb (system h) "Darwin" then
    j (j (j (j (home h) "Library") "Application Support") "AllyIn") "Licensing"
  else j (j (home h) ".allyin") "licensing".

Definition _get_machine_id (h : host) : string :=
  let system_info := [machine h; processor h; node h; str_of_int (getnode h)] in
  str_take 16 (Sha256.hexdigest (concat_str system_info)).

(** [LicenseManager.__init__].  [private_pem] and [public_pem] are the key
    objects the two PEM files hold, [None] when a path is not given or
    names no file. *)
Definition new_manager (h : host) (product_id : string) (trial_days : pynum)
    (user_id : option string) (private_pem public_pem : option key_object)
    (license_file secret_key : option string) : LicenseManager :=
  let data_dir := _get_data_directory h in
  {| product_id := product_id;
     trial_days := num_Q trial_days;
     user_id := user_id;
     secret_key := if opt_truthy secret_key then default "" secret_key
                   else generated_key h;
     data_dir := data_dir;
     trials_file := path_join (path_sep h) data_dir "trials.json";
     license_file := if opt_truthy license_file then default "" license_file
                     else path_join (path_sep h) data_dir "license.dat";
     installation_file := path_join (path_sep h) data_dir "installation.dat";
     machine_id := _get_machine_id h;
     rsa_private_key := private_pem;
     rsa_public_key := public_pem |}.

Section Methods.

Variable self : LicenseManager.

(** [self.user_id], where a parameter of the same name is in scope. *)
Abbreviation self_user_id := (user_id self).

(** [_encrypt_data]: a token under the manager's key, with a fresh IV. *)
Definition _encrypt_data (data : json) : M blob :=
  k <- lift (fernet_key (secret_key self)) ;;
  iv <- fresh_iv ;;
  ret (Token k iv data).

(** [_decrypt_data]: [None] on any failure. *)
Definition _decrypt_data (encrypted : blob) : json :=
  match rbind (fernet_key (secret_key self)) (fun k => fernet_decrypt k encrypted) with
  | Ok doc => doc
  | Raise _ => JNull
  end.

Definition _save_encrypted_data (data : json) (filename : string) : M unit :=
  encrypted <- _encrypt_data data ;;
  write_file filename encrypted.

Definition _load_encrypted_data (filename : string) : M json :=
  ex <- path_exists filename ;;
  if negb ex then ret JNull
  else try_except
         (encrypted <- read_file filename ;; ret (_decrypt_data encrypted))
         (fun _ => ret JNull).

Definition _load_trials : M json :=
  ex <- path_exists (trials_file self) ;;
  if negb ex then ret (JDict ∅)
  else try_except
         (encrypted <- read_file (trials_file self) ;;
          let d := _decrypt_data encrypted in
          ret (if truthy d then d else JDict ∅))
         (fun _ => ret (JDict ∅)).

Definition _save_trials (trials : json) : M unit :=
  encrypted <- _encrypt_data trials ;;
  write_file (trials_file self) encrypted.

Definition _get_user_trial_info (user_id : string) : M json :=
  trials <- _load_trials ;;
  lift (py_get trials user_id).

(** [_set_user_trial_info].  The method updates the caller's [info] in
    place; the model returns the dict as the call leaves it. *)
Definition _set_user_trial_info (user_id : string) (info : json) : M json :=
  trials <- _load_trials ;;
  known <- lift (py_contains user_id trials) ;;
  info <- (if known then
             (* Safeguard: never overwrite first_install_date if it exists *)
             existing <- lift (py_getitem trials user_id) ;;
             has <- lift (py_contains "first_install_date" existing) ;;
             if has then
               v <- lift (py_getitem existing "first_install_date") ;;
               lift (py_setitem info "first_install_date" v)
             else ret info
           else ret info) ;;
  trials <- lift (py_setitem trials user_id info) ;;
  _save_trials trials ;;;
  ret info.

Definition data_string_of (product customer machine start_date end_date days
                           license_type sigtype : string) : string :=
  join "|" [product; customer; machine; start_date; end_date; days;
            license_type; sigtype].

(** [generate_license_key(customer_id, days, license_type, sigtype)] *)
Definition generate_license_key (customer_id : string) (days : pynum)
    (license_type sigtype : string) : M (string * json) :=
  t_start <- now ;;
  let start_date := Datetime.strftime t_start in
  t_now <- now ;;
  delta <- lift (Datetime.timedelta_days days) ;;
  t_end <- lift (Datetime.add t_now delta) ;;
  let end_date := Datetime.strftime t_end in
  t_created <- now ;;
  let license_data :=
    JDict (<["product_id" := JStr (product_id self)]>
          (<["customer_id" := JStr customer_id]>
          (<["machine_id" := JStr (machine_id self)]>
          (<["license_type" := JStr license_type]>
          (<["start_date" := JStr start_date]>
          (<["end_date" := JStr end_date]>
          (<["days" := JNum days]>
          (<["created_at" := JStr (Datetime.strftime t_created)]>
          (<["sigtype" := JStr sigtype]> ∅))))))))) in
  let data_string :=
    data_string_of (product_id self) customer_id (machine_id self) start_date
                   end_date (num_str days) license_type sigtype in
  signature <-
    (if String.eqb sigtype "rsa" then
       match rsa_private_key self with
       | None => raise (Exn ValueError "RSA private key not loaded for signing.")
       | Some (RSAPrivateKey sign) =>
           salt <- fresh_iv ;;
           ret (Base64.urlsafe_b64encode (sign data_string salt))
       | Some _ => raise (Exn TypeError "Loaded private key is not an RSA private key.")
       end
     else ret (Hmac.hexdigest (secret_key self) data_string)) ;;
  let combined_data := data_string +:+ "|" +:+ signature in
  let license_key := Base64.urlsafe_b64encode combined_data in
  ret (license_key, license_data).

(** The signature check of [validate_license_key]: [Some reason] when the
    method returns [(False, reason)] at this point, an exception when one
    leaves for the outer handler.  The RSA branch has a handler of its
    own, so nothing leaves it. *)
Definition check_signature (sigtype signature data_string : string)
  : result (option string) :=
  if String.eqb sigtype "rsa" then
    match rsa_public_key self with
    | None => Ok (Some "RSA public key not loaded for verification.")
    | Some (RSAPublicKey verify) =>
        let attempt :=
          rbind (Base64.urlsafe_b64decode signature) (fun raw =>
          if verify raw data_string then Ok tt
          else Raise (Exn InvalidSignature "")) in
        match attempt with
        | Ok _ => Ok None
        | Raise e => Ok (Some ("Invalid RSA signature: " +:+ exn_str e))
        end
    | Some _ => Ok (Some "Loaded public key is not an RSA public key.")
    end
  else
    let expected_signature := Hmac.hexdigest (secret_key self) data_string in
    rbind (Hmac.compare_digest signature expected_signature) (fun same =>
    if negb same then Ok (Some "Invalid HMAC signature") else Ok None).

(** The text a key string stands for: [urlsafe_b64decode] then [decode]. *)
Definition decoded_text (license_key : string) : result string :=
  rbind (Base64.urlsafe_b64decode license_key) Utf8.decode.

(** The steps after the signature check: expiry, [int(days)], the record. *)
Definition validate_fields (product customer machine start_date end_date days
                            license_type sigtype : string) : M (bool * json) :=
  end_datetime <- lift (Parse.strptime end_date) ;;
  t <- now ;;
  if end_datetime <? t then ret (false, JStr "License key has expired")
  else
    days_int <- lift (int_of_str days) ;;
    t_validated <- now ;;
    ret (true,
         JDict (<["product_id" := JStr product]>
               (<["customer_id" := JStr customer]>
               (<["machine_id" := JStr machine]>
               (<["license_type" := JStr license_type]>
               (<["start_date" := JStr start_date]>
               (<["end_date" := JStr end_date]>
               (<["days" := JNum (PyInt days_int)]>
               (<["sigtype" := JStr sigtype]>
               (<["validated_at" := JStr (Datetime.strftime t_validated)]>
                ∅)))))))))).

(** The body of the [try] block of [validate_license_key]. *)
Definition validate_body (license_key : string) : M (bool * json) :=
  decoded <- lift (decoded_text license_key) ;;
  match split_on "|" decoded with
  | [product; customer; machine; start_date; end_date; days;
     license_type; sigtype; signature] =>
      let data_string :=
        data_string_of product customer machine start_date end_date days
                       license_type sigtype in
      if negb (String.eqb product (product_id self)) then
        ret (false, JStr "Invalid product ID")
      else if negb (String.eqb machine (machine_id self)) then
        ret (false, JStr "License key not valid for this machine")
      else
        verdict <- lift (check_signature sigtype signature data_string) ;;
        match verdict with
        | Some reason => ret (false, JStr reason)
        | None =>
            validate_fields product customer machine start_date end_date days
                            license_type sigtype
        end
  | _ => ret (false, JStr "Invalid license key format")
  end.

(** [validate_license_key(license_key)]: the body, and the handler of
    [except Exception as e]. *)
Definition validate_license_key (license_key : string) : M (bool * json) :=
  try_except (validate_body license_key)
    (fun e => ret (false, JStr ("License validation error: " +:+ exn_str e))).

(** [install_license(license_key)] *)
Definition install_license (license_key : string) : M (bool * json) :=
  r <- validate_license_key license_key ;;
  let (is_valid, result) := r in
  if negb is_valid then ret (false, result)
  else
    _save_encrypted_data result (license_file self) ;;;
    ex <- path_exists (installation_file self) ;;
    (if negb ex then
       t <- now ;;
       let installation_data :=
         JDict (<["first_install_date" := JStr (Datetime.isoformat t)]>
               (<["machine_id" := JStr (machine_id self)]>
               (<["product_id" := JStr (product_id self)]> ∅))) in
       _save_encrypted_data installation_data (installation_file self)
     else ret tt) ;;;
    ret (true, JStr "License installed successfully").

Definition get_current_license : M json :=
  _load_encrypted_data (license_file self).

(** [get_installation_info(user_id=None)] *)
Definition get_installation_info (user_id : option string) : M json :=
  if opt_truthy (opt_or user_id (self_user_id))
  then _get_user_trial_info (default "" (opt_or user_id (self_user_id)))
  else _load_encrypted_data (installation_file self).

(** The argument of [datetime.fromisoformat] must be a [str]. *)
Definition fromisoformat_value (v : json) : result Z :=
  match v with
  | JStr s => Parse.fromisoformat s
  | _ => Raise (Exn TypeError "fromisoformat: argument must be str")
  end.

(** [is_license_valid()] *)
Definition is_license_valid : M (bool * json) :=
  license_data <- get_current_license ;;
  if negb (truthy license_data) then ret (false, JStr "No license found")
  else
    match license_data with
    | JDict _ =>
        v <- lift (py_getitem license_data "end_date") ;;
        end_date <- lift (fromisoformat_value v) ;;
        t <- now ;;
        if end_date <? t then ret (false, JStr "License has expired")
        else ret (true, license_data)
    | _ => ret (false, JStr "License data is not a valid dictionary")
    end.

(** [get_days_remaining()] *)
Definition get_days_remaining : M Z :=
  r <- is_license_valid ;;
  let (is_valid, result) := r in
  if negb is_valid then ret 0
  else
    v <- lift (py_getitem result "end_date") ;;
    end_date <- lift (fromisoformat_value v) ;;
    t <- now ;;
    ret (Z.max 0 (Datetime.delta_days end_date t)).

(** [revoke_license()] *)
Definition revoke_license : M (bool * string) :=
  ex <- path_exists (license_file self) ;;
  (if ex then remove_file (license_file self) else ret tt) ;;;
  ret (true, "License revoked").

(** What [get_trial_status] returns: the status [dict], or the pair
    [(None, message)] of the machine-wide mode. *)
Inductive trial_status :=
| TrialStatus (first_install_date : json) (days_elapsed trial_days days_remaining : Q)
              (is_trial_expired : bool)
| NoInstallation (message : string).

(** The arithmetic both modes share, from the record's
    ['first_install_date'] on. *)
Definition trial_result (info : json) : M trial_status :=
  v <- lift (py_getitem info "first_install_date") ;;
  first_install <- lift (fromisoformat_value v) ;;
  t <- now ;;
  let elapsed_days := (Datetime.total_seconds t first_install / 86400)%Q in
  let left := (trial_days self - elapsed_days)%Q in
  let days_remaining := if Qle_bool left 0 then 0%Q else left in
  ret (TrialStatus v elapsed_days (trial_days self) days_remaining
                   (Qle_bool (trial_days self) elapsed_days)).

(** [get_trial_status(user_id=None)] *)
Definition get_trial_status (user_id : option string) : M trial_status :=
  let user_id := opt_or user_id (self_user_id) in
  if opt_truthy user_id then
    let uid := default "" user_id in
    trial_info <- _get_user_trial_info uid ;;
    trial_info <-
      (if negb (truthy trial_info) then
         t <- now ;;
         let fresh :=
           JDict (<["first_install_date" := JStr (Datetime.isoformat t)]>
                 (<["user_id" := JStr uid]>
                 (<["product_id" := JStr (product_id self)]> ∅))) in
         _set_user_trial_info uid fresh
       else ret trial_info) ;;
    trial_result trial_info
  else
    installation_info <- get_installation_info None ;;
    if negb (truthy installation_info) then ret (NoInstallation "No installation found")
    else trial_result installation_info.

End Methods.

(* ===================================================================== *)
(** ** The manager's interface as a transition system *)
(* ===================================================================== *)

(** One call of a method of [LicenseManager], with its arguments. *)
Inductive call :=
| CallGenerate (customer_id : string) (days : pynum) (license_type sigtype : string)
| CallValidate (license_key : string)
| CallInstall (license_key : string)
| CallGetCurrentLicense
| CallGetInstallationInfo (user_id : option string)
| CallIsLicenseValid
| CallGetDaysRemaining
| CallRevoke
| CallGetTrialStatus (user_id : option string)
| CallGetUserTrialInfo (user_id : string)
| CallSetUserTrialInfo (user_id : string) (info : json).

(** Running a computation for its effect. *)
Definition exec {A} (c : M A) (w : world) : world := snd (c w).

(** The world after one call; an exception leaves the effects made
    before it was raised. *)
Definition step (self : LicenseManager) (c : call) (w : world) : world :=
  match c with
  | CallGenerate cu d lt st => exec (generate_license_key self cu d lt st) w
  | CallValidate k => exec (validate_license_key self k) w
  | CallInstall k => exec (install_license self k) w
  | CallGetCurrentLicense => exec (get_current_license self) w
  | CallGetInstallationInfo u => exec (get_installation_info self u) w
  | CallIsLicenseValid => exec (is_license_valid self) w
  | CallGetDaysRemaining => exec (get_days_remaining self) w
  | CallRevoke => exec (revoke_license self) w
  | CallGetTrialStatus u => exec (get_trial_status self u) w
  | CallGetUserTrialInfo u => exec (_get_user_trial_info self u) w
  | CallSetUserTrialInfo u i => exec (_set_user_trial_info self u i) w
  end.

(** The world after a sequence of calls. *)
Definition run (self : LicenseManager) (calls : list call) (w : world) : world :=
  fold_left (fun w c => step self c w) calls w.

(** Replacing the character at position [i] of a key string. *)
Fixpoint flip_char (i : nat) (c : ascii) (s : string) : string :=
  match s, i with
  | EmptyString, _ => EmptyString
  | String _ r, O => String c r
  | String x r, S k => String x (flip_char k c r)
  end.

(** The number of positions at which two strings of the same length differ. *)
Fixpoint hamming (a b : string) : nat :=
  match a, b with
  | String x r, String y r' => ((if Ascii.eqb x y then 0 else 1) + hamming r r')%nat
  | _, _ => O
  end.

(* ===================================================================== *)
(** ** A host, two managers and a clock for the worked examples *)
(* ===================================================================== *)

Definition sample_host : host :=
  {| system := "Linux"; appdata := None; home := "/home/ally";
     machine := "x86_64"; processor := "x86_64"; node := "build-01";
     getnode := 123456789;
     generated_key := "Ar_tw-PJgfvxhRj_N5GjaZgGjrwU5cE3WqnBFzKGT-o=";
     path_sep := "/" |}.

(** [LicenseManager(product_id="AllyIn")] on that host: no RSA key files. *)
Definition sample_manager : LicenseManager :=
  new_manager sample_host "AllyIn" (PyFloat 30) None None None None None.

(** The same, with a public key file that holds an RSA key.  The key
    accepts no signature at all; the examples that use it never reach
    its [verify]. *)
Definition sample_rsa_manager : LicenseManager :=
  new_manager sample_host "AllyIn" (PyFloat 30) None None
              (Some (RSAPublicKey (fun _ _ => false))) None None.

(** 2024-01-01T00:00:00, in microseconds since 0001-01-01. *)
Definition t2024 : Z := 63839664000000000.

(** An empty data directory and a clock that starts at [t2024] and moves
    by a quarter of a second between two readings. *)
Definition sample_world : world :=
  World ∅ (fun n => Z.of_nat n * 250000 + t2024) 0 0.

(** License data that carries the fingerprint [fp] and nothing else. *)
Definition bound_license (fp : string) : gmap string string :=
  {[ "machine_fingerprint" := fp ]}.

(* ===================================================================== *)
(** ** Vocabulary of the statements *)
(* ===================================================================== *)

(** [c] leaves the file at [p] as it found it, present or absent. *)
Definition frames {A} (p : string) (c : M A) : Prop :=
  forall w, files (snd (c w)) !! p = files w !! p.

(** The world after one reading of the clock. *)
Definition tick (w : world) : world :=
  World (files w) (clock w) (S (ticks w)) (draws w).

(** The last [n] characters of [s]. *)
Definition str_last (n : nat) (s : string) : string :=
  str_drop (String.length s - n) s.

(** The record [install_license] writes at the reading [t] of the clock. *)
Definition installation_record (self : LicenseManager) (t : Z) : json :=
  JDict (<["first_install_date" := JStr (Datetime.isoformat t)]>
        (<["machine_id" := JStr (machine_id self)]>
        (<["product_id" := JStr (product_id self)]> ∅))).

(** What [_set_user_trial_info] stores for the user, given the table
    [trials] it loads: the caller's [info], with the date of the entry
    the user already has, if any. *)
Definition merged_info (trials info : gmap string json) (uid : string)
  : gmap string json :=
  match trials !! uid with
  | Some (JDict existing) =>
      match existing !! "first_install_date" with
      | Some v => <["first_install_date" := v]> info
      | None => info
      end
  | _ => info
  end.

(** The date the table holds for a user, if it holds one. *)
Definition stored_date (trials : gmap string json) (uid : string) : option json :=
  match trials !! uid with
  | Some (JDict e) => e !! "first_install_date"
  | _ => None
  end.

(** The record [validate_license_key] returns for the fields of a key,
    the integer [n] its [days] field reads as, and the reading [t]. *)
Definition validated_record (p c mc s e : string) (n : Z) (lt st : string) (t : Z)
  : gmap string json :=
  <["product_id" := JStr p]>
  (<["customer_id" := JStr c]>
  (<["machine_id" := JStr mc]>
  (<["license_type" := JStr lt]>
  (<["start_date" := JStr s]>
  (<["end_date" := JStr e]>
  (<["days" := JNum (PyInt n)]>
  (<["sigtype" := JStr st]>
  (<["validated_at" := JStr (Datetime.strftime t)]> ∅)))))))).

(** The second component of [(False, "License validation error: ...")]. *)
Definition validation_error (e : exn) : json :=
  JStr ("License validation error: " +:+ exn_str e).

(** A key signed with the manager's secret, as [generate_license_key]
    builds it, for fields chosen freely: the signature, the text and the
    key string. *)
Definition hmac_signature (self : LicenseManager)
    (customer start_date end_date days license_type : string) : string :=
  Hmac.hexdigest (secret_key self)
    (data_string_of (product_id self) customer (machine_id self)
                    start_date end_date days license_type "hmac").

Definition hmac_text (self : LicenseManager)
    (customer start_date end_date days license_type : string) : string :=
  data_string_of (product_id self) customer (machine_id self)
                 start_date end_date days license_type "hmac"
  +:+ "|" +:+ hmac_signature self customer start_date end_date days license_type.

Definition hmac_key (self : LicenseManager)
    (customer start_date end_date days license_type : string) : string :=
  Base64.urlsafe_b64encode
    (hmac_text self customer start_date end_date days license_type).

(** *** Worked examples *)

(** [generate_license_key("cust", 7, "paid", "hmac")] on the sample
    manager: the key, the record and the world it leaves. *)
Definition sample_generated : result (string * json) * world :=
  generate_license_key sample_manager "cust" (PyInt 7) "paid" "hmac" sample_world.

Definition sample_key : string :=
  match fst sample_generated with
  | Ok (k, _) => k
  | Raise _ => ""
  end.

Definition sample_record : json :=
  match fst sample_generated with
  | Ok (_, r) => r
  | Raise _ => JNull
  end.

(** The sample key with its last character before the padding changed
    from [E] to [F]. *)
Definition sample_tampered_key : string :=
  flip_char (String.length sample_key - 2) "F" sample_key.

(** The same call with half a day, and with [30.0] days. *)
Definition sample_generated_half : result (string * json) * world :=
  generate_license_key sample_manager "cust" (PyFloat (1 # 2)) "paid" "hmac" sample_world.

Definition sample_generated_float : result (string * json) * world :=
  generate_license_key sample_manager "cust" (PyFloat 30) "paid" "hmac" sample_world.

Definition key_of (g : result (string * json) * world) : string :=
  match fst g with
  | Ok (k, _) => k
  | Raise _ => ""
  end.

(** A key of type ["rsa"] whose signature field is the single
    character [A]. *)
Definition sample_rsa_key : string :=
  Base64.urlsafe_b64encode
    (data_string_of "AllyIn" "cust" (machine_id sample_rsa_manager) "20240101T000000"
                    "20240201T000000" "30" "trial" "rsa" +:+ "|A").

(** The 32 bytes of the sample manager's Fernet key. *)
Definition sample_key32 : string :=
  match fernet_key (secret_key sample_manager) with
  | Ok k => k
  | Raise _ => ""
  end.

(** Two trial records for one user, with different dates. *)
Definition trial_info_of (date : string) : gmap string json :=
  <["first_install_date" := JStr date]>
  (<["user_id" := JStr "bob"]> (<["product_id" := JStr "AllyIn"]> ∅)).

(* ===================================================================== *)
(** ** Vocabulary of the round trip *)
(* ===================================================================== *)

(** [P] on the [fuel] integers from [z] on. *)
Fixpoint all_from (fuel : nat) (z : Z) (P : Z -> bool) : bool :=
  match fuel with
  | O => true
  | S k => P z && all_from k (z + 1) P
  end.


(** The four six-bit values of three bytes, and the bytes they give back. *)
Definition sextet1 (a : Z) : Z := Z.shiftr a 2.
Definition sextet2 (a b : Z) : Z := Z.lor (Z.shiftl (Z.land a 3) 4) (Z.shiftr b 4).
Definition sextet3 (b c : Z) : Z := Z.lor (Z.shiftl (Z.land b 15) 2) (Z.shiftr c 6).
Definition sextet4 (c : Z) : Z := Z.land c 63.

(** The number of separators in a text. *)
Fixpoint bars (sep : ascii) (s : string) : nat :=
  match s with
  | EmptyString => 0
  | String c r => ((if Ascii.eqb c sep then 1 else 0) + bars sep r)%nat
  end.

(** The record of a generated pair, next to [key_of]. *)
Definition record_of (g : result (string * json) * world) : json :=
  match fst g with
  | Ok (_, r) => r
  | Raise _ => JNull
  end.

(** The last steps of [ord2ymd]: month and day of the day [n] of a year
    (from 0), given whether the year is a leap year. *)
Definition month_day (leapyear : bool) (n : Z) : Z * Z :=
  let month := Z.shiftr (n + 50) 5 in
  let preceding :=
    nth (Z.to_nat month) Datetime.DAYS_BEFORE_MONTH 0
    + (if (2 <? month) && leapyear then 1 else 0) in
  if n <? preceding then
    let month' := month - 1 in
    let preceding' :=
      preceding - (nth (Z.to_nat month') Datetime.DAYS_IN_MONTH 0
                   + (if (month' =? 2) && leapyear then 1 else 0)) in
    (month', n - preceding' + 1)
  else (month, n - preceding + 1).

(** What [month_day] has to give: a month, a day of that month, and as
    many days before them in the year as [n]. *)
Definition month_day_ok (leapyear : bool) (n : Z) : bool :=
  let '(m, d) := month_day leapyear n in
  (1 <=? m) && (m <=? 12) && (1 <=? d)
  && (d <=? (if (m =? 2) && leapyear then 29
             else nth (Z.to_nat m) Datetime.DAYS_IN_MONTH 0))
  && (nth (Z.to_nat m) Datetime.DAYS_BEFORE_MONTH 0
      + (if (2 <? m) && leapyear then 1 else 0) + d =? n + 1).

(** What the regular expression [re] of a two-digit directive has to do
    with the two digits [strftime] prints for [n]: match them first, as
    the number [n]. *)
Definition field_ok (re : list ascii -> list (Z * list ascii)) (n : Z) : bool :=
  match list_ascii_of_string (zfill 2 n) with
  | [x; y] =>
      match re [x; y] with
      | (v, []) :: _ => v =? n
      | _ => false
      end
  | _ => false
  end.

(** A regular expression that looks at no more than two characters. *)
Definition two_chars (re : list ascii -> list (Z * list ascii)) : Prop :=
  forall x y rest,
    re (x :: y :: rest) = map (fun p => (fst p, (snd p ++ rest)%list)) (re [x; y]).

(** A text as a Python [str] holds it: well-formed UTF-8. *)
Definition is_text (s : string) : Prop := Utf8.decode s = Ok s.

(** An ASCII character other than the field separator. *)
Definition plain (c : ascii) : bool := (byte_val c <? 128) && negb (Ascii.eqb c "|").

Definition plain_text (s : string) : Prop :=
  Forall (fun c => plain c = true) (list_ascii_of_string s).

(** A field of a key as a caller may choose it: a text without the
    separator. *)
Definition field (s : string) : Prop := is_text s /\ bars "|" s = 0%nat.

(** The keys the signature type needs: none for HMAC, where the secret
    is part of the manager; for ["rsa"] a private key and a public key
    that verifies what the private key signs. *)
Definition keys_match (self : LicenseManager) (sigtype : string) : Prop :=
  sigtype = "rsa" ->
  exists sign verify,
    rsa_private_key self = Some (RSAPrivateKey sign) /\
    rsa_public_key self = Some (RSAPublicKey verify) /\
    forall data salt, verify (sign data salt) data = true.

(** The record [generate_license_key] returns with the key. *)
Definition generated_record (p c mc s e : string) (days : pynum) (lt st created : string)
  : gmap string json :=
  <["product_id" := JStr p]>
  (<["customer_id" := JStr c]>
  (<["machine_id" := JStr mc]>
  (<["license_type" := JStr lt]>
  (<["start_date" := JStr s]>
  (<["end_date" := JStr e]>
  (<["days" := JNum days]>
  (<["created_at" := JStr created]>
  (<["sigtype" := JStr st]> ∅)))))))).

(** [generate_license_key("cust", 0, "paid", "hmac")] on the sample manager. *)
Definition sample_generated_zero : result (string * json) * world :=
  generate_license_key sample_manager "cust" (PyInt 0) "paid" "hmac" sample_world.


(* ===================================================================== *)
(** ** Vocabulary of the statements about the rest of the library *)
(* ===================================================================== *)

(** The record [get_trial_status] stores for a new user at the reading
    [t] of the clock. *)
Definition trial_record (self : LicenseManager) (uid : string) (t : Z) : json :=
  JDict (<["first_install_date" := JStr (Datetime.isoformat t)]>
        (<["user_id" := JStr uid]>
        (<["product_id" := JStr (product_id self)]> ∅))).

(** The status of a trial that started at [t0], seen at the reading [t]:
    the days elapsed, the days of the trial, the days left and whether
    the trial is over. *)
Definition trial_status_at (self : LicenseManager) (date : json) (t0 t : Z)
  : trial_status :=
  let elapsed := (Datetime.total_seconds t t0 / 86400)%Q in
  let left := (trial_days self - elapsed)%Q in
  TrialStatus date elapsed (trial_days self)
              (if Qle_bool left 0 then 0%Q else left)
              (Qle_bool (trial_days self) elapsed).

(** The sample key installed right after it was generated. *)
Definition sample_installed : result (bool * json) * world :=
  install_license sample_manager sample_key (snd sample_generated).

(** A manager whose secret signs but is no Fernet key. *)
Definition sample_plain_manager : LicenseManager :=
  new_manager sample_host "AllyIn" (PyFloat 30) None None None None
              (Some "not-a-fernet-key").

(** A manager for another product, on the same host, with a Fernet key
    of its own: the 32 zero bytes. *)
Definition sample_other_key : string := "AAAAAAAAAAAAAAAAAAAAAAAAAAAAAAAAAAAAAAAAAAA=".

Definition sample_other_manager : LicenseManager :=
  new_manager sample_host "Other" (PyFloat 30) None None None None
              (Some sample_other_key).

(** The first trial check of the user ["bob"] on the sample manager. *)
Definition sample_trial : result trial_status * world :=
  get_trial_status sample_manager (Some "bob") sample_world.

(** A key generated by the manager whose secret is no Fernet key. *)
Definition sample_plain_generated : result (string * json) * world :=
  generate_license_key sample_plain_manager "cust" (PyInt 7) "paid" "hmac" sample_world.

(** A state whose license file holds a record without an end date. *)
Definition sample_bare_world : world :=
  World (<[license_file sample_manager :=
             Token sample_key32 0 (JDict (<["product_id" := JStr "AllyIn"]> ∅))]> ∅)
        (clock sample_world) 0 0.


(* ===================================================================== *)
(** * Properties *)
(* ===================================================================== *)

(** ** The monad: what a computation does to one file *)

Lemma frames_ret {A} p (a : A) : frames p (ret a).
Proof. intros w; reflexivity. Qed.

Lemma frames_raise {A} p e : frames p (@raise A e).
Proof. intros w; reflexivity. Qed.

Lemma frames_lift {A} p (r : result A) : frames p (lift r).
Proof. intros w; reflexivity. Qed.

Lemma frames_now p : frames p now.
Proof. intros w; reflexivity. Qed.

Lemma frames_fresh_iv p : frames p fresh_iv.
Proof. intros w; reflexivity. Qed.

Lemma frames_path_exists p q : frames p (path_exists q).
Proof. intros w; reflexivity. Qed.

Lemma frames_read_file p q : frames p (read_file q).
Proof. intros w; unfold read_file; destruct (files w !! q); reflexivity. Qed.

Lemma frames_write_file p q b : p <> q -> frames p (write_file q b).
Proof. intros Hne w; simpl. apply lookup_insert_ne; congruence. Qed.

Lemma frames_remove_file p q : p <> q -> frames p (remove_file q).
Proof. intros Hne w; simpl. apply lookup_delete_ne; congruence. Qed.

Lemma frames_bind {A B} p (c : M A) (k : A -> M B) :
  frames p c -> (forall a, frames p (k a)) -> frames p (bind c k).
Proof.
  intros Hc Hk w. unfold bind.
  specialize (Hc w). destruct (c w) as [[a | e] w']; simpl in *.
  - rewrite Hk. exact Hc.
  - exact Hc.
Qed.

Lemma frames_try_except {A} p (c : M A) (h : exn -> M A) :
  frames p c -> (forall e, frames p (h e)) -> frames p (try_except c h).
Proof.
  intros Hc Hh w. unfold try_except.
  specialize (Hc w). destruct (c w) as [[a | e] w']; simpl in *.
  - exact Hc.
  - rewrite Hh. exact Hc.
Qed.

Lemma frames_if {A} p (b : bool) (c1 c2 : M A) :
  frames p c1 -> frames p c2 -> frames p (if b then c1 else c2).
Proof. destruct b; auto. Qed.

(** The frame rule, applied along the structure of a method body. *)
Ltac frame_step :=
  repeat match goal with
    | |- frames _ (bind _ _) => apply frames_bind; [ | intros ? ]
    | |- frames _ (try_except _ _) => apply frames_try_except; [ | intros ? ]
    | |- frames _ (if _ then _ else _) => apply frames_if
    | |- frames _ (let (_, _) := ?r in _) => destruct r
    | |- frames _ (ret _) => apply frames_ret
    | |- frames _ (raise _) => apply frames_raise
    | |- frames _ (lift _) => apply frames_lift
    | |- frames _ now => apply frames_now
    | |- frames _ fresh_iv => apply frames_fresh_iv
    | |- frames _ (path_exists _) => apply frames_path_exists
    | |- frames _ (read_file _) => apply frames_read_file
    | |- frames _ (write_file _ _) => apply frames_write_file; congruence
    | |- frames _ (remove_file _) => apply frames_remove_file; congruence
    end.

Lemma frames_encrypt self p data : frames p (_encrypt_data self data).
Proof. unfold _encrypt_data. frame_step. Qed.

Lemma frames_save self p data q :
  p <> q -> frames p (_save_encrypted_data self data q).
Proof. intros. unfold _save_encrypted_data. frame_step; auto using frames_encrypt. Qed.

Lemma frames_load self p q : frames p (_load_encrypted_data self q).
Proof. unfold _load_encrypted_data. frame_step. Qed.

Lemma frames_load_trials self p : frames p (_load_trials self).
Proof. unfold _load_trials. frame_step. Qed.

Lemma frames_save_trials self p trials :
  p <> trials_file self -> frames p (_save_trials self trials).
Proof. intros. unfold _save_trials. frame_step; auto using frames_encrypt. Qed.

Lemma frames_get_user_trial_info self p u : frames p (_get_user_trial_info self u).
Proof. unfold _get_user_trial_info. frame_step; auto using frames_load_trials. Qed.

Lemma frames_set_user_trial_info self p u info :
  p <> trials_file self -> frames p (_set_user_trial_info self u info).
Proof.
  intros. unfold _set_user_trial_info. frame_step;
    auto using frames_load_trials, frames_save_trials.
Qed.

Lemma frames_generate self p cu d lt st : frames p (generate_license_key self cu d lt st).
Proof.
  unfold generate_license_key. frame_step.
  all: try (destruct (rsa_private_key self) as [[ | | ] | ]; frame_step).
Qed.

Lemma frames_validate_fields p a b c d e f g h :
  frames p (validate_fields a b c d e f g h).
Proof. unfold validate_fields. frame_step. Qed.

Lemma frames_validate_body self p k : frames p (validate_body self k).
Proof.
  unfold validate_body. frame_step.
  all: repeat match goal with
         | |- frames _ (match ?l with _ => _ end) => destruct l; frame_step
         end.
  all: try apply frames_validate_fields.
Qed.

Lemma frames_validate self p k : frames p (validate_license_key self k).
Proof. unfold validate_license_key. frame_step; auto using frames_validate_body. Qed.

Lemma frames_install self p k :
  p <> license_file self -> p <> installation_file self ->
  frames p (install_license self k).
Proof.
  intros. unfold install_license. frame_step;
    auto using frames_validate, frames_save.
Qed.

Lemma frames_get_current_license self p : frames p (get_current_license self).
Proof. apply frames_load. Qed.

Lemma frames_get_installation_info self p u : frames p (get_installation_info self u).
Proof.
  unfold get_installation_info. frame_step;
    auto using frames_get_user_trial_info, frames_load.
Qed.

Lemma frames_is_license_valid self p : frames p (is_license_valid self).
Proof.
  unfold is_license_valid. frame_step; auto using frames_get_current_license.
  destruct a; frame_step.
Qed.

Lemma frames_get_days_remaining self p : frames p (get_days_remaining self).
Proof.
  unfold get_days_remaining. frame_step; auto using frames_is_license_valid.
Qed.

Lemma frames_revoke self p :
  p <> license_file self -> frames p (revoke_license self).
Proof. intros. unfold revoke_license. frame_step. Qed.

Lemma frames_trial_result self p info : frames p (trial_result self info).
Proof. unfold trial_result. frame_step. Qed.

Lemma frames_get_trial_status self p u :
  p <> trials_file self -> frames p (get_trial_status self u).
Proof.
  intros. unfold get_trial_status. frame_step;
    auto using frames_get_user_trial_info, frames_set_user_trial_info,
               frames_trial_result, frames_get_installation_info.
Qed.

(** Every call but [install_license] leaves the installation file alone. *)
Lemma step_frames_installation self c w :
  installation_file self <> license_file self ->
  installation_file self <> trials_file self ->
  (forall k, c <> CallInstall k) ->
  files (step self c w) !! installation_file self = files w !! installation_file self.
Proof.
  intros Hl Ht Hc. destruct c; simpl; unfold exec;
    first [ apply frames_generate | apply frames_validate
          | apply frames_get_current_license | apply frames_get_installation_info
          | apply frames_is_license_valid | apply frames_get_days_remaining
          | apply frames_revoke; assumption
          | apply frames_get_trial_status; assumption
          | apply frames_get_user_trial_info
          | apply frames_set_user_trial_info; assumption
          | exfalso; eapply Hc; reflexivity ].
Qed.

(** [install_license] on an existing installation file: first write wins. *)
Lemma install_keeps self k w b :
  installation_file self <> license_file self ->
  files w !! installation_file self = Some b ->
  files (snd (install_license self k w)) !! installation_file self = Some b.
Proof.
  intros Hl Hb. unfold install_license, bind.
  pose proof (frames_validate self (installation_file self) k w) as Hv.
  destruct (validate_license_key self k w) as [[[valid res] | e] w1]; simpl in Hv;
    [ | simpl; congruence ].
  destruct valid; simpl; [ | congruence ].
  pose proof (frames_save self (installation_file self) res (license_file self) Hl w1) as Hs.
  destruct (_save_encrypted_data self res (license_file self) w1) as [[[] | e] w2];
    simpl in Hs; [ | simpl; congruence ].
  unfold path_exists.
  assert (Hw2 : files w2 !! installation_file self = Some b) by congruence.
  rewrite Hw2. simpl. exact Hw2.
Qed.

(** A rejected key changes no file. *)
Lemma install_rejected self k w p :
  (forall r w', validate_license_key self k w <> (Ok (true, r), w')) ->
  files (snd (install_license self k w)) !! p = files w !! p.
Proof.
  intros Hrej. unfold install_license, bind.
  pose proof (frames_validate self p k w) as Hv.
  destruct (validate_license_key self k w) as [[[valid res] | e] w1] eqn:E;
    simpl in Hv; [ | exact Hv ].
  destruct valid; simpl; [ | exact Hv ].
  exfalso. eapply Hrej. reflexivity.
Qed.

(** ** Paths of a manager built by the constructor *)

Lemma append_cons c (a b : string) : String c a +:+ b = String c (a +:+ b).
Proof. reflexivity. Qed.

Lemma append_nil_l (b : string) : "" +:+ b = b.
Proof. reflexivity. Qed.

Lemma append_assoc (a b c : string) : (a +:+ b) +:+ c = a +:+ (b +:+ c).
Proof.
  induction a as [ | x a IH]; [ reflexivity | ].
  rewrite !append_cons. now rewrite IH.
Qed.

Lemma length_append (a b : string) :
  String.length (a +:+ b) = (String.length a + String.length b)%nat.
Proof. induction a as [ | c a IH]; simpl; [ reflexivity | now rewrite IH ]. Qed.

Lemma str_last_append n a b :
  (n <= String.length b)%nat -> str_last n (a +:+ b) = str_last n b.
Proof.
  intros Hn. unfold str_last. induction a as [ | c a IH]; [ reflexivity | ].
  change (String c a +:+ b) with (String c (a +:+ b)).
  replace (String.length (String c (a +:+ b)) - n)%nat
    with (S (String.length (a +:+ b) - n)).
  - simpl. exact IH.
  - simpl. rewrite length_append. lia.
Qed.

Lemma path_join_suffix sep a b : exists pre, path_join sep a b = pre +:+ b.
Proof.
  unfold path_join. destruct (starts_with_char sep b).
  - exists "". reflexivity.
  - destruct (String.eqb a "" || ends_with_char sep a).
    + exists a. reflexivity.
    + exists (a +:+ String sep "").
      clear. induction a as [ | c a IH]; [ reflexivity | ].
      rewrite !append_cons. f_equal. exact IH.
Qed.

(** Two joined paths with file names of which neither ends the other differ. *)
Lemma path_join_distinct sep d1 d2 n1 n2 k :
  (k <= String.length n1)%nat -> (k <= String.length n2)%nat ->
  str_last k n1 <> str_last k n2 ->
  path_join sep d1 n1 <> path_join sep d2 n2.
Proof.
  intros H1 H2 Hne Heq.
  destruct (path_join_suffix sep d1 n1) as [p1 E1].
  destruct (path_join_suffix sep d2 n2) as [p2 E2].
  apply Hne.
  rewrite <- (str_last_append k p1 n1 H1), <- (str_last_append k p2 n2 H2).
  congruence.
Qed.

(** With no custom license file, the three files of a manager are three
    different paths, whatever the host. *)
Lemma default_paths_distinct h product td u priv pub key :
  let m := new_manager h product td u priv pub None key in
  installation_file m <> license_file m /\
  trials_file m <> license_file m /\
  installation_file m <> trials_file m.
Proof.
  simpl. repeat split; apply (path_join_distinct _ _ _ _ _ 5%nat);
    simpl; try lia; discriminate.
Qed.

(** ** Reading depends on the file read only *)

Lemma load_depends self q w w' :
  files w !! q = files w' !! q ->
  fst (_load_encrypted_data self q w) = fst (_load_encrypted_data self q w').
Proof.
  intros E. unfold _load_encrypted_data, bind, path_exists, try_except, read_file.
  destruct (files w !! q) eqn:E1, (files w' !! q) eqn:E2; try congruence;
    simpl; rewrite ?E1, ?E2; simpl; simplify_eq; reflexivity.
Qed.

Lemma load_trials_depends self w w' :
  files w !! trials_file self = files w' !! trials_file self ->
  fst (_load_trials self w) = fst (_load_trials self w').
Proof.
  intros E. unfold _load_trials, bind, path_exists, try_except, read_file.
  destruct (files w !! trials_file self) eqn:E1,
           (files w' !! trials_file self) eqn:E2; try congruence;
    simpl; rewrite ?E1, ?E2; simpl; simplify_eq; reflexivity.
Qed.

(** ** C10: [revoke_license] touches the license file only *)

(** C10.  [revoke_license] returns [(True, "License revoked")], leaves no
    license file, and leaves every other path as it was, whether or not a
    license file existed; so the installation file and the trials file,
    when they are other paths than the license file, keep their bytes,
    and the records decrypted from them are the same.  For a manager
    built without a custom license file the three paths always differ. *)
Theorem revoke_license_frame :
  forall (self : LicenseManager) (w : world),
    let w' := snd (revoke_license self w) in
    fst (revoke_license self w) = Ok (true, "License revoked") /\
    files w' !! license_file self = None /\
    (forall p, p <> license_file self -> files w' !! p = files w !! p) /\
    (installation_file self <> license_file self ->
       files w' !! installation_file self = files w !! installation_file self /\
       fst (_load_encrypted_data self (installation_file self) w')
       = fst (_load_encrypted_data self (installation_file self) w)) /\
    (trials_file self <> license_file self ->
       files w' !! trials_file self = files w !! trials_file self /\
       fst (_load_trials self w') = fst (_load_trials self w) /\
       forall u, fst (_get_user_trial_info self u w')
                 = fst (_get_user_trial_info self u w)) /\
    (forall h product td u priv pub key,
       self = new_manager h product td u priv pub None key ->
       files w' !! installation_file self = files w !! installation_file self /\
       files w' !! trials_file self = files w !! trials_file self).
Proof.
  intros self w w'.
  assert (Hframe : forall p, p <> license_file self -> files w' !! p = files w !! p).
  { intros p Hp. apply (frames_revoke self p Hp w). }
  assert (Hres : fst (revoke_license self w) = Ok (true, "License revoked")
                 /\ files w' !! license_file self = None).
  { subst w'. unfold revoke_license, bind, path_exists.
    destruct (files w !! license_file self) eqn:E; simpl.
    - split; [ reflexivity | apply lookup_delete_eq ].
    - split; [ reflexivity | exact E ]. }
  destruct Hres as [Hret Hgone].
  repeat split; auto.
  - apply load_depends. auto.
  - apply load_trials_depends. auto.
  - intros u. unfold _get_user_trial_info, bind.
    pose proof (load_trials_depends self w' w (Hframe _ H)) as E.
    destruct (_load_trials self w') as [r1 w1], (_load_trials self w) as [r2 w2].
    simpl in E. subst r2. destruct r1; reflexivity.
  - apply Hframe. subst self. apply default_paths_distinct.
  - apply Hframe. subst self. apply default_paths_distinct.
Qed.

(** ** C3: the installation record *)

Lemma validate_files self k w : files (snd (validate_license_key self k w)) = files w.
Proof. apply map_eq. intros p. apply frames_validate. Qed.

Lemma save_ok self data q w key32 :
  fernet_key (secret_key self) = Ok key32 ->
  _save_encrypted_data self data q w
  = (Ok tt, World (<[q := Token key32 (draws w) data]> (files w))
                  (clock w) (ticks w) (S (draws w))).
Proof.
  intros Hk. unfold _save_encrypted_data, _encrypt_data, bind, lift. rewrite Hk.
  reflexivity.
Qed.

(** C3, as the code has it.  The installation record is written by
    [install_license], when the key is valid and no installation file
    exists; [get_trial_status] never writes it.  Once the file exists no
    call of the interface, and no sequence of calls, changes or removes
    it: there is no deletion API, and [install_license] tests for the
    file before it writes. *)
Theorem installation_record_lifecycle :
  forall self : LicenseManager,
    installation_file self <> license_file self ->
    installation_file self <> trials_file self ->
    let inst := installation_file self in
    (* never overwritten, never deleted *)
    (forall calls w b,
        files w !! inst = Some b -> files (run self calls w) !! inst = Some b) /\
    (* created by a successful install_license and by nothing else *)
    (forall c w,
        files w !! inst = None -> files (step self c w) !! inst <> None ->
        exists k r w1, c = CallInstall k /\
                       validate_license_key self k w = (Ok (true, r), w1)) /\
    (* get_trial_status leaves it as it is, absent included *)
    (forall u w,
        files (step self (CallGetTrialStatus u) w) !! inst = files w !! inst) /\
    (* with no user and no record, get_trial_status reports that *)
    (forall w, user_id self = None -> files w !! inst = None ->
        get_trial_status self None w = (Ok (NoInstallation "No installation found"), w)) /\
    (* the first successful install writes it *)
    (forall k w r w1 key32,
        fernet_key (secret_key self) = Ok key32 ->
        validate_license_key self k w = (Ok (true, r), w1) ->
        files w !! inst = None ->
        files (step self (CallInstall k) w) !! inst
        = Some (Token key32 (S (draws w1))
                      (installation_record self (clock w1 (ticks w1))))).
Proof.
  intros self Hl Ht inst. subst inst.
  assert (Hstep : forall c w b,
             files w !! installation_file self = Some b ->
             files (step self c w) !! installation_file self = Some b).
  { intros c w b Hb.
    destruct c;
      try (rewrite step_frames_installation by first [ assumption | discriminate ];
           assumption).
    apply install_keeps; assumption. }
  repeat split.
  - intros calls. induction calls as [ | c calls IH]; intros w b Hb; simpl; auto.
  - intros c w Hnone Hsome.
    destruct c as [ | | k | | | | | | | | ];
      try (rewrite step_frames_installation in Hsome
             by first [ assumption | discriminate ]; congruence).
    simpl in Hsome. unfold exec in Hsome.
    destruct (validate_license_key self k w) as [[[[] res] | e] w1] eqn:E.
    + eauto.
    + exfalso. apply Hsome. rewrite install_rejected; [ exact Hnone | ].
      intros r w' Hc. congruence.
    + exfalso. apply Hsome. rewrite install_rejected; [ exact Hnone | ].
      intros r w' Hc. congruence.
  - intros u w. apply step_frames_installation; auto; discriminate.
  - intros w Hu Hnone.
    unfold get_trial_status, get_installation_info, opt_or. rewrite Hu. simpl.
    unfold _load_encrypted_data, bind, path_exists. rewrite Hnone.
    reflexivity.
  - intros k w r w1 key32 Hk Hv Hnone. simpl. unfold exec, install_license, bind.
    rewrite Hv. simpl. rewrite (save_ok _ _ _ _ _ Hk). simpl.
    unfold path_exists. simpl.
    assert (Hw1 : files w1 = files w).
    { pose proof (validate_files self k w) as E. rewrite Hv in E. exact E. }
    rewrite lookup_insert_ne by congruence. rewrite Hw1. rewrite Hnone.
    simpl. unfold now. simpl. rewrite (save_ok _ _ _ _ _ Hk). simpl.
    apply lookup_insert_eq.
Qed.

(** ** C5 and C7: fingerprint similarity and machine binding *)

(** Only the empty [str] has length 0. *)
Lemma str_len_pos c r : (0 < str_len (String c r))%nat.
Proof.
  unfold str_len. cbn [characters].
  destruct (continues r), (characters r); simpl; lia.
Qed.

Lemma zip_matches_refl l : zip_matches l l = length l.
Proof.
  induction l as [ | a l IH]; simpl; [ reflexivity | ].
  rewrite String.eqb_refl, IH. reflexivity.
Qed.

Lemma zip_matches_le l1 l2 : (zip_matches l1 l2 <= length l1)%nat.
Proof.
  revert l2. induction l1 as [ | a l1 IH]; intros [ | b l2]; simpl; try lia.
  specialize (IH l2). destruct (String.eqb a b); lia.
Qed.

Lemma count_matches_refl fp : count_matches fp fp = str_len fp.
Proof. apply zip_matches_refl. Qed.

Lemma count_matches_le fp1 fp2 : (count_matches fp1 fp2 <= str_len fp1)%nat.
Proof. apply zip_matches_le. Qed.

(** On ASCII text, a hexadecimal digest for one, the characters are the
    bytes: the length is the number of bytes. *)
Lemma characters_ascii s :
  Forall (fun c => byte_val c < 128) (list_ascii_of_string s) ->
  characters s = map (fun c => String c "") (list_ascii_of_string s).
Proof.
  induction s as [ | c r IH]; intros H; [ reflexivity | ].
  cbn [list_ascii_of_string] in H. inversion H as [ | ? ? _ Hr]; subst.
  cbn [characters list_ascii_of_string map]. rewrite (IH Hr).
  assert (continues r = false) as ->; [ | reflexivity ].
  destruct r as [ | d r']; [ reflexivity | ].
  cbn [list_ascii_of_string] in Hr. inversion Hr as [ | ? ? Hd _]; subst.
  unfold continues, is_continuation.
  replace (128 <=? byte_val d) with false by (symmetry; apply Z.leb_gt; exact Hd).
  reflexivity.
Qed.

Lemma str_len_ascii s :
  Forall (fun c => byte_val c < 128) (list_ascii_of_string s) ->
  str_len s = String.length s.
Proof.
  intros H. unfold str_len. rewrite (characters_ascii s H), length_map.
  clear H. induction s as [ | c r IH]; simpl; congruence.
Qed.

(** The similarity of two strings of one length, the first not empty. *)
Lemma similarity_fraction fp1 fp2 :
  str_len fp1 = str_len fp2 -> fp1 <> "" ->
  calculate_fingerprint_similarity fp1 fp2
  = Z.of_nat (count_matches fp1 fp2) # Pos.of_nat (str_len fp1).
Proof.
  intros Hlen Hne. unfold calculate_fingerprint_similarity.
  rewrite Hlen, Nat.eqb_refl. simpl. rewrite <- Hlen.
  destruct fp1 as [ | c fp1]; [ congruence | ].
  pose proof (str_len_pos c fp1) as Hpos.
  destruct (str_len (String c fp1)); [ lia | reflexivity ].
Qed.

Lemma similarity_unequal fp1 fp2 :
  str_len fp1 <> str_len fp2 ->
  calculate_fingerprint_similarity fp1 fp2 = 0%Q.
Proof.
  intros Hlen. unfold calculate_fingerprint_similarity.
  apply Nat.eqb_neq in Hlen. rewrite Hlen. reflexivity.
Qed.

Lemma similarity_empty fp2 : calculate_fingerprint_similarity "" fp2 = 0%Q.
Proof.
  unfold calculate_fingerprint_similarity.
  destruct (negb (str_len "" =? str_len fp2)%nat); reflexivity.
Qed.

Lemma fraction_bounds (m n : nat) :
  (m <= n)%nat -> (0 < n)%nat -> (0 <= Z.of_nat m # Pos.of_nat n <= 1)%Q.
Proof.
  intros Hmn Hn. unfold Qle; simpl. rewrite Z.mul_1_r, Z.mul_1_l.
  assert (Z.pos (Pos.of_nat n) = Z.of_nat n) as ->.
  { destruct n; [ lia | ]. rewrite <- Pos.of_nat_succ. lia. }
  lia.
Qed.

Lemma similarity_bounds fp1 fp2 :
  (0 <= calculate_fingerprint_similarity fp1 fp2 <= 1)%Q.
Proof.
  destruct fp1 as [ | c fp1].
  - rewrite similarity_empty. vm_compute. split; discriminate.
  - destruct (Nat.eq_dec (str_len (String c fp1)) (str_len fp2)) as [E | E].
    + rewrite similarity_fraction by (auto; discriminate).
      apply fraction_bounds; [ apply count_matches_le | apply str_len_pos ].
    + rewrite similarity_unequal by assumption. vm_compute. split; discriminate.
Qed.

(** C5, as the code has it.  The similarity lies in [0, 1]; it is 0 for
    two strings of different lengths; for two strings of one length, not
    empty, it is the share of positions that hold the same character, so
    it is 1 for a non-empty string and itself.  Lengths and positions are
    those of the characters of the [str]s, whatever the text.  The empty
    string with itself gives 0, not 1: the division by the length raises
    and the handler returns 0.0. *)
Theorem fingerprint_similarity_spec :
  forall fp1 fp2 : string,
    (0 <= calculate_fingerprint_similarity fp1 fp2 <= 1)%Q /\
    (str_len fp1 <> str_len fp2 ->
       calculate_fingerprint_similarity fp1 fp2 = 0%Q) /\
    (str_len fp1 = str_len fp2 -> fp1 <> "" ->
       calculate_fingerprint_similarity fp1 fp2
       = Z.of_nat (count_matches fp1 fp2) # Pos.of_nat (str_len fp1)) /\
    (fp1 <> "" -> (calculate_fingerprint_similarity fp1 fp1 == 1)%Q) /\
    calculate_fingerprint_similarity "" "" = 0%Q.
Proof.
  intros fp1 fp2. split; [ apply similarity_bounds | ].
  split; [ apply similarity_unequal | ].
  split; [ apply similarity_fraction | ].
  split; [ | reflexivity ].
  intros Hne. rewrite similarity_fraction by auto.
  rewrite count_matches_refl. unfold Qeq; simpl.
  destruct fp1 as [ | c fp1]; [ congruence | ].
  pose proof (str_len_pos c fp1) as Hpos.
  destruct (str_len (String c fp1)) as [ | n]; [ lia | ].
  rewrite Z.mul_1_r, Z.mul_1_l. rewrite <- Pos.of_nat_succ. lia.
Qed.

(** The empty fingerprint is not similar to itself. *)
Lemma similarity_empty_counterexample :
  calculate_fingerprint_similarity "" "" = 0%Q /\
  ~ (calculate_fingerprint_similarity "" "" == 1)%Q.
Proof. split; [ reflexivity | vm_compute; discriminate ]. Qed.

Lemma fingerprint_similarity_witness :
  (calculate_fingerprint_similarity "0123456789abcdef" "0123456789abcdef" == 1)%Q /\
  calculate_fingerprint_similarity "0123456789abcdef" "0123" = 0%Q /\
  calculate_fingerprint_similarity "0123456789abcdef" "0123456789abcdxx" = 14 # 16 /\
  calculate_fingerprint_similarity "aaaé" "aaaè" = 3 # 4.
Proof.
  pose proof (fingerprint_similarity_spec "0123456789abcdef" "0123456789abcdef")
    as (_ & _ & _ & Hrefl & _).
  pose proof (fingerprint_similarity_spec "0123456789abcdef" "0123")
    as (_ & Hlen & _).
  pose proof (fingerprint_similarity_spec "0123456789abcdef" "0123456789abcdxx")
    as (_ & _ & Hfrac & _).
  pose proof (fingerprint_similarity_spec "aaaé" "aaaè")
    as (_ & _ & Hfrac' & _).
  split; [ apply Hrefl; discriminate | ].
  split; [ apply Hlen; vm_compute; discriminate | ].
  split; [ apply Hfrac; [ reflexivity | discriminate ] | ].
  apply Hfrac'; [ reflexivity | discriminate ].
Defined.

(** Text outside ASCII: a character of several bytes is one position. *)
Lemma similarity_beyond_ascii :
  str_len "aaaé" = 4%nat /\ count_matches "aaaé" "aaaè" = 3%nat /\
  calculate_fingerprint_similarity "aaaé" "aaaè" = 3 # 4 /\
  calculate_fingerprint_similarity "éa" "aa" = 1 # 2 /\
  calculate_fingerprint_similarity "éa" "aaa" = 0%Q /\
  calculate_fingerprint_similarity "日本語" "日本誤" = 2 # 3.
Proof. repeat split. Qed.

(** At or above the threshold: the lengths agree and at least four
    positions in five match. *)
Lemma similarity_threshold fp cur :
  (binding_threshold <= calculate_fingerprint_similarity fp cur)%Q <->
  str_len fp = str_len cur /\ fp <> "" /\
  (4 * str_len fp <= 5 * count_matches fp cur)%nat.
Proof.
  destruct fp as [ | c fp].
  - rewrite similarity_empty. split.
    + vm_compute. congruence.
    + intros (_ & H & _). congruence.
  - destruct (Nat.eq_dec (str_len (String c fp)) (str_len cur)) as [E | E].
    + rewrite similarity_fraction by (auto; discriminate).
      pose proof (str_len_pos c fp) as Hpos.
      unfold binding_threshold, Qle. cbn [Qnum Qden].
      destruct (str_len (String c fp)) as [ | n] eqn:En; [ lia | ].
      rewrite <- Pos.of_nat_succ.
      split.
      * intros H. repeat split; [ exact E | discriminate | lia ].
      * intros (_ & _ & H). lia.
    + rewrite similarity_unequal by assumption. split.
      * vm_compute. congruence.
      * intros (H & _). contradiction.
Qed.

(** C7.  A license without a ['machine_fingerprint'] is accepted on any
    machine.  With one, the binding holds exactly when the stored and the
    current fingerprint are equal or their similarity is at least 0.8,
    that is when they have one length and at least 80% of the positions
    match, lengths and positions counted in characters; it fails when
    they differ and the similarity is below 0.8. *)
Theorem machine_binding_tolerance :
  forall (license_data : gmap string string) (current_fingerprint : string),
    (license_data !! "machine_fingerprint" = None ->
       validate_machine_binding license_data current_fingerprint = true) /\
    (forall fp, license_data !! "machine_fingerprint" = Some fp ->
       (validate_machine_binding license_data current_fingerprint = true <->
        fp = current_fingerprint \/
        (8 # 10 <= calculate_fingerprint_similarity fp current_fingerprint)%Q) /\
       (fp <> current_fingerprint ->
        (calculate_fingerprint_similarity fp current_fingerprint < 8 # 10)%Q ->
        validate_machine_binding license_data current_fingerprint = false) /\
       (validate_machine_binding license_data current_fingerprint = true <->
        fp = current_fingerprint \/
        (str_len fp = str_len current_fingerprint /\ fp <> "" /\
         (4 * str_len fp <= 5 * count_matches fp current_fingerprint)%nat))).
Proof.
  intros license_data cur. split.
  - intros H. unfold validate_machine_binding. rewrite H. reflexivity.
  - intros fp H. unfold validate_machine_binding. rewrite H.
    destruct (String.eqb_spec fp cur) as [E | E].
    + repeat split; auto; intros; congruence.
    + fold binding_threshold. rewrite <- similarity_threshold.
      rewrite Qle_bool_iff. repeat split.
      * auto.
      * intros [? | ?]; [ contradiction | assumption ].
      * intros _ Hlt. apply not_true_is_false. rewrite Qle_bool_iff.
        apply Qlt_not_le. exact Hlt.
      * auto.
      * intros [? | ?]; [ contradiction | assumption ].
Qed.

Lemma machine_binding_witness :
  validate_machine_binding ∅ "0123456789abcdef" = true /\
  validate_machine_binding (bound_license "0123456789abcdxx") "0123456789abcdef" = true /\
  validate_machine_binding (bound_license "0123456789abxxxx") "0123456789abcdef" = false /\
  validate_machine_binding (bound_license "aaaé") "aaaè" = false.
Proof.
  split; [ | split; [ | split ] ].
  - apply (proj1 (machine_binding_tolerance ∅ "0123456789abcdef")). reflexivity.
  - destruct (proj2 (machine_binding_tolerance (bound_license "0123456789abcdxx")
                       "0123456789abcdef") "0123456789abcdxx"
                       ltac:(vm_compute; reflexivity))
      as (Hiff & _ & _).
    apply Hiff. right. vm_compute. discriminate.
  - destruct (proj2 (machine_binding_tolerance (bound_license "0123456789abxxxx")
                       "0123456789abcdef") "0123456789abxxxx"
                       ltac:(vm_compute; reflexivity))
      as (_ & Hfalse & _).
    apply Hfalse; [ discriminate | vm_compute; reflexivity ].
  - destruct (proj2 (machine_binding_tolerance (bound_license "aaaé") "aaaè") "aaaé"
                       ltac:(vm_compute; reflexivity))
      as (_ & Hfalse & _).
    apply Hfalse; [ discriminate | vm_compute; reflexivity ].
Defined.

(** ** C6: the first install date of a user is kept *)

Lemma load_trials_world self w : snd (_load_trials self w) = w.
Proof.
  unfold _load_trials, bind, path_exists, try_except, read_file.
  destruct (files w !! trials_file self) eqn:E; simpl; [ | reflexivity ].
  rewrite E. reflexivity.
Qed.

Lemma load_trials_eq self w : _load_trials self w = (fst (_load_trials self w), w).
Proof. rewrite <- (load_trials_world self w) at 3. apply surjective_pairing. Qed.

(** The trials table read back from a token made under the manager's key. *)
Lemma load_trials_token self w key32 iv (t : gmap string json) :
  fernet_key (secret_key self) = Ok key32 ->
  files w !! trials_file self = Some (Token key32 iv (JDict t)) ->
  t <> ∅ ->
  _load_trials self w = (Ok (JDict t), w).
Proof.
  intros Hk Hf Hne.
  unfold _load_trials, bind, path_exists, try_except, read_file.
  rewrite Hf. simpl. rewrite Hf. simpl.
  unfold _decrypt_data. rewrite Hk. simpl. rewrite String.eqb_refl. simpl.
  rewrite bool_decide_eq_false_2 by assumption. reflexivity.
Qed.

Lemma set_user_trial_info_spec self uid (info trials : gmap string json) w key32 :
  fernet_key (secret_key self) = Ok key32 ->
  fst (_load_trials self w) = Ok (JDict trials) ->
  (trials !! uid = None \/ exists e, trials !! uid = Some (JDict e)) ->
  let info' := merged_info trials info uid in
  _set_user_trial_info self uid (JDict info) w
  = (Ok (JDict info'),
     World (<[trials_file self :=
                Token key32 (draws w) (JDict (<[uid := JDict info']> trials))]>
              (files w))
           (clock w) (ticks w) (S (draws w))).
Proof.
  intros Hk Hload Hentry info'. subst info'.
  unfold _set_user_trial_info, bind. rewrite load_trials_eq, Hload.
  unfold merged_info. simpl.
  destruct Hentry as [Hnone | [e Hsome]].
  - rewrite Hnone. rewrite bool_decide_eq_false_2 by (intros [? ?]; congruence).
    simpl. unfold _save_trials, _encrypt_data, bind, lift. rewrite Hk. reflexivity.
  - rewrite Hsome. rewrite bool_decide_eq_true_2 by eauto. simpl.
    destruct (e !! "first_install_date") as [v | ] eqn:Hv.
    + rewrite bool_decide_eq_true_2 by eauto. simpl.
      unfold _save_trials, _encrypt_data, bind, lift. rewrite Hk. reflexivity.
    + rewrite bool_decide_eq_false_2 by (intros [? ?]; congruence). simpl.
      unfold _save_trials, _encrypt_data, bind, lift. rewrite Hk. reflexivity.
Qed.

Lemma merged_info_date trials info uid d :
  info !! "first_install_date" = Some d ->
  merged_info trials info uid !! "first_install_date"
  = Some (default d (stored_date trials uid)).
Proof.
  intros Hd. unfold merged_info, stored_date.
  destruct (trials !! uid) as [[ | | | | | e] | ]; simpl; auto.
  destruct (e !! "first_install_date"); simpl; auto.
  apply lookup_insert_eq.
Qed.

(** C6.  From a readable trials table in which the user has no entry or
    a record, two calls of [_set_user_trial_info] for the user, with the
    dates [d1] and then [d2], both succeed, and after each of them the
    persisted record of the user holds one and the same date [v]: the
    date the table held for the user before, and [d1] when it held none.
    An update of an existing entry therefore keeps its date, and the
    caller's dict is rewritten to it. *)
Theorem first_install_date_immutable :
  forall (self : LicenseManager) (uid : string) (i1 i2 trials : gmap string json)
         (d1 d2 : json) (w : world) (key32 : string),
    fernet_key (secret_key self) = Ok key32 ->
    fst (_load_trials self w) = Ok (JDict trials) ->
    (trials !! uid = None \/ exists e, trials !! uid = Some (JDict e)) ->
    i1 !! "first_install_date" = Some d1 ->
    i2 !! "first_install_date" = Some d2 ->
    exists r1 w1 r2 w2 rec1 rec2,
      let v := default d1 (stored_date trials uid) in
      _set_user_trial_info self uid (JDict i1) w = (Ok r1, w1) /\
      _set_user_trial_info self uid (JDict i2) w1 = (Ok r2, w2) /\
      fst (_get_user_trial_info self uid w1) = Ok (JDict rec1) /\
      rec1 !! "first_install_date" = Some v /\
      fst (_get_user_trial_info self uid w2) = Ok (JDict rec2) /\
      rec2 !! "first_install_date" = Some v /\
      r2 = JDict rec2 /\
      (trials !! uid = None -> v = d1).
Proof.
  intros self uid i1 i2 trials d1 d2 w key32 Hk Hload Hentry Hd1 Hd2.
  pose proof (set_user_trial_info_spec self uid i1 trials w key32 Hk Hload Hentry)
    as Hset1. cbv zeta in Hset1.
  set (m1 := merged_info trials i1 uid) in *.
  set (t1 := <[uid := JDict m1]> trials) in *.
  set (w1 := World (<[trials_file self := Token key32 (draws w) (JDict t1)]> (files w))
                   (clock w) (ticks w) (S (draws w))) in *.
  assert (Hload1 : _load_trials self w1 = (Ok (JDict t1), w1)).
  { apply (load_trials_token self w1 key32 (draws w)); auto.
    - apply lookup_insert_eq.
    - apply insert_non_empty. }
  assert (Hentry1 : t1 !! uid = None \/ exists e, t1 !! uid = Some (JDict e)).
  { right. exists m1. apply lookup_insert_eq. }
  pose proof (set_user_trial_info_spec self uid i2 t1 w1 key32 Hk
                ltac:(rewrite Hload1; reflexivity) Hentry1) as Hset2.
  cbv zeta in Hset2.
  set (m2 := merged_info t1 i2 uid) in *.
  set (t2 := <[uid := JDict m2]> t1) in *.
  set (w2 := World (<[trials_file self := Token key32 (draws w1) (JDict t2)]> (files w1))
                   (clock w1) (ticks w1) (S (draws w1))) in *.
  assert (Hload2 : _load_trials self w2 = (Ok (JDict t2), w2)).
  { apply (load_trials_token self w2 key32 (draws w1)); auto.
    - apply lookup_insert_eq.
    - apply insert_non_empty. }
  assert (Hm1 : m1 !! "first_install_date" = Some (default d1 (stored_date trials uid))).
  { apply merged_info_date. exact Hd1. }
  assert (Hm2 : m2 !! "first_install_date" = Some (default d1 (stored_date trials uid))).
  { subst m2. unfold merged_info. subst t1. rewrite lookup_insert_eq. rewrite Hm1.
    apply lookup_insert_eq. }
  exists (JDict m1), w1, (JDict m2), w2, m1, m2. cbv zeta.
  repeat split; auto.
  - unfold _get_user_trial_info, bind. rewrite Hload1. simpl.
    subst t1. rewrite lookup_insert_eq. reflexivity.
  - unfold _get_user_trial_info, bind. rewrite Hload2. simpl.
    subst t2. rewrite lookup_insert_eq. reflexivity.
  - intros Hnone. unfold stored_date. rewrite Hnone. reflexivity.
Qed.

(** ** [validate_license_key]: the shape of a run *)

(** The run on a key that decodes to nine fields. *)
Lemma validate_body_nine self K w text p c mc s e d lt st sig :
  decoded_text K = Ok text ->
  split_on "|" text = [p; c; mc; s; e; d; lt; st; sig] ->
  validate_body self K w
  = (if negb (String.eqb p (product_id self)) then ret (false, JStr "Invalid product ID")
     else if negb (String.eqb mc (machine_id self)) then
       ret (false, JStr "License key not valid for this machine")
     else bind (lift (check_signature self st sig (data_string_of p c mc s e d lt st)))
            (fun verdict =>
               match verdict with
               | Some reason => ret (false, JStr reason)
               | None => validate_fields p c mc s e d lt st
               end)) w.
Proof.
  intros Hd Hs. unfold validate_body, bind, lift. rewrite Hd. simpl. rewrite Hs.
  reflexivity.
Qed.

(** The run on a key that passes the product, machine and signature checks. *)
Lemma validate_signed self K w text p c mc s e d lt st sig :
  decoded_text K = Ok text ->
  split_on "|" text = [p; c; mc; s; e; d; lt; st; sig] ->
  p = product_id self -> mc = machine_id self ->
  check_signature self st sig (data_string_of p c mc s e d lt st) = Ok None ->
  validate_license_key self K w
  = try_except (validate_fields p c mc s e d lt st)
      (fun e => ret (false, JStr ("License validation error: " +:+ exn_str e))) w.
Proof.
  intros Hd Hs Hp Hm Hsig. unfold validate_license_key, try_except.
  rewrite (validate_body_nine self K w text p c mc s e d lt st sig Hd Hs).
  subst p mc. rewrite !String.eqb_refl. simpl. unfold bind, lift. rewrite Hsig.
  reflexivity.
Qed.

(** The steps after the signature check, under the handler. *)
Lemma validate_fields_run p c mc s e d lt st w t_end :
  Parse.strptime e = Ok t_end ->
  try_except (validate_fields p c mc s e d lt st)
    (fun e => ret (false, JStr ("License validation error: " +:+ exn_str e))) w
  = if t_end <? clock w (ticks w)
    then (Ok (false, JStr "License key has expired"), tick w)
    else match int_of_str d with
         | Ok n =>
             (Ok (true, JDict (validated_record p c mc s e n lt st
                                 (clock w (S (ticks w))))),
              tick (tick w))
         | Raise e0 => (Ok (false, validation_error e0), tick w)
         end.
Proof.
  intros He. unfold try_except, validate_fields, bind, lift, now. rewrite He. simpl.
  destruct (t_end <? clock w (ticks w)); [ reflexivity | ].
  destruct (int_of_str d); reflexivity.
Qed.

Lemma validation_error_not_expired e :
  validation_error e <> JStr "License key has expired".
Proof. unfold validation_error. intros H. injection H as H. discriminate H. Qed.

(** ** C8: the expiry comparison *)

(** C8.  For a key that passes the checks before the expiry test and
    whose [end_date] field reads as the instant [t_end]: the key is
    reported expired exactly when [t_end] is before the clock reading [t]
    the comparison takes.  One second before [t] it is expired; one
    second after [t], and at [t] itself, it is not, and the method
    returns the record when the [days] field is an integer. *)
Theorem expiry_boundary :
  forall (self : LicenseManager) (K : string) (w : world)
         (text p c mc s e d lt st sig : string) (t_end : Z),
    decoded_text K = Ok text ->
    split_on "|" text = [p; c; mc; s; e; d; lt; st; sig] ->
    p = product_id self -> mc = machine_id self ->
    check_signature self st sig (data_string_of p c mc s e d lt st) = Ok None ->
    Parse.strptime e = Ok t_end ->
    let t := clock w (ticks w) in
    let expired := Ok (false, JStr "License key has expired") in
    (fst (validate_license_key self K w) = expired <-> t_end < t) /\
    (t_end = t - Datetime.us_per_second -> fst (validate_license_key self K w) = expired) /\
    (t_end = t + Datetime.us_per_second \/ t_end = t ->
       fst (validate_license_key self K w) <> expired /\
       forall n, int_of_str d = Ok n ->
         fst (validate_license_key self K w)
         = Ok (true, JDict (validated_record p c mc s e n lt st (clock w (S (ticks w)))))).
Proof.
  intros self K w text p c mc s e d lt st sig t_end Hd Hs Hp Hm Hsig He t expired.
  rewrite (validate_signed self K w text p c mc s e d lt st sig Hd Hs Hp Hm Hsig).
  rewrite (validate_fields_run p c mc s e d lt st w t_end He). fold t.
  unfold Datetime.us_per_second.
  destruct (Z.ltb_spec t_end t) as [Hlt | Hge]; simpl.
  - repeat split; auto; intros; lia.
  - assert (Hne : fst (match int_of_str d with
                       | Ok n =>
                           (Ok (true, JDict (validated_record p c mc s e n lt st
                                               (clock w (S (ticks w))))),
                            tick (tick w))
                       | Raise e0 => (Ok (false, validation_error e0), tick w)
                       end) <> expired).
    { destruct (int_of_str d) as [n | e0]; simpl; unfold expired; intros H.
      - discriminate H.
      - apply (validation_error_not_expired e0). congruence. }
    repeat split.
    + intros H. contradiction.
    + intros H. lia.
    + intros H. lia.
    + exact Hne.
    + intros n Hn. rewrite Hn. reflexivity.
Qed.

(** ** C9: [validate_license_key] returns, whatever the key *)

Lemma decoded_text_base64 K e :
  Base64.urlsafe_b64decode K = Raise e -> decoded_text K = Raise e.
Proof. intros H. unfold decoded_text. rewrite H. reflexivity. Qed.

Lemma decoded_text_utf8 K raw e :
  Base64.urlsafe_b64decode K = Ok raw -> Utf8.decode raw = Raise e ->
  decoded_text K = Raise e.
Proof. intros H1 H2. unfold decoded_text. rewrite H1. exact H2. Qed.

Lemma validate_body_undecodable self K w e :
  decoded_text K = Raise e -> validate_body self K w = (Raise e, w).
Proof. intros H. unfold validate_body, bind, lift. rewrite H. reflexivity. Qed.

Lemma validate_body_format self K w text :
  decoded_text K = Ok text -> length (split_on "|" text) <> 9%nat ->
  validate_body self K w = (Ok (false, JStr "Invalid license key format"), w).
Proof.
  intros Hd Hn. unfold validate_body, bind, lift. rewrite Hd. simpl.
  destruct (split_on "|" text) as [ | p [ | c [ | mc [ | s [ | e [ | d [ | lt [ | st
            [ | sig [ | x l]]]]]]]]]]; try reflexivity.
  simpl in Hn. congruence.
Qed.

(** C9, as the code has it.  [validate_license_key] never raises: every
    run returns a pair.  A key that decodes to a text of fewer or more
    than nine fields gives [(False, "Invalid license key format")].  An
    exception that leaves the body (a failed base64 or UTF-8 decoding, an
    unreadable date, a [days] field that is no integer) is returned as
    [(False, "License validation error: <message>")].  An exception
    raised while an RSA signature is decoded or verified is caught by
    the inner handler and returned as
    [(False, "Invalid RSA signature: <message>")]. *)
Theorem validate_never_raises :
  forall (self : LicenseManager) (K : string) (w : world),
    (exists ok reason w', validate_license_key self K w = (Ok (ok, reason), w')) /\
    (forall text,
        decoded_text K = Ok text -> length (split_on "|" text) <> 9%nat ->
        validate_license_key self K w
        = (Ok (false, JStr "Invalid license key format"), w)) /\
    (forall e,
        Base64.urlsafe_b64decode K = Raise e ->
        validate_license_key self K w = (Ok (false, validation_error e), w)) /\
    (forall e w',
        validate_body self K w = (Raise e, w') ->
        validate_license_key self K w = (Ok (false, validation_error e), w')) /\
    (forall text p c mc s e d lt sig verify,
        decoded_text K = Ok text ->
        split_on "|" text = [p; c; mc; s; e; d; lt; "rsa"; sig] ->
        p = product_id self -> mc = machine_id self ->
        rsa_public_key self = Some (RSAPublicKey verify) ->
        (forall err, Base64.urlsafe_b64decode sig = Raise err ->
           validate_license_key self K w
           = (Ok (false, JStr ("Invalid RSA signature: " +:+ exn_str err)), w)) /\
        (forall raw, Base64.urlsafe_b64decode sig = Ok raw ->
           verify raw (data_string_of p c mc s e d lt "rsa") = false ->
           validate_license_key self K w
           = (Ok (false, JStr "Invalid RSA signature: "), w))).
Proof.
  intros self K w. repeat split.
  - unfold validate_license_key, try_except.
    destruct (validate_body self K w) as [[[ok reason] | e] w']; simpl; eauto.
  - intros text Hd Hn. unfold validate_license_key, try_except.
    rewrite (validate_body_format self K w text Hd Hn). reflexivity.
  - intros e He. unfold validate_license_key, try_except.
    rewrite (validate_body_undecodable self K w e (decoded_text_base64 K e He)).
    reflexivity.
  - intros e w' Hb. unfold validate_license_key, try_except. rewrite Hb. reflexivity.
  - intros err Herr. unfold validate_license_key, try_except.
    rewrite (validate_body_nine self K w text p c mc s e d lt "rsa" sig H H0).
    subst p mc. rewrite !String.eqb_refl. simpl.
    unfold bind, lift, check_signature. simpl. rewrite H3, Herr. reflexivity.
  - intros raw Hraw Hv. unfold validate_license_key, try_except.
    rewrite (validate_body_nine self K w text p c mc s e d lt "rsa" sig H H0).
    subst p mc. rewrite !String.eqb_refl. simpl.
    unfold bind, lift, check_signature. simpl. rewrite H3, Hraw. simpl. rewrite Hv.
    reflexivity.
Qed.

(** ** C4: RSA signing without an RSA private key *)

(** C4, as the code has it.  With [sigtype] ["rsa"] and no private key
    loaded, [generate_license_key] raises [ValueError]; with a loaded key
    that is not an RSA private key it raises [TypeError].  Either way an
    exception reaches the caller, and it is no [CryptographicError], no
    [ConfigurationError] and no [LicenseError] at all: the manager raises
    builtin exceptions only.  (A duration that takes the end date out of
    the range of [datetime] raises [OverflowError] before the key is
    looked at.) *)
Theorem rsa_misconfiguration_raises :
  forall (self : LicenseManager) (customer : string) (days : pynum)
         (license_type : string) (w : world),
    (forall sign, rsa_private_key self <> Some (RSAPrivateKey sign)) ->
    (exists e w',
        generate_license_key self customer days license_type "rsa" w = (Raise e, w') /\
        isinstance e LicenseError = false /\
        isinstance e CryptographicError = false /\
        isinstance e ConfigurationError = false) /\
    (forall delta t_end,
        Datetime.timedelta_days days = Ok delta ->
        Datetime.add (clock w (S (ticks w))) delta = Ok t_end ->
        generate_license_key self customer days license_type "rsa" w
        = (Raise (match rsa_private_key self with
                  | None => Exn ValueError "RSA private key not loaded for signing."
                  | Some _ => Exn TypeError "Loaded private key is not an RSA private key."
                  end),
           tick (tick (tick w)))).
Proof.
  intros self customer days lt w Hkey.
  assert (Hrun : forall delta t_end,
             Datetime.timedelta_days days = Ok delta ->
             Datetime.add (clock w (S (ticks w))) delta = Ok t_end ->
             generate_license_key self customer days lt "rsa" w
             = (Raise (match rsa_private_key self with
                       | None => Exn ValueError "RSA private key not loaded for signing."
                       | Some _ =>
                           Exn TypeError "Loaded private key is not an RSA private key."
                       end),
                tick (tick (tick w)))).
  { intros delta t_end Hd Ha.
    unfold generate_license_key, bind, lift, now. simpl.
    rewrite Hd. simpl. rewrite Ha. simpl.
    destruct (rsa_private_key self) as [[sign | verify | alg] | ] eqn:E; try reflexivity.
    exfalso. exact (Hkey sign eq_refl). }
  split; [ | exact Hrun ].
  destruct (Datetime.timedelta_days days) as [delta | e1] eqn:Hd.
  - destruct (Datetime.add (clock w (S (ticks w))) delta) as [t_end | e2] eqn:Ha.
    + rewrite (Hrun delta t_end eq_refl Ha).
      destruct (rsa_private_key self); eexists _, _; repeat split.
    + unfold generate_license_key, bind, lift, now. simpl.
      rewrite Hd. simpl. rewrite Ha. simpl.
      unfold Datetime.add in Ha.
      destruct (Datetime.valid_datetime _); inversion Ha; subst.
      eexists _, _; repeat split.
  - unfold generate_license_key, bind, lift, now. simpl. rewrite Hd. simpl.
    unfold Datetime.timedelta_days in Hd.
    destruct (Z.abs _ <=? 999999999); inversion Hd; subst.
    eexists _, _; repeat split.
Qed.

(** ** Splitting and joining on the field separator *)

Lemma split_on_nonempty sep s : split_on sep s <> [].
Proof.
  destruct s as [ | c r]; simpl; [ discriminate | ].
  destruct (Ascii.eqb c sep); [ discriminate | ].
  destruct (split_on sep r); discriminate.
Qed.

(** [sep.join(s.split(sep)) == s] *)
Lemma join_split_on sep s : join (String sep "") (split_on sep s) = s.
Proof.
  induction s as [ | c r IH]; [ reflexivity | ].
  simpl. destruct (Ascii.eqb_spec c sep) as [-> | Hne].
  - pose proof (split_on_nonempty sep r) as Hr.
    destruct (split_on sep r) as [ | p ps]; [ congruence | ].
    change (join (String sep "") ("" :: p :: ps))
      with ("" +:+ String sep "" +:+ join (String sep "") (p :: ps)).
    rewrite IH. reflexivity.
  - pose proof (split_on_nonempty sep r) as Hr.
    destruct (split_on sep r) as [ | p ps]; [ congruence | ].
    destruct ps as [ | q ps].
    + simpl in IH. simpl. congruence.
    + change (join (String sep "") (String c p :: q :: ps))
        with (String c p +:+ String sep "" +:+ join (String sep "") (q :: ps)).
      change (join (String sep "") (p :: q :: ps))
        with (p +:+ String sep "" +:+ join (String sep "") (q :: ps)) in IH.
      rewrite append_cons. rewrite IH. reflexivity.
Qed.

(** ** What a generated key encodes, and what an accepted key decodes to *)

(** The signature check passes for a key that is not of type ["rsa"]
    only on the HMAC-SHA256 hex digest of the data string. *)
Lemma check_signature_hmac self st sig data :
  st <> "rsa" ->
  check_signature self st sig data = Ok None ->
  sig = Hmac.hexdigest (secret_key self) data.
Proof.
  intros Hst H. unfold check_signature in H.
  destruct (String.eqb_spec st "rsa") as [E | _]; [ contradiction | ].
  unfold Hmac.compare_digest in H.
  destruct (Hmac.is_ascii sig && Hmac.is_ascii (Hmac.hexdigest (secret_key self) data));
    simpl in H; [ | discriminate H ].
  destruct (String.eqb_spec sig (Hmac.hexdigest (secret_key self) data)) as [E | _];
    [ exact E | discriminate H ].
Qed.

(** The signature check passes for a key of type ["rsa"] only if an RSA
    public key is loaded and verifies the decoded signature. *)
Lemma check_signature_rsa self sig data :
  check_signature self "rsa" sig data = Ok None ->
  exists verify raw,
    rsa_public_key self = Some (RSAPublicKey verify) /\
    Base64.urlsafe_b64decode sig = Ok raw /\ verify raw data = true.
Proof.
  unfold check_signature. simpl.
  destruct (rsa_public_key self) as [[sign | verify | alg] | ]; try discriminate.
  destruct (Base64.urlsafe_b64decode sig) as [raw | e]; simpl; [ | discriminate ].
  destruct (verify raw data) eqn:Hv; [ | discriminate ].
  intros _. eauto.
Qed.

(** A generated key is the encoding of the data string, a bar and the
    signature. *)
Lemma generate_inv self customer days lt st w K rec w1 :
  generate_license_key self customer days lt st w = (Ok (K, rec), w1) ->
  exists start_date end_date signature,
    let data := data_string_of (product_id self) customer (machine_id self)
                               start_date end_date (num_str days) lt st in
    K = Base64.urlsafe_b64encode (data +:+ "|" +:+ signature) /\
    start_date = Datetime.strftime (clock w (ticks w)) /\
    (st <> "rsa" -> signature = Hmac.hexdigest (secret_key self) data) /\
    (st = "rsa" -> exists sign salt,
        rsa_private_key self = Some (RSAPrivateKey sign) /\
        signature = Base64.urlsafe_b64encode (sign data salt)).
Proof.
  unfold generate_license_key, bind, lift, now. simpl.
  destruct (Datetime.timedelta_days days) as [delta | e]; simpl; [ | discriminate ].
  destruct (Datetime.add (clock w (S (ticks w))) delta) as [t_end | e]; simpl;
    [ | discriminate ].
  destruct (String.eqb_spec st "rsa") as [E | E].
  - destruct (rsa_private_key self) as [[sign | verify | alg] | ]; simpl;
      try discriminate.
    intros H. injection H as HK _ _. subst K.
    eexists _, _, _. cbv zeta. repeat split; eauto. contradiction.
  - simpl. intros H. injection H as HK _ _. subst K.
    eexists _, _, _. cbv zeta. repeat split; eauto. contradiction.
Qed.

(** An accepted key decodes to nine fields that carry the manager's
    product and machine, a signature that checks, a date not yet past
    and an integer number of days. *)
Lemma validate_accept_inv self K w r w' :
  validate_license_key self K w = (Ok (true, r), w') ->
  exists p c mc s e d lt st sig t_end n,
    decoded_text K = Ok (join "|" [p; c; mc; s; e; d; lt; st; sig]) /\
    split_on "|" (join "|" [p; c; mc; s; e; d; lt; st; sig])
    = [p; c; mc; s; e; d; lt; st; sig] /\
    p = product_id self /\ mc = machine_id self /\
    check_signature self st sig (data_string_of p c mc s e d lt st) = Ok None /\
    Parse.strptime e = Ok t_end /\ clock w (ticks w) <= t_end /\
    int_of_str d = Ok n /\
    r = JDict (validated_record p c mc s e n lt st (clock w (S (ticks w)))).
Proof.
  intros H.
  destruct (decoded_text K) as [text | e0] eqn:Hd.
  2:{ unfold validate_license_key, try_except in H.
      rewrite (validate_body_undecodable self K w e0 Hd) in H. discriminate H. }
  destruct (Nat.eq_dec (length (split_on "|" text)) 9%nat) as [Hn | Hn].
  2:{ unfold validate_license_key, try_except in H.
      rewrite (validate_body_format self K w text Hd Hn) in H. discriminate H. }
  destruct (split_on "|" text) as [ | p [ | c [ | mc [ | s [ | e [ | d [ | lt [ | st
            [ | sig [ | x l]]]]]]]]]] eqn:Hs; try discriminate Hn.
  assert (Htext : text = join "|" [p; c; mc; s; e; d; lt; st; sig]).
  { rewrite <- Hs. symmetry. apply (join_split_on "|"%char). }
  unfold validate_license_key in H.
  unfold try_except in H.
  rewrite (validate_body_nine self K w text p c mc s e d lt st sig Hd Hs) in H.
  destruct (String.eqb_spec p (product_id self)) as [Hp | Hp]; simpl in H;
    [ | discriminate H ].
  destruct (String.eqb_spec mc (machine_id self)) as [Hm | Hm]; simpl in H;
    [ | discriminate H ].
  unfold bind at 1, lift in H.
  destruct (check_signature self st sig (data_string_of p c mc s e d lt st))
    as [[reason | ] | e3] eqn:Hsig; [ discriminate H | | discriminate H ].
  change (try_except (validate_fields p c mc s e d lt st)
            (fun e => ret (false, JStr ("License validation error: " +:+ exn_str e))) w
          = (Ok (true, r), w')) in H.
  destruct (Parse.strptime e) as [t_end | e1] eqn:He.
  2:{ unfold try_except, validate_fields, bind, lift in H. rewrite He in H.
      discriminate H. }
  rewrite (validate_fields_run p c mc s e d lt st w t_end He) in H.
  destruct (Z.ltb_spec t_end (clock w (ticks w))) as [Hlt | Hge]; [ discriminate H | ].
  destruct (int_of_str d) as [n | e2] eqn:Hi; [ | discriminate H ].
  injection H as Hr _.
  exists p, c, mc, s, e, d, lt, st, sig, t_end, n.
  rewrite <- Htext. rewrite Hs. repeat split; auto.
Qed.

(** ** C2: what tampering with a key can achieve *)

(** C2, as the code has it.  Let [K] be a generated key; it encodes a
    data string, a bar and a signature.  Whatever string [K'] is
    validated in its place, [K'] is accepted only if it decodes to nine
    fields, the first eight of which, joined, are a data string [data']
    that the ninth signs: the HMAC-SHA256 hex digest of [data'] under the
    manager's key for a [sigtype] field other than ["rsa"], a signature
    the loaded RSA public key verifies for ["rsa"].  So an accepted [K']
    of HMAC type either carries other signed fields together with their
    own digest, or, when its signed fields are those of an HMAC key [K],
    decodes to the very text [K] encodes.  A change of the key string
    that does not change the decoded text is not detected. *)
Theorem tamper_detection :
  forall (self : LicenseManager) (customer : string) (days : pynum)
         (license_type sigtype : string) (w : world) (K : string) (rec : json)
         (w1 : world),
    generate_license_key self customer days license_type sigtype w = (Ok (K, rec), w1) ->
    exists data signature,
      K = Base64.urlsafe_b64encode (data +:+ "|" +:+ signature) /\
      forall K' w2 r w3,
        validate_license_key self K' w2 = (Ok (true, r), w3) ->
        exists p c mc s e d lt st sig,
          let data' := data_string_of p c mc s e d lt st in
          decoded_text K' = Ok (data' +:+ "|" +:+ sig) /\
          split_on "|" (data' +:+ "|" +:+ sig) = [p; c; mc; s; e; d; lt; st; sig] /\
          check_signature self st sig data' = Ok None /\
          (st <> "rsa" -> sig = Hmac.hexdigest (secret_key self) data') /\
          (st = "rsa" -> exists verify raw,
              rsa_public_key self = Some (RSAPublicKey verify) /\
              Base64.urlsafe_b64decode sig = Ok raw /\ verify raw data' = true) /\
          (sigtype <> "rsa" -> st <> "rsa" -> data' = data ->
             decoded_text K' = Ok (data +:+ "|" +:+ signature)).
Proof.
  intros self customer days lt sigtype w K rec w1 Hgen.
  destruct (generate_inv self customer days lt sigtype w K rec w1 Hgen)
    as (start_date & end_date & signature & HK & _ & Hhmac & _).
  cbv zeta in HK, Hhmac.
  eexists _, signature. split; [ exact HK | ].
  intros K' w2 r w3 Hacc.
  destruct (validate_accept_inv self K' w2 r w3 Hacc)
    as (p & c & mc & s & e & d & lt' & st & sig & t_end & n
        & Hd & Hs & Hp & Hm & Hsig & _).
  exists p, c, mc, s, e, d, lt', st, sig. cbv zeta.
  assert (Hjoin : join "|" [p; c; mc; s; e; d; lt'; st; sig]
                  = data_string_of p c mc s e d lt' st +:+ "|" +:+ sig).
  { unfold data_string_of. cbn [join].
    rewrite !append_assoc. reflexivity. }
  rewrite <- Hjoin. repeat split; auto.
  - intros Hst. apply (check_signature_hmac self st); assumption.
  - intros Hst. subst st. apply check_signature_rsa. exact Hsig.
  - intros Hst1 Hst2 Hdata. rewrite Hd. f_equal. rewrite Hjoin.
    rewrite (check_signature_hmac self st sig _ Hst2 Hsig).
    rewrite Hdata. rewrite (Hhmac Hst1). reflexivity.
Qed.

(* ===================================================================== *)
(** ** Checking a property on a range of integers *)
(* ===================================================================== *)

Lemma all_from_spec P fuel : forall z,
  all_from fuel z P = true ->
  forall x, z <= x < z + Z.of_nat fuel -> P x = true.
Proof.
  induction fuel as [ | k IH]; intros z H x Hx; [ lia | ].
  cbn [all_from] in H. apply andb_true_iff in H as [Hz Hrest].
  destruct (Z.eq_dec x z) as [-> | Hne]; [ exact Hz | ].
  apply (IH (z + 1) Hrest). lia.
Qed.

Lemma all_byte_pairs (P : Z -> Z -> bool) :
  all_from 256 0 (fun a => all_from 256 0 (P a)) = true ->
  forall a b, 0 <= a < 256 -> 0 <= b < 256 -> P a b = true.
Proof.
  intros H a b Ha Hb.
  apply (all_from_spec (P a) 256 0); [ | lia ].
  apply (all_from_spec (fun a => all_from 256 0 (P a)) 256 0 H). lia.
Qed.

(* ===================================================================== *)
(** ** Base64: decoding undoes encoding *)
(* ===================================================================== *)

Lemma byte_val_range c : 0 <= byte_val c < 256.
Proof. unfold byte_val. pose proof (N_ascii_bounded c). lia. Qed.

Lemma byte_chr_val c : byte_chr (byte_val c) = c.
Proof.
  unfold byte_chr. rewrite Z.mod_small by apply byte_val_range.
  unfold byte_val. rewrite N2Z.id. apply ascii_N_embedding.
Qed.

Lemma byte_val_chr z : 0 <= z < 256 -> byte_val (byte_chr z) = z.
Proof.
  intros Hz. unfold byte_val, byte_chr. rewrite Z.mod_small by exact Hz.
  rewrite N_ascii_embedding by lia. lia.
Qed.

Lemma string_of_bytes_of s : string_of_bytes (bytes_of s) = s.
Proof.
  unfold string_of_bytes, bytes_of. rewrite map_map.
  rewrite (map_ext _ (fun c => c)) by apply byte_chr_val.
  rewrite map_id. apply string_of_list_ascii_of_string.
Qed.

Lemma bytes_of_range s : Forall (fun z => 0 <= z < 256) (bytes_of s).
Proof.
  unfold bytes_of. induction (list_ascii_of_string s) as [ | c l IH]; simpl.
  - constructor.
  - constructor; [ apply byte_val_range | exact IH ].
Qed.

(** A six-bit value comes back from its character, which is not the
    padding character. *)
Lemma dec_enc v :
  0 <= v < 64 ->
  Base64.dec (Base64.enc v) = Some v /\
  Ascii.eqb (Base64.enc v) Base64.pad_char = false.
Proof.
  intros Hv.
  assert (H : (match Base64.dec (Base64.enc v) with
               | Some u => u =? v
               | None => false
               end) && negb (Ascii.eqb (Base64.enc v) Base64.pad_char) = true).
  { apply (all_from_spec (fun v =>
      (match Base64.dec (Base64.enc v) with
       | Some u => u =? v
       | None => false
       end) && negb (Ascii.eqb (Base64.enc v) Base64.pad_char)) 64 0);
      [ vm_compute; reflexivity | lia ]. }
  apply andb_true_iff in H as [H1 H2].
  destruct (Base64.dec (Base64.enc v)) as [u | ]; [ | discriminate ].
  apply Z.eqb_eq in H1. subst u. split; [ reflexivity | ].
  now apply negb_true_iff.
Qed.

Lemma sextets_ab a b :
  0 <= a < 256 -> 0 <= b < 256 ->
  (0 <= sextet1 a < 64) /\ (0 <= sextet2 a b < 64) /\
  (0 <= Z.shiftl (Z.land a 3) 4 < 64) /\
  Z.lor (Z.shiftl (sextet1 a) 2) (Z.shiftr (sextet2 a b) 4) = a /\
  Z.lor (Z.shiftl (sextet1 a) 2) (Z.shiftr (Z.shiftl (Z.land a 3) 4) 4) = a /\
  Z.land (sextet2 a b) 15 = Z.shiftr b 4.
Proof.
  intros Ha Hb.
  pose (P := fun a b =>
    (0 <=? sextet1 a) && (sextet1 a <? 64) && (0 <=? sextet2 a b) && (sextet2 a b <? 64)
    && (0 <=? Z.shiftl (Z.land a 3) 4) && (Z.shiftl (Z.land a 3) 4 <? 64)
    && (Z.lor (Z.shiftl (sextet1 a) 2) (Z.shiftr (sextet2 a b) 4) =? a)
    && (Z.lor (Z.shiftl (sextet1 a) 2) (Z.shiftr (Z.shiftl (Z.land a 3) 4) 4) =? a)
    && (Z.land (sextet2 a b) 15 =? Z.shiftr b 4)).
  assert (H : P a b = true).
  { apply all_byte_pairs; [ vm_compute; reflexivity | exact Ha | exact Hb ]. }
  unfold P in H. rewrite !andb_true_iff in H.
  destruct H as ((((((((H1 & H2) & H3) & H4) & H5) & H6) & H7) & H8) & H9).
  repeat split; lia.
Qed.

Lemma sextets_bc b c :
  0 <= b < 256 -> 0 <= c < 256 ->
  (0 <= sextet3 b c < 64) /\ (0 <= sextet4 c < 64) /\
  (0 <= Z.shiftl (Z.land b 15) 2 < 64) /\
  Z.lor (Z.shiftl (Z.shiftr b 4) 4) (Z.shiftr (sextet3 b c) 2) = b /\
  Z.lor (Z.shiftl (Z.shiftr b 4) 4) (Z.shiftr (Z.shiftl (Z.land b 15) 2) 2) = b /\
  Z.lor (Z.shiftl (Z.land (sextet3 b c) 3) 6) (sextet4 c) = c.
Proof.
  intros Hb Hc.
  pose (P := fun b c =>
    (0 <=? sextet3 b c) && (sextet3 b c <? 64) && (0 <=? sextet4 c) && (sextet4 c <? 64)
    && (0 <=? Z.shiftl (Z.land b 15) 2) && (Z.shiftl (Z.land b 15) 2 <? 64)
    && (Z.lor (Z.shiftl (Z.shiftr b 4) 4) (Z.shiftr (sextet3 b c) 2) =? b)
    && (Z.lor (Z.shiftl (Z.shiftr b 4) 4) (Z.shiftr (Z.shiftl (Z.land b 15) 2) 2) =? b)
    && (Z.lor (Z.shiftl (Z.land (sextet3 b c) 3) 6) (sextet4 c) =? c)).
  assert (H : P b c = true).
  { apply all_byte_pairs; [ vm_compute; reflexivity | exact Hb | exact Hc ]. }
  unfold P in H. rewrite !andb_true_iff in H.
  destruct H as ((((((((H1 & H2) & H3) & H4) & H5) & H6) & H7) & H8) & H9).
  repeat split; lia.
Qed.

(** One data character, read in each of the four positions. *)
Lemma a2b_data v rest quad left pads out :
  0 <= v < 64 ->
  Base64.a2b (Base64.enc v :: rest) quad left pads out
  = if quad =? 0 then Base64.a2b rest 1 v 0 out
    else if quad =? 1 then
      Base64.a2b rest 2 (Z.land v 15) 0 (Z.lor (Z.shiftl left 2) (Z.shiftr v 4) :: out)
    else if quad =? 2 then
      Base64.a2b rest 3 (Z.land v 3) 0 (Z.lor (Z.shiftl left 4) (Z.shiftr v 2) :: out)
    else Base64.a2b rest 0 0 0 (Z.lor (Z.shiftl left 6) v :: out).
Proof.
  intros Hv. destruct (dec_enc v Hv) as [Hd Hp].
  cbn [Base64.a2b]. rewrite Hp, Hd. reflexivity.
Qed.

(** The decoder loop on the encoding of a list of bytes. *)
Lemma a2b_encode_bytes n : forall l out,
  (length l <= n)%nat -> Forall (fun z => 0 <= z < 256) l ->
  Base64.a2b (Base64.encode_bytes l) 0 0 0 out = Ok (rev out ++ l)%list.
Proof.
  induction n as [ | n IH]; intros l out Hn Hl.
  - destruct l; [ | simpl in Hn; lia ]. simpl. now rewrite app_nil_r.
  - destruct l as [ | a [ | b [ | c l]]].
    + simpl. now rewrite app_nil_r.
    + (* one byte: two characters and two padding characters *)
      inversion Hl as [ | ? ? Ha _]; subst.
      destruct (sextets_ab a 0 Ha ltac:(lia)) as (H1 & _ & H3 & _ & H5 & _).
      cbn [Base64.encode_bytes]. fold (sextet1 a).
      rewrite a2b_data by exact H1. cbn [Z.eqb Pos.eqb].
      rewrite a2b_data by exact H3. cbn [Z.eqb Pos.eqb].
      fold (sextet1 a). rewrite H5.
      cbn. rewrite <- ?app_assoc. reflexivity.
    + (* two bytes: three characters and one padding character *)
      inversion Hl as [ | ? ? Ha Hl']; subst. inversion Hl' as [ | ? ? Hb _]; subst.
      destruct (sextets_ab a b Ha Hb) as (H1 & H2 & _ & H4 & _ & H6).
      destruct (sextets_bc b 0 Hb ltac:(lia)) as (_ & _ & H3 & _ & H5 & _).
      cbn [Base64.encode_bytes]. fold (sextet1 a). fold (sextet2 a b).
      rewrite a2b_data by exact H1. cbn [Z.eqb Pos.eqb].
      rewrite a2b_data by exact H2. cbn [Z.eqb Pos.eqb]. rewrite H4, H6.
      rewrite a2b_data by exact H3. cbn [Z.eqb Pos.eqb]. rewrite H5.
      cbn. rewrite <- ?app_assoc. reflexivity.
    + inversion Hl as [ | ? ? Ha Hl']; subst. inversion Hl' as [ | ? ? Hb Hl'']; subst.
      inversion Hl'' as [ | ? ? Hc Hrest]; subst.
      destruct (sextets_ab a b Ha Hb) as (H1 & H2 & _ & H4 & _ & H6).
      destruct (sextets_bc b c Hb Hc) as (H3 & H7 & _ & H5 & _ & H8).
      cbn [Base64.encode_bytes].
      fold (sextet1 a). fold (sextet2 a b). fold (sextet3 b c). fold (sextet4 c).
      rewrite a2b_data by exact H1. cbn [Z.eqb Pos.eqb].
      rewrite a2b_data by exact H2. cbn [Z.eqb Pos.eqb]. rewrite H4, H6.
      rewrite a2b_data by exact H3. cbn [Z.eqb Pos.eqb]. rewrite H5.
      rewrite a2b_data by exact H7. cbn [Z.eqb Pos.eqb]. rewrite H8.
      rewrite IH by (auto; simpl in Hn; lia).
      cbn [rev]. rewrite <- ?app_assoc. reflexivity.
Qed.

(** [urlsafe_b64decode(urlsafe_b64encode(data)) == data] *)
Theorem base64_roundtrip :
  forall data : string,
    Base64.urlsafe_b64decode (Base64.urlsafe_b64encode data) = Ok data.
Proof.
  intros data. unfold Base64.urlsafe_b64decode, Base64.urlsafe_b64encode.
  rewrite list_ascii_of_string_of_list_ascii.
  rewrite (a2b_encode_bytes (length (bytes_of data)))
    by (auto using bytes_of_range).
  simpl. now rewrite string_of_bytes_of.
Qed.

(* ===================================================================== *)
(** ** Splitting a joined text *)
(* ===================================================================== *)

Lemma split_on_length sep s : length (split_on sep s) = S (bars sep s).
Proof.
  induction s as [ | c r IH]; [ reflexivity | ].
  simpl. destruct (Ascii.eqb c sep); simpl; [ now rewrite IH | ].
  destruct (split_on sep r) as [ | p ps]; simpl in *; lia.
Qed.

Lemma bars_append sep a b : bars sep (a +:+ b) = (bars sep a + bars sep b)%nat.
Proof.
  induction a as [ | c r IH]; [ reflexivity | ].
  rewrite append_cons. simpl. rewrite IH. lia.
Qed.

Lemma split_on_free sep a : bars sep a = 0%nat -> split_on sep a = [a].
Proof.
  induction a as [ | c r IH]; [ reflexivity | ].
  simpl. destruct (Ascii.eqb c sep); [ discriminate | ].
  intros H. rewrite (IH H). reflexivity.
Qed.

Lemma split_on_append sep a b :
  bars sep a = 0%nat -> split_on sep (a +:+ String sep b) = a :: split_on sep b.
Proof.
  induction a as [ | c r IH].
  - intros _. rewrite append_nil_l. simpl. now rewrite Ascii.eqb_refl.
  - rewrite append_cons. simpl. destruct (Ascii.eqb c sep); [ discriminate | ].
    intros H. rewrite (IH H). reflexivity.
Qed.

(** [sep.join(fields).split(sep) == fields] exactly when the split has as
    many pieces as there are fields, that is when no field holds a
    separator. *)
Lemma split_on_join sep (l : list string) :
  l <> [] ->
  length (split_on sep (join (String sep "") l)) = length l ->
  split_on sep (join (String sep "") l) = l.
Proof.
  induction l as [ | a l IH]; [ congruence | intros _ ].
  destruct l as [ | b l].
  - simpl. rewrite split_on_length. intros H. apply split_on_free. lia.
  - change (join (String sep "") (a :: b :: l))
      with (a +:+ String sep "" +:+ join (String sep "") (b :: l)).
    rewrite append_cons, append_nil_l.
    intros H. rewrite split_on_length, bars_append in H. cbn [bars length] in H.
    rewrite Ascii.eqb_refl in H.
    pose proof (split_on_length sep (join (String sep "") (b :: l))) as Hl.
    assert (Hb : forall m : list string, m <> [] ->
              (length m <= S (bars sep (join (String sep "") m)))%nat).
    { clear. induction m as [ | x m IHm]; [ congruence | intros _ ].
      destruct m as [ | y m]; [ simpl; lia | ].
      change (join (String sep "") (x :: y :: m))
        with (x +:+ String sep "" +:+ join (String sep "") (y :: m)).
      rewrite append_cons, append_nil_l, bars_append. cbn [bars].
      rewrite Ascii.eqb_refl.
      specialize (IHm ltac:(discriminate)). cbn [length] in *. lia. }
    specialize (Hb (b :: l) ltac:(discriminate)). cbn [length] in *.
    assert (Ha : bars sep a = 0%nat) by lia.
    rewrite (split_on_append sep a _ Ha). f_equal.
    apply IH; [ discriminate | ]. rewrite Hl. cbn [length]. lia.
Qed.

(* ===================================================================== *)
(** ** [int()] on a text with a dot *)
(* ===================================================================== *)

Lemma list_ascii_append a b :
  list_ascii_of_string (a +:+ b)
  = (list_ascii_of_string a ++ list_ascii_of_string b)%list.
Proof.
  induction a as [ | c r IH]; [ reflexivity | ].
  rewrite append_cons. simpl. now rewrite IH.
Qed.

Lemma int_digits_dot s :
  In "."%char s -> forall acc n p, int_digits s acc n p = None.
Proof.
  induction s as [ | c r IH]; [ intros [] | ].
  intros [-> | Hin] acc n p.
  - reflexivity.
  - simpl. destruct (is_digit c); [ now apply IH | ].
    destruct (Ascii.eqb c "_" && p); [ now apply IH | reflexivity ].
Qed.

Lemma lstrip_dot l : In "."%char l -> In "."%char (lstrip l).
Proof.
  induction l as [ | c r IH]; [ intros [] | ].
  intros H. simpl. destruct (is_space c) eqn:Hc; [ | exact H ].
  destruct H as [-> | H]; [ discriminate Hc | now apply IH ].
Qed.

Lemma strip_dot l : In "."%char l -> In "."%char (strip l).
Proof.
  intros H. unfold strip. apply in_rev. rewrite rev_involutive.
  apply lstrip_dot. apply -> in_rev. now apply lstrip_dot.
Qed.

(** [int(s)] raises [ValueError] on every text that holds a dot. *)
Lemma int_of_str_dot s :
  In "."%char (list_ascii_of_string s) ->
  int_of_str s
  = Raise (Exn ValueError ("invalid literal for int() with base 10: " +:+ py_repr s)).
Proof.
  intros H. apply strip_dot in H. unfold int_of_str.
  destruct (strip (list_ascii_of_string s)) as [ | c r]; [ destruct H | ].
  destruct (Ascii.eqb_spec c "-") as [-> | _].
  { destruct H as [H | H]; [ discriminate H | ]. now rewrite (int_digits_dot r H). }
  destruct (Ascii.eqb_spec c "+") as [-> | _].
  { destruct H as [H | H]; [ discriminate H | ]. now rewrite (int_digits_dot r H). }
  now rewrite (int_digits_dot (c :: r) H).
Qed.

(** The text of a float always holds a dot, so [int()] does not read it. *)
Lemma int_of_repr_float q :
  int_of_str (repr_float q)
  = Raise (Exn ValueError
             ("invalid literal for int() with base 10: " +:+ py_repr (repr_float q))).
Proof.
  apply int_of_str_dot. unfold repr_float.
  rewrite !list_ascii_append. rewrite !in_app_iff.
  right. right. left. simpl. left. reflexivity.
Qed.

Lemma utf8_decode_same s t : Utf8.decode s = Ok t -> t = s.
Proof.
  unfold Utf8.decode.
  destruct (Utf8.scan _ _ _ _); simpl; [ | discriminate ]. congruence.
Qed.

(** A rejection carries a text. *)
Lemma validate_rejects_with_text self K w reason w' :
  validate_license_key self K w = (Ok (false, reason), w') ->
  exists msg, reason = JStr msg.
Proof.
  unfold validate_license_key, try_except.
  destruct (validate_body self K w) as [[[ok r] | e] w0] eqn:Hb.
  2:{ simpl. intros H. injection H as <- _. eauto. }
  intros H. injection H as -> -> ->.
  unfold validate_body, bind, lift in Hb.
  destruct (decoded_text K) as [text | e]; [ | discriminate Hb ].
  simpl in Hb.
  destruct (split_on "|" text) as [ | p [ | c [ | mc [ | s [ | e [ | d [ | lt [ | st
            [ | sig [ | x l]]]]]]]]]];
    try (injection Hb as <- _; eauto; fail).
  destruct (negb (String.eqb p (product_id self)));
    [ injection Hb as <- _; eauto | ].
  destruct (negb (String.eqb mc (machine_id self)));
    [ injection Hb as <- _; eauto | ].
  destruct (check_signature self st sig _) as [[why | ] | e0];
    [ injection Hb as <- _; eauto | | discriminate Hb ].
  unfold validate_fields, bind, lift, now in Hb.
  destruct (Parse.strptime e) as [t_end | e1]; [ | discriminate Hb ].
  simpl in Hb.
  destruct (t_end <? clock w (ticks w)); [ injection Hb as <- _; eauto | ].
  destruct (int_of_str d) as [n | e2]; discriminate Hb.
Qed.

(** ** A key for a float duration *)

(** X2.  A key that [generate_license_key] returns for a float number of
    days is never accepted by [validate_license_key] of the same manager,
    whatever the state of the files and the clock: when all other checks
    pass, [int(days)] raises on the text of the float. *)
Theorem float_days_never_accepted :
  forall (self : LicenseManager) (customer : string) (q : Q)
         (license_type sigtype : string) (w : world) (K : string) (rec : json)
         (w1 : world),
    generate_license_key self customer (PyFloat q) license_type sigtype w
    = (Ok (K, rec), w1) ->
    forall w2, exists reason w3,
      validate_license_key self K w2 = (Ok (false, JStr reason), w3).
Proof.
  intros self customer q lt sigtype w K rec w1 Hgen w2.
  destruct (validate_license_key self K w2) as [[[[ | ] reason] | e] w3] eqn:Hv.
  - exfalso.
    destruct (generate_inv self customer (PyFloat q) lt sigtype w K rec w1 Hgen)
      as (start_date & end_date & signature & HK & _).
    cbv zeta in HK.
    destruct (validate_accept_inv self K w2 reason w3 Hv)
      as (p & c & mc & s & e & d & lt' & st & sig & t_end & n
          & Hd & Hs & _ & _ & _ & _ & _ & Hi & _).
    unfold decoded_text in Hd. rewrite HK, base64_roundtrip in Hd.
    apply utf8_decode_same in Hd.
    assert (Hjoin : data_string_of (product_id self) customer (machine_id self)
                      start_date end_date (num_str (PyFloat q)) lt sigtype
                    +:+ "|" +:+ signature
                    = join "|" [product_id self; customer; machine_id self; start_date;
                                end_date; repr_float q; lt; sigtype; signature]).
    { unfold data_string_of. cbn [join num_str]. rewrite !append_assoc. reflexivity. }
    rewrite Hd, Hjoin in Hs.
    rewrite (split_on_join "|"%char) in Hs;
      [ | discriminate | rewrite Hs; reflexivity ].
    injection Hs as _ _ _ _ _ Hdays _ _ _.
    rewrite <- Hdays, int_of_repr_float in Hi. discriminate Hi.
  - destruct (validate_rejects_with_text self K w2 reason w3 Hv) as [msg ->]. eauto.
  - unfold validate_license_key, try_except in Hv.
    destruct (validate_body self K w2) as [[x | e0] w']; discriminate Hv.
Qed.


(* ===================================================================== *)
(** ** Decimal digits: printing and reading back *)
(* ===================================================================== *)

Lemma digit_char d :
  0 <= d < 10 ->
  is_digit (byte_chr (48 + d)) = true /\ digit_val (byte_chr (48 + d)) = d.
Proof.
  intros Hd. unfold is_digit, digit_val. rewrite byte_val_chr by lia.
  split; [ | lia ].
  apply andb_true_iff. split; apply Z.leb_le; lia.
Qed.

(** What [digits_fuel] puts in front of [acc]: a non-empty run of digits
    that reads back as [n], and has no more digits than [n] needs. *)
Lemma digits_fuel_spec fuel : forall n acc,
  (0 < fuel)%nat -> 0 <= n < 10 ^ Z.of_nat fuel ->
  exists ds,
    list_ascii_of_string (digits_fuel fuel n acc) = (ds ++ list_ascii_of_string acc)%list /\
    (0 < length ds)%nat /\
    Forall (fun c => is_digit c = true) ds /\
    (forall a, fold_left (fun v c => 10 * v + digit_val c) ds a
               = a * 10 ^ Z.of_nat (length ds) + n) /\
    (length ds = 1%nat \/ 10 ^ (Z.of_nat (length ds) - 1) <= n).
Proof.
  induction fuel as [ | k IH]; intros n acc Hfuel Hn; [ lia | ].
  cbn [digits_fuel]. cbv zeta.
  assert (Hd : 0 <= n mod 10 < 10) by (apply Z.mod_pos_bound; lia).
  destruct (digit_char (n mod 10) Hd) as [Hdig Hval].
  destruct (Z.ltb_spec n 10) as [Hlt | Hge].
  - exists [byte_chr (48 + n mod 10)]. repeat split.
      * simpl. lia.
      * constructor; [ exact Hdig | constructor ].
      * intros a. simpl. rewrite Hval. rewrite Z.mod_small by lia. lia.
      * left. reflexivity.
  - assert (Hq : 0 <= n / 10 < 10 ^ Z.of_nat k).
      { split; [ apply Z.div_pos; lia | ].
        apply Z.div_lt_upper_bound; [ lia | ].
        replace (10 * 10 ^ Z.of_nat k) with (10 ^ Z.of_nat (S k)); [ lia | ].
        rewrite Nat2Z.inj_succ, Z.pow_succ_r by lia. reflexivity. }
      assert (Hk : (0 < k)%nat).
      { destruct k; [ | lia ]. simpl in Hq.
        pose proof (Z.div_le_lower_bound n 10 1 ltac:(lia) ltac:(lia)). lia. }
      destruct (IH (n / 10) (String (byte_chr (48 + n mod 10)) acc) Hk Hq)
        as (ds & Hl & Hlen & Hall & Hfold & Hmin).
      exists (ds ++ [byte_chr (48 + n mod 10)])%list. repeat split.
      * rewrite Hl. simpl. rewrite <- app_assoc. reflexivity.
      * rewrite length_app. simpl. lia.
      * apply Forall_app. split; [ exact Hall | ].
        constructor; [ exact Hdig | constructor ].
      * intros a. rewrite fold_left_app, Hfold. simpl. rewrite Hval.
        rewrite length_app. simpl.
        replace (Z.of_nat (length ds + 1)) with (Z.succ (Z.of_nat (length ds))) by lia.
        rewrite Z.pow_succ_r by lia.
        pose proof (Z.div_mod n 10 ltac:(lia)). lia.
      * right. rewrite length_app. simpl.
        replace (Z.of_nat (length ds + 1) - 1) with (Z.of_nat (length ds)) by lia.
        destruct Hmin as [H1 | Hmin].
        -- rewrite H1. simpl. lia.
        -- replace (Z.of_nat (length ds)) with (Z.succ (Z.of_nat (length ds) - 1)) by lia.
           rewrite Z.pow_succ_r by lia.
           pose proof (Z.div_mod n 10 ltac:(lia)). lia.
Qed.

Lemma log2_fuel n : 0 <= n -> n < 10 ^ Z.of_nat (S (Z.to_nat (Z.log2 n))).
Proof.
  intros Hn. rewrite Nat2Z.inj_succ, Z2Nat.id by apply Z.log2_nonneg.
  destruct (Z.eq_dec n 0) as [-> | Hne]; [ reflexivity | ].
  pose proof (Z.log2_spec n ltac:(lia)) as [_ Hup].
  eapply Z.lt_le_trans; [ exact Hup | ].
  apply Z.pow_le_mono_l. lia.
Qed.

(** The digits of [str(n)] for [n >= 0]. *)
Lemma str_of_nonneg_spec n :
  0 <= n ->
  exists ds,
    list_ascii_of_string (str_of_nonneg n) = ds /\
    (0 < length ds)%nat /\
    Forall (fun c => is_digit c = true) ds /\
    (forall a, fold_left (fun v c => 10 * v + digit_val c) ds a
               = a * 10 ^ Z.of_nat (length ds) + n) /\
    (length ds = 1%nat \/ 10 ^ (Z.of_nat (length ds) - 1) <= n).
Proof.
  intros Hn. unfold str_of_nonneg.
  destruct (digits_fuel_spec _ n "" (Nat.lt_0_succ _) (conj Hn (log2_fuel n Hn)))
    as (ds & Hl & H). exists ds. split; [ | exact H ].
  rewrite Hl. simpl. apply app_nil_r.
Qed.

Lemma int_digits_digit c r acc cnt prev :
  is_digit c = true ->
  int_digits (c :: r) acc cnt prev = int_digits r (10 * acc + digit_val c) (cnt + 1) true.
Proof. intros H. cbn [int_digits]. rewrite H. reflexivity. Qed.

(** [int_digits] on a run of digits. *)
Lemma int_digits_run ds : forall acc cnt prev,
  Forall (fun c => is_digit c = true) ds -> (0 < length ds)%nat ->
  int_digits ds acc cnt prev
  = Some (fold_left (fun v c => 10 * v + digit_val c) ds acc, cnt + Z.of_nat (length ds)).
Proof.
  destruct ds as [ | c r]; intros acc cnt prev Hall Hlen; [ simpl in Hlen; lia | ].
  clear Hlen. revert c acc cnt prev Hall.
  induction r as [ | c' r IH]; intros c acc cnt prev Hall;
    inversion Hall as [ | ? ? Hc Hr]; subst; rewrite (int_digits_digit c _ _ _ _ Hc).
  - reflexivity.
  - rewrite (IH c' _ _ true Hr). cbn [fold_left length].
    f_equal. f_equal. lia.
Qed.

Lemma digit_not_space c : is_digit c = true -> is_space c = false.
Proof.
  unfold is_digit, is_space. cbv zeta. intros H.
  apply andb_true_iff in H as [H1 H2]. apply Z.leb_le in H1, H2.
  apply orb_false_iff. split.
  - apply Z.eqb_neq. lia.
  - apply andb_false_iff. right. apply Z.leb_gt. lia.
Qed.

Lemma digit_not_sign c :
  is_digit c = true -> Ascii.eqb c "-" = false /\ Ascii.eqb c "+" = false.
Proof.
  unfold is_digit. intros H.
  apply andb_true_iff in H as [H1 H2]. apply Z.leb_le in H1, H2.
  split; apply Ascii.eqb_neq; intros ->; vm_compute in H1; congruence.
Qed.

Lemma lstrip_head c r : is_space c = false -> lstrip (c :: r) = c :: r.
Proof. intros H. simpl. now rewrite H. Qed.

(** A text that neither starts nor ends with white space is its own
    [strip()]. *)
Lemma strip_same l :
  match l with c :: _ => is_space c = false | [] => True end ->
  match rev l with c :: _ => is_space c = false | [] => True end ->
  strip l = l.
Proof.
  intros H1 H2. unfold strip.
  assert (E1 : lstrip l = l).
  { destruct l as [ | c r]; [ reflexivity | now apply lstrip_head ]. }
  rewrite E1.
  assert (E2 : lstrip (rev l) = rev l).
  { destruct (rev l) as [ | c r]; [ reflexivity | now apply lstrip_head ]. }
  rewrite E2. apply rev_involutive.
Qed.

Lemma last_of_run (P : ascii -> Prop) l :
  Forall P l -> match rev l with c :: _ => P c | [] => True end.
Proof.
  intros H. apply Forall_rev in H. destruct (rev l); [ exact I | ].
  now inversion H.
Qed.

(** The digits of [str(m)] read back as [m]; [strip()] leaves them as
    they are, also after a sign. *)
Lemma str_of_nonneg_read (b m : Z) :
  0 < b -> 0 <= m < 10 ^ b ->
  exists c r,
    list_ascii_of_string (str_of_nonneg m) = c :: r /\
    is_digit c = true /\ strip (c :: r) = c :: r /\
    (forall s, is_space s = false -> strip (s :: c :: r) = s :: c :: r) /\
    exists k, int_digits (c :: r) 0 0 false = Some (m, k) /\ k <= b.
Proof.
  intros Hb Hm. destruct (str_of_nonneg_spec m ltac:(lia))
    as (ds & Hl & Hlen & Hall & Hfold & Hmin).
  assert (Hlast : match rev ds with x :: _ => is_space x = false | [] => True end).
  { apply (last_of_run (fun x => is_space x = false)).
    eapply Forall_impl; [ exact Hall | apply digit_not_space ]. }
  assert (Hk : int_digits ds 0 0 false = Some (m, Z.of_nat (length ds))).
  { rewrite int_digits_run by assumption. rewrite Hfold.
    rewrite Z.mul_0_l, !Z.add_0_l. reflexivity. }
  assert (Hcount : Z.of_nat (length ds) <= b).
  { destruct Hmin as [H1 | Hmin]; [ lia | ].
    destruct (Z_le_gt_dec (Z.of_nat (length ds)) b) as [Hle | Hgt]; [ exact Hle | ].
    exfalso.
    assert (10 ^ b <= 10 ^ (Z.of_nat (length ds) - 1))
      by (apply Z.pow_le_mono_r; lia).
    lia. }
  destruct ds as [ | c r]; [ simpl in Hlen; lia | ].
  assert (Hc : is_digit c = true) by (now inversion Hall).
  exists c, r. split; [ exact Hl | ]. split; [ exact Hc | ]. split; [ | split ].
  - apply strip_same; [ now apply digit_not_space | exact Hlast ].
  - intros s Hs. apply strip_same; [ exact Hs | ].
    change (rev (s :: c :: r)) with (rev (c :: r) ++ [s])%list.
    destruct (rev (c :: r)) as [ | x t]; simpl; [ exact Hs | exact Hlast ].
  - eauto.
Qed.

(** [int(str(n)) == n], as long as [n] has no more than 4300 digits. *)
Theorem int_of_str_of_int :
  forall n : Z, Z.abs n < 10 ^ max_str_digits -> int_of_str (str_of_int n) = Ok n.
Proof.
  intros n Hn.
  assert (Hb : 0 < max_str_digits) by reflexivity.
  unfold str_of_int, int_of_str. cbv zeta.
  remember max_str_digits as b eqn:Eb.
  destruct (Z.ltb_spec n 0) as [Hneg | Hpos].
  - destruct (str_of_nonneg_read b (- n) Hb ltac:(lia))
      as (c & r & Hl & Hc & _ & Hstrip & k & Hk & Hk').
    rewrite append_cons, append_nil_l. cbn [list_ascii_of_string]. rewrite Hl.
    rewrite (Hstrip "-"%char eq_refl).
    change (Ascii.eqb "-" "-") with true. cbv iota. rewrite Hk.
    destruct (Z.ltb_spec b k) as [Hbig | _]; [ lia | ].
    f_equal. lia.
  - destruct (str_of_nonneg_read b n Hb ltac:(lia))
      as (c & r & Hl & Hc & Hstrip & _ & k & Hk & Hk').
    rewrite Hl, Hstrip.
    destruct (digit_not_sign c Hc) as [E1 E2]. rewrite E1, E2, Hk.
    destruct (Z.ltb_spec b k) as [Hbig | _]; [ lia | ].
    reflexivity.
Qed.

(* ===================================================================== *)
(** ** The calendar: [_ord2ymd] and [_ymd2ord] *)
(* ===================================================================== *)

(** Every day of a year, one by one. *)
Lemma month_day_spec (leapyear : bool) (n : Z) :
  0 <= n < 365 + (if leapyear then 1 else 0) -> month_day_ok leapyear n = true.
Proof.
  intros Hn. destruct leapyear.
  - apply (all_from_spec (month_day_ok true) 366%nat 0); [ vm_compute; reflexivity | lia ].
  - apply (all_from_spec (month_day_ok false) 365%nat 0); [ vm_compute; reflexivity | lia ].
Qed.

Lemma ord2ymd_unfold o :
  Datetime.ord2ymd o
  = let n0 := o - 1 in
    let n400 := n0 / Datetime.DI400Y in
    let n100 := n0 mod Datetime.DI400Y / Datetime.DI100Y in
    let n4 := n0 mod Datetime.DI400Y mod Datetime.DI100Y / Datetime.DI4Y in
    let n1 := n0 mod Datetime.DI400Y mod Datetime.DI100Y mod Datetime.DI4Y / 365 in
    let n := n0 mod Datetime.DI400Y mod Datetime.DI100Y mod Datetime.DI4Y mod 365 in
    let year := n400 * 400 + 1 + n100 * 100 + n4 * 4 + n1 in
    if (n1 =? 4) || (n100 =? 4) then (year - 1, 12, 31)
    else
      let '(m, d) := month_day ((n1 =? 3) && (negb (n4 =? 24) || (n100 =? 3))) n in
      (year, m, d).
Proof.
  unfold Datetime.ord2ymd, month_day. cbv zeta.
  match goal with |- (if ?c then _ else _) = _ => destruct c end; [ reflexivity | ].
  match goal with |- (if ?c then _ else _) = _ => destruct c end; reflexivity.
Qed.

(** The year [ord2ymd] finds, and the day in it: the arithmetic of the
    cycles of 400, 100, 4 and 1 years. *)
Lemma year_cycles n0 :
  0 <= n0 ->
  let n400 := n0 / Datetime.DI400Y in
  let n100 := n0 mod Datetime.DI400Y / Datetime.DI100Y in
  let n4 := n0 mod Datetime.DI400Y mod Datetime.DI100Y / Datetime.DI4Y in
  let n1 := n0 mod Datetime.DI400Y mod Datetime.DI100Y mod Datetime.DI4Y / 365 in
  let n := n0 mod Datetime.DI400Y mod Datetime.DI100Y mod Datetime.DI4Y mod 365 in
  let y1 := n400 * 400 + n100 * 100 + n4 * 4 + n1 in
  0 <= n400 /\ 0 <= n100 <= 4 /\ 0 <= n4 <= 24 /\ 0 <= n1 <= 4 /\ 0 <= n < 365 /\
  n0 = n400 * 146097 + n100 * 36524 + n4 * 1461 + n1 * 365 + n /\
  (n100 = 4 -> n4 = 0 /\ n1 = 0 /\ n = 0) /\
  (n1 = 4 -> n = 0) /\
  (n100 <= 3 -> n4 = 24 -> n1 <= 3).
Proof.
  intros H0. unfold Datetime.DI400Y, Datetime.DI100Y, Datetime.DI4Y. cbv zeta.
  Z.div_mod_to_equations. lia.
Qed.

(** The first day of the year after [n400], [n100], [n4] and [n1] full
    cycles, and whether that year is a leap year. *)
Lemma year_start n400 n100 n4 n1 :
  0 <= n100 <= 3 -> 0 <= n4 <= 24 -> 0 <= n1 <= 3 ->
  let y := n400 * 400 + 1 + n100 * 100 + n4 * 4 + n1 in
  Datetime.days_before_year y
  = n400 * 146097 + n100 * 36524 + n4 * 1461 + n1 * 365 /\
  Datetime.is_leap y = (n1 =? 3) && (negb (n4 =? 24) || (n100 =? 3)).
Proof.
  intros H100 H4 H1 y. split.
  - unfold Datetime.days_before_year, y. cbv zeta.
    Z.div_mod_to_equations. lia.
  - unfold Datetime.is_leap, y.
    destruct (Z.eqb_spec n1 3) as [E1 | E1];
      destruct (Z.eqb_spec n4 24) as [E4 | E4];
      destruct (Z.eqb_spec n100 3) as [E100 | E100];
      destruct (Z.eqb_spec ((n400 * 400 + 1 + n100 * 100 + n4 * 4 + n1) mod 4) 0)
        as [M4 | M4];
      destruct (Z.eqb_spec ((n400 * 400 + 1 + n100 * 100 + n4 * 4 + n1) mod 100) 0)
        as [M100 | M100];
      destruct (Z.eqb_spec ((n400 * 400 + 1 + n100 * 100 + n4 * 4 + n1) mod 400) 0)
        as [M400 | M400];
      try reflexivity; exfalso; revert M4 M100 M400;
      Z.div_mod_to_equations; lia.
Qed.

(** The last day of a leap year, which [ord2ymd] treats apart. *)
Lemma year_end n400 n100 n4 n1 :
  (n100 = 4 /\ n4 = 0 /\ n1 = 0) \/ (0 <= n100 <= 3 /\ 0 <= n4 <= 23 /\ n1 = 4) ->
  let y := n400 * 400 + 1 + n100 * 100 + n4 * 4 + n1 - 1 in
  Datetime.days_before_year y + 365
  = n400 * 146097 + n100 * 36524 + n4 * 1461 + n1 * 365 /\
  Datetime.is_leap y = true.
Proof.
  intros H y. split.
  - unfold Datetime.days_before_year, y. cbv zeta.
    Z.div_mod_to_equations. lia.
  - unfold Datetime.is_leap, y.
    destruct (Z.eqb_spec ((n400 * 400 + 1 + n100 * 100 + n4 * 4 + n1 - 1) mod 4) 0)
      as [M4 | M4];
    destruct (Z.eqb_spec ((n400 * 400 + 1 + n100 * 100 + n4 * 4 + n1 - 1) mod 100) 0)
      as [M100 | M100];
    destruct (Z.eqb_spec ((n400 * 400 + 1 + n100 * 100 + n4 * 4 + n1 - 1) mod 400) 0)
      as [M400 | M400];
    try reflexivity; exfalso; revert M4 M100 M400;
    Z.div_mod_to_equations; lia.
Qed.

(** [_ord2ymd] gives a date of the calendar, and [_ymd2ord] takes it
    back, for every ordinal a [date] can have. *)
Lemma ord2ymd_spec o :
  1 <= o <= Datetime.max_ordinal ->
  exists y m d,
    Datetime.ord2ymd o = (y, m, d) /\
    1 <= y <= 9999 /\ 1 <= m <= 12 /\ 1 <= d <= Datetime.days_in_month y m /\
    Datetime.ymd2ord y m d = o.
Proof.
  intros Ho. rewrite ord2ymd_unfold. cbv zeta.
  destruct (year_cycles (o - 1) ltac:(lia))
    as (H400 & H100 & H4 & H1 & Hn & Hsum & Hlast & Hlast1 & H24).
  set (n400 := (o - 1) / Datetime.DI400Y) in *.
  set (n100 := (o - 1) mod Datetime.DI400Y / Datetime.DI100Y) in *.
  set (n4 := (o - 1) mod Datetime.DI400Y mod Datetime.DI100Y / Datetime.DI4Y) in *.
  set (n1 := (o - 1) mod Datetime.DI400Y mod Datetime.DI100Y mod Datetime.DI4Y / 365) in *.
  set (n := (o - 1) mod Datetime.DI400Y mod Datetime.DI100Y mod Datetime.DI4Y mod 365) in *.
  unfold Datetime.max_ordinal in Ho.
  assert (Hbound : forall y, 10000 <= y -> 3652059 <= Datetime.days_before_year y).
  { intros y Hy. unfold Datetime.days_before_year. cbv zeta.
    Z.div_mod_to_equations. lia. }
  destruct ((n1 =? 4) || (n100 =? 4)) eqn:Hend.
  - assert (Hcase : (n100 = 4 /\ n4 = 0 /\ n1 = 0)
                    \/ (0 <= n100 <= 3 /\ 0 <= n4 <= 23 /\ n1 = 4)).
    { destruct (Z.eq_dec n100 4) as [E' | E'].
      - left. destruct (Hlast E') as (? & ? & ?). auto.
      - right. apply orb_true_iff in Hend as [E | E]; apply Z.eqb_eq in E;
          [ | contradiction ].
        repeat split; lia. }
    destruct (year_end n400 n100 n4 n1 Hcase) as [Hdays Hleap]. cbv zeta in Hdays, Hleap.
    eexists _, 12, 31. split; [ reflexivity | ].
    set (y := n400 * 400 + 1 + n100 * 100 + n4 * 4 + n1 - 1) in *.
    assert (Hn0 : n = 0).
    { destruct Hcase as [(E & _) | (_ & _ & E)];
        [ destruct (Hlast E) as (_ & _ & ?); assumption | exact (Hlast1 E) ]. }
    assert (Hy : 1 <= y <= 9999).
    { split; [ unfold y; lia | ].
      destruct (Z_le_gt_dec y 9999) as [Hle | Hgt]; [ exact Hle | ].
      specialize (Hbound y ltac:(lia)). lia. }
    unfold Datetime.days_in_month, Datetime.ymd2ord, Datetime.days_before_month.
    rewrite Hleap. simpl. repeat split; lia.
  - apply orb_false_iff in Hend as [E1 E100]. apply Z.eqb_neq in E1, E100.
    destruct (year_start n400 n100 n4 n1 ltac:(lia) ltac:(lia) ltac:(lia))
      as [Hdays Hleap]. cbv zeta in Hdays, Hleap.
    set (y := n400 * 400 + 1 + n100 * 100 + n4 * 4 + n1) in *.
    set (leapyear := (n1 =? 3) && (negb (n4 =? 24) || (n100 =? 3))) in *.
    pose proof (month_day_spec leapyear n
                  ltac:(destruct leapyear; lia)) as Hmd.
    unfold month_day_ok in Hmd.
    destruct (month_day leapyear n) as [m d].
    rewrite !andb_true_iff in Hmd. destruct Hmd as ((((M1 & M2) & D1) & D2) & D3).
    apply Z.leb_le in M1, M2, D1, D2. apply Z.eqb_eq in D3.
    exists y, m, d. split; [ reflexivity | ].
    assert (Hy : 1 <= y <= 9999).
    { split; [ unfold y; lia | ].
      destruct (Z_le_gt_dec y 9999) as [Hle | Hgt]; [ exact Hle | ].
      specialize (Hbound y ltac:(lia)). lia. }
    unfold Datetime.days_in_month, Datetime.ymd2ord, Datetime.days_before_month.
    rewrite Hleap. repeat split; lia.
Qed.

(* ===================================================================== *)
(** ** [strptime] reads what [strftime] prints *)
(* ===================================================================== *)

(** The fields of a datetime are in range, and the constructor gives the
    datetime back from them. *)
Lemma fields_of_spec t :
  Datetime.valid_datetime t = true ->
  let f := Datetime.fields_of t in
  1 <= Datetime.year f <= 9999 /\ 1 <= Datetime.month f <= 12 /\
  1 <= Datetime.day f <= Datetime.days_in_month (Datetime.year f) (Datetime.month f) /\
  0 <= Datetime.hour f <= 23 /\ 0 <= Datetime.minute f <= 59 /\
  0 <= Datetime.second f <= 59 /\ 0 <= Datetime.microsecond f <= 999999 /\
  ((Datetime.ymd2ord (Datetime.year f) (Datetime.month f) (Datetime.day f) - 1) * 86400
   + Datetime.hour f * 3600 + Datetime.minute f * 60 + Datetime.second f)
  * Datetime.us_per_second
  = t - t mod Datetime.us_per_second.
Proof.
  unfold Datetime.valid_datetime. intros Hv.
  apply andb_true_iff in Hv as [H0 H1]. apply Z.leb_le in H0. apply Z.ltb_lt in H1.
  unfold Datetime.fields_of. cbv zeta.
  unfold Datetime.max_ordinal, Datetime.us_per_day, Datetime.us_per_second in *.
  destruct (ord2ymd_spec (t / (86400 * 1000000) + 1)) as (y & m & d & Ho & Hy & Hm & Hd & Hinv).
  { unfold Datetime.max_ordinal. Z.div_mod_to_equations. lia. }
  rewrite Ho. cbn [Datetime.year Datetime.month Datetime.day Datetime.hour
                   Datetime.minute Datetime.second Datetime.microsecond].
  rewrite Hinv.
  repeat split; try lia; Z.div_mod_to_equations; lia.
Qed.

Lemma make_fields y m d h mi s us :
  1 <= y <= 9999 -> 1 <= m <= 12 -> 1 <= d <= Datetime.days_in_month y m ->
  0 <= h <= 23 -> 0 <= mi <= 59 -> 0 <= s <= 59 -> 0 <= us <= 999999 ->
  Datetime.make (Datetime.Fields y m d h mi s us)
  = Ok (((Datetime.ymd2ord y m d - 1) * 86400 + h * 3600 + mi * 60 + s)
        * Datetime.us_per_second + us).
Proof.
  intros Hy Hm Hd Hh Hmi Hs Hus. unfold Datetime.make.
  cbn [Datetime.year Datetime.month Datetime.day Datetime.hour
       Datetime.minute Datetime.second Datetime.microsecond].
  repeat match goal with
         | |- context [negb ((?a <=? ?b) && (?c <=? ?e))] =>
             replace ((a <=? b) && (c <=? e)) with true
               by (symmetry; apply andb_true_iff; split; apply Z.leb_le; lia);
             cbn [negb]
         end.
  reflexivity.
Qed.

(** *** The digits of a field *)

Lemma take_digits_zeros j : forall k l,
  Parse.take_digits (j + k) (repeat "0"%char j ++ l) 0 = Parse.take_digits k l 0.
Proof.
  induction j as [ | j IH]; intros k l; [ reflexivity | ].
  cbn [repeat Nat.add app Parse.take_digits].
  change (is_digit "0") with true. cbv iota.
  change (10 * 0 + digit_val "0") with 0. apply IH.
Qed.

Lemma take_digits_run ds : forall rest acc,
  Forall (fun c => is_digit c = true) ds ->
  Parse.take_digits (length ds) (ds ++ rest) acc
  = Some (fold_left (fun v c => 10 * v + digit_val c) ds acc, rest).
Proof.
  induction ds as [ | c r IH]; intros rest acc Hall; [ reflexivity | ].
  inversion Hall as [ | ? ? Hc Hr]; subst.
  cbn [length app Parse.take_digits fold_left]. rewrite Hc. apply IH. exact Hr.
Qed.

Lemma length_list_ascii s : length (list_ascii_of_string s) = String.length s.
Proof. induction s as [ | c r IH]; simpl; congruence. Qed.

(** [w] digits printed with [zfill] read back as the number. *)
Lemma zfill_take (w : nat) n rest :
  (0 < w)%nat -> 0 <= n < 10 ^ Z.of_nat w ->
  Parse.take_digits w (list_ascii_of_string (zfill w n) ++ rest) 0 = Some (n, rest).
Proof.
  intros Hpos Hn. destruct (str_of_nonneg_spec n ltac:(lia))
    as (ds & Hl & Hlen & Hall & Hfold & Hmin).
  assert (Hw : (length ds <= w)%nat).
  { destruct Hmin as [H1 | Hmin]; [ lia | ].
    destruct (le_lt_dec (length ds) w) as [Hle | Hgt]; [ exact Hle | ].
    exfalso.
    assert (10 ^ Z.of_nat w <= 10 ^ (Z.of_nat (length ds) - 1))
      by (apply Z.pow_le_mono_r; lia).
    lia. }
  unfold zfill. cbv zeta. rewrite list_ascii_append, list_ascii_of_string_of_list_ascii.
  rewrite <- length_list_ascii, Hl. rewrite <- app_assoc.
  replace w with ((w - length ds) + length ds)%nat at 1 by lia.
  rewrite take_digits_zeros, take_digits_run by exact Hall.
  rewrite Hfold. f_equal.
Qed.

(** *** The regular expressions of the directives *)

Lemma two_chars_two a b c d : two_chars (Parse.two a b c d).
Proof.
  intros x y rest. unfold Parse.two.
  destruct (Parse.in_range a b x && Parse.in_range c d y); reflexivity.
Qed.

Lemma two_chars_one a b : two_chars (Parse.one a b).
Proof.
  intros x y rest. unfold Parse.one. destruct (Parse.in_range a b x); reflexivity.
Qed.

Lemma two_chars_blank_one : two_chars Parse.blank_one.
Proof.
  intros x y rest. unfold Parse.blank_one.
  destruct (Ascii.eqb x " " && Parse.in_range "1" "9" y); reflexivity.
Qed.

Lemma two_chars_app f g :
  two_chars f -> two_chars g -> two_chars (fun s => (f s ++ g s)%list).
Proof. intros Hf Hg x y rest. rewrite Hf, Hg, map_app. reflexivity. Qed.

Lemma two_chars_re :
  two_chars Parse.re_m /\ two_chars Parse.re_d /\ two_chars Parse.re_H /\
  two_chars Parse.re_M /\ two_chars Parse.re_S.
Proof.
  repeat split; unfold Parse.re_m, Parse.re_d, Parse.re_H, Parse.re_M, Parse.re_S;
    repeat apply two_chars_app;
    auto using two_chars_two, two_chars_one, two_chars_blank_one.
Qed.

(** A two-digit field, checked on every value of its range. *)
Lemma field_parse re lo (count : nat) :
  two_chars re -> all_from count lo (field_ok re) = true ->
  forall n, lo <= n < lo + Z.of_nat count ->
  exists x y,
    list_ascii_of_string (zfill 2 n) = [x; y] /\
    forall rest, hd_error (re (x :: y :: rest)) = Some (n, rest).
Proof.
  intros Hre Hall n Hn.
  pose proof (all_from_spec (field_ok re) count lo Hall n Hn) as Hok.
  unfold field_ok in Hok.
  destruct (list_ascii_of_string (zfill 2 n)) as [ | x [ | y [ | z l]]];
    try discriminate Hok.
  exists x, y. split; [ reflexivity | ]. intros rest. rewrite Hre.
  destruct (re [x; y]) as [ | [v [ | c r]] others]; try discriminate Hok.
  apply Z.eqb_eq in Hok. subst v. reflexivity.
Qed.

Lemma hd_seq_bind {A B} (l : list (A * list ascii)) (k : A -> list ascii -> list B)
    a r b :
  hd_error l = Some (a, r) -> hd_error (k a r) = Some b ->
  hd_error (Parse.seq_bind l k) = Some b.
Proof.
  intros Hl Hk. destruct l as [ | [a' r'] l']; [ discriminate Hl | ].
  injection Hl as -> ->. unfold Parse.seq_bind. cbn [flat_map fst snd].
  destruct (k a r) as [ | b' t]; [ discriminate Hk | ].
  injection Hk as ->. reflexivity.
Qed.

(** [datetime.strptime(t.strftime(fmt), fmt)] is [t] without its
    microseconds, for every datetime [t]. *)
Theorem strptime_strftime :
  forall t : Z,
    Datetime.valid_datetime t = true ->
    Parse.strptime (Datetime.strftime t) = Ok (t - t mod Datetime.us_per_second).
Proof.
  intros t Hv. pose proof (fields_of_spec t Hv) as Hf. cbv zeta in Hf.
  unfold Datetime.strftime. cbv zeta.
  destruct (Datetime.fields_of t) as [y m d h mi s us].
  cbn [Datetime.year Datetime.month Datetime.day Datetime.hour
       Datetime.minute Datetime.second Datetime.microsecond] in *.
  destruct Hf as (Hy & Hm & Hd & Hh & Hmi & Hs & Hus & Hval).
  destruct two_chars_re as (Tm & Td & TH & TM & TS).
  assert (Hd31 : 1 <= d <= 31).
  { split; [ lia | ]. destruct Hd as [_ Hd]. revert Hd.
    unfold Datetime.days_in_month.
    destruct ((m =? 2) && Datetime.is_leap y); [ lia | ].
    assert (Hc : m = 1 \/ m = 2 \/ m = 3 \/ m = 4 \/ m = 5 \/ m = 6 \/ m = 7
                 \/ m = 8 \/ m = 9 \/ m = 10 \/ m = 11 \/ m = 12) by lia.
    repeat (destruct Hc as [-> | Hc]; [ simpl; lia | ]). subst m. simpl. lia. }
  destruct (field_parse Parse.re_m 1 12 Tm ltac:(vm_compute; reflexivity) m ltac:(lia))
    as (m1 & m2 & Em & Pm).
  destruct (field_parse Parse.re_d 1 31 Td ltac:(vm_compute; reflexivity) d ltac:(lia))
    as (d1 & d2 & Ed & Pd).
  destruct (field_parse Parse.re_H 0 24 TH ltac:(vm_compute; reflexivity) h ltac:(lia))
    as (h1 & h2 & Eh & Ph).
  destruct (field_parse Parse.re_M 0 60 TM ltac:(vm_compute; reflexivity) mi ltac:(lia))
    as (i1 & i2 & Ei & Pi).
  destruct (field_parse Parse.re_S 0 60 TS ltac:(vm_compute; reflexivity) s ltac:(lia))
    as (s1 & s2 & Es & Ps).
  assert (Hmatch : hd_error (Parse.matches (list_ascii_of_string
            (zfill 4 y +:+ zfill 2 m +:+ zfill 2 d +:+ "T"
             +:+ zfill 2 h +:+ zfill 2 mi +:+ zfill 2 s)))
          = Some (Datetime.Fields y m d h mi s 0, [])).
  { rewrite !list_ascii_append, Em, Ed, Eh, Ei, Es.
    unfold Parse.matches.
    eapply hd_seq_bind.
    { unfold Parse.re_Y. rewrite (zfill_take 4 y) by (simpl; lia). reflexivity. }
    eapply hd_seq_bind; [ apply Pm | ].
    eapply hd_seq_bind; [ apply Pd | ].
    eapply hd_seq_bind; [ reflexivity | ].
    eapply hd_seq_bind; [ apply Ph | ].
    eapply hd_seq_bind; [ apply Pi | ].
    eapply hd_seq_bind; [ apply Ps | ].
    reflexivity. }
  unfold Parse.strptime.
  destruct (Parse.matches _) as [ | [f rest] others]; [ discriminate Hmatch | ].
  injection Hmatch as -> ->.
  rewrite make_fields by (assumption || lia).
  rewrite Hval. f_equal. lia.
Qed.

(* ===================================================================== *)
(** ** Well-formed texts *)
(* ===================================================================== *)

Lemma scan_nil fuel all pos : Utf8.scan fuel all [] pos = Ok tt.
Proof. destruct fuel; reflexivity. Qed.

(** A well-formed text followed by a well-formed text is well-formed;
    the outcome [Ok] depends neither on the position nor on the fuel,
    as long as there is one unit of it for each byte. *)
Lemma scan_app l2 :
  (forall f all pos, (length l2 <= f)%nat -> Utf8.scan f all l2 pos = Ok tt) ->
  forall f l1 all pos,
    (length l1 <= f)%nat -> Utf8.scan f all l1 pos = Ok tt ->
    forall f' all' pos',
      (length (l1 ++ l2) <= f')%nat -> Utf8.scan f' all' (l1 ++ l2) pos' = Ok tt.
Proof.
  intros H2. induction f as [ | f IH]; intros l1 all pos Hlen H f' all' pos' Hlen'.
  - destruct l1; [ apply H2; exact Hlen' | simpl in Hlen; lia ].
  - destruct l1 as [ | b r]; [ apply H2; exact Hlen' | ].
    destruct f' as [ | f']; [ simpl in Hlen'; lia | ].
    cbn [app Utf8.scan] in H |- *.
    repeat match type of H with
           | (if ?c then _ else _) = _ =>
               destruct c eqn:?; try discriminate H
           | match ?x with [] => _ | _ :: _ => _ end = _ =>
               destruct x; try discriminate H; cbn [app]
           end;
      (eapply IH; [ | exact H | ]; simpl in *; lia).
Qed.

Lemma scan_any f l all pos :
  (length l <= f)%nat -> Utf8.scan f all l pos = Ok tt ->
  forall f' all' pos', (length l <= f')%nat -> Utf8.scan f' all' l pos' = Ok tt.
Proof.
  intros Hlen H f' all' pos' Hlen'.
  rewrite <- (app_nil_r l).
  apply (scan_app [] (fun f0 a p _ => scan_nil f0 a p) f l all pos Hlen H).
  rewrite app_nil_r. exact Hlen'.
Qed.

Lemma bytes_of_append a b : bytes_of (a +:+ b) = (bytes_of a ++ bytes_of b)%list.
Proof. unfold bytes_of. rewrite list_ascii_append. apply map_app. Qed.

Lemma is_text_scan s :
  is_text s <-> Utf8.scan (length (bytes_of s)) (bytes_of s) (bytes_of s) 0 = Ok tt.
Proof.
  unfold is_text, Utf8.decode. cbv zeta.
  destruct (Utf8.scan _ _ _ _) as [[] | e]; simpl; split; congruence.
Qed.

(** Texts joined end to end are a text. *)
Lemma is_text_append a b : is_text a -> is_text b -> is_text (a +:+ b).
Proof.
  rewrite !is_text_scan. intros Ha Hb. rewrite bytes_of_append.
  apply (scan_app (bytes_of b)) with (f := length (bytes_of a)) (l1 := bytes_of a)
                                      (all := bytes_of a) (pos := 0); auto.
  intros f all pos Hf.
  apply (scan_any (length (bytes_of b)) (bytes_of b) (bytes_of b) 0); auto.
Qed.

(** ASCII is well-formed. *)
Lemma is_text_ascii s :
  Forall (fun c => byte_val c < 128) (list_ascii_of_string s) -> is_text s.
Proof.
  rewrite is_text_scan. unfold bytes_of.
  generalize (map byte_val (list_ascii_of_string s)) at 2.
  generalize 0.
  induction (list_ascii_of_string s) as [ | c r IH]; intros pos all Hall;
    [ reflexivity | ].
  inversion Hall as [ | ? ? Hc Hr]; subst.
  cbn [map length Utf8.scan].
  destruct (Z.ltb_spec (byte_val c) 128) as [_ | Hge]; [ | lia ].
  apply IH. exact Hr.
Qed.

(* ===================================================================== *)
(** ** Plain texts: dates, numbers, digests and encodings *)
(* ===================================================================== *)

Lemma plain_text_append a b : plain_text a -> plain_text b -> plain_text (a +:+ b).
Proof.
  unfold plain_text. intros Ha Hb. rewrite list_ascii_append.
  apply Forall_app. split; assumption.
Qed.

Lemma plain_text_is_text s : plain_text s -> is_text s.
Proof.
  intros H. apply is_text_ascii. eapply Forall_impl; [ exact H | ].
  intros c Hc. unfold plain in Hc. apply andb_true_iff in Hc as [Hc _].
  now apply Z.ltb_lt.
Qed.

Lemma plain_text_bars s : plain_text s -> bars "|" s = 0%nat.
Proof.
  unfold plain_text. induction s as [ | c r IH]; [ reflexivity | ].
  intros H. inversion H as [ | ? ? Hc Hr]; subst. cbn [bars].
  unfold plain in Hc. apply andb_true_iff in Hc as [_ Hc].
  apply negb_true_iff in Hc. rewrite Hc. apply IH. exact Hr.
Qed.

Lemma plain_text_ascii s : plain_text s -> Hmac.is_ascii s = true.
Proof.
  unfold plain_text, Hmac.is_ascii.
  induction (list_ascii_of_string s) as [ | c r IH]; intros H; [ reflexivity | ].
  inversion H as [ | ? ? Hc Hr]; subst. cbn [forallb].
  unfold plain in Hc. apply andb_true_iff in Hc as [Hc _]. rewrite Hc.
  apply IH. exact Hr.
Qed.

Lemma digit_plain c : is_digit c = true -> plain c = true.
Proof.
  unfold is_digit, plain. intros H.
  apply andb_true_iff in H as [H1 H2]. apply Z.leb_le in H1, H2.
  apply andb_true_iff. split; [ apply Z.ltb_lt; lia | ].
  apply negb_true_iff. apply Ascii.eqb_neq. intros ->. vm_compute in H2. congruence.
Qed.

(** [digits_fuel] writes digits only, whatever the number. *)
Lemma digits_fuel_plain fuel : forall n acc,
  plain_text acc -> plain_text (digits_fuel fuel n acc).
Proof.
  induction fuel as [ | k IH]; intros n acc Hacc; [ exact Hacc | ].
  cbn [digits_fuel]. cbv zeta.
  assert (Hd : 0 <= n mod 10 < 10) by (apply Z.mod_pos_bound; lia).
  destruct (digit_char (n mod 10) Hd) as [Hdig _].
  assert (Hacc' : plain_text (String (byte_chr (48 + n mod 10)) acc)).
  { constructor; [ now apply digit_plain | exact Hacc ]. }
  destruct (n <? 10); [ exact Hacc' | now apply IH ].
Qed.

Lemma str_of_nonneg_plain n : plain_text (str_of_nonneg n).
Proof. apply digits_fuel_plain. constructor. Qed.

Lemma str_of_int_plain n : plain_text (str_of_int n).
Proof.
  unfold str_of_int. destruct (n <? 0); [ | apply str_of_nonneg_plain ].
  apply plain_text_append; [ | apply str_of_nonneg_plain ].
  constructor; [ reflexivity | constructor ].
Qed.

Lemma zfill_plain w n : plain_text (zfill w n).
Proof.
  unfold zfill. cbv zeta. apply plain_text_append; [ | apply str_of_nonneg_plain ].
  unfold plain_text. rewrite list_ascii_of_string_of_list_ascii.
  induction (w - String.length (str_of_nonneg n))%nat as [ | k IH]; simpl;
    constructor; auto.
Qed.

Lemma strftime_plain t : plain_text (Datetime.strftime t).
Proof.
  unfold Datetime.strftime. cbv zeta.
  repeat (apply plain_text_append; [ apply zfill_plain | ]).
  apply plain_text_append; [ constructor; [ reflexivity | constructor ] | ].
  repeat (apply plain_text_append; [ apply zfill_plain | ]).
  apply zfill_plain.
Qed.

(** The bytes of a digest are bytes. *)
Lemma sha256_digest_range msg : Forall (fun z => 0 <= z < 256) (Sha256.digest msg).
Proof.
  unfold Sha256.digest. cbv zeta.
  induction (fold_left Sha256.compress _ Sha256.H0) as [ | x l IH]; [ constructor | ].
  cbn [map concat]. apply Forall_app. split; [ | exact IH ].
  unfold Sha256.bytes_of_word.
  assert (Hb : forall v, 0 <= Z.land v 255 < 256).
  { intros v. change 255 with (Z.ones 8). rewrite Z.land_ones by lia.
    apply Z.mod_pos_bound. reflexivity. }
  repeat constructor; apply Hb.
Qed.

Lemma hex_digit_plain z : 0 <= z < 16 -> plain (hex_digit z) = true.
Proof.
  intros Hz.
  apply (all_from_spec (fun z => plain (hex_digit z)) 16 0);
    [ vm_compute; reflexivity | lia ].
Qed.

Lemma hexlify_plain l : Forall (fun z => 0 <= z < 256) l -> plain_text (hexlify l).
Proof.
  unfold hexlify. induction l as [ | z r IH]; intros H; [ constructor | ].
  inversion H as [ | ? ? Hz Hr]; subst. cbn [map concat_str].
  apply plain_text_append; [ | apply IH; exact Hr ].
  unfold hex_of_byte. constructor; [ | constructor; [ | constructor ] ];
    apply hex_digit_plain.
  - split; [ apply Z.div_pos; lia | apply Z.div_lt_upper_bound; lia ].
  - apply Z.mod_pos_bound. lia.
Qed.

Lemma hmac_hexdigest_plain key msg : plain_text (Hmac.hexdigest key msg).
Proof.
  unfold Hmac.hexdigest, Hmac.digest. cbv zeta.
  apply hexlify_plain. apply sha256_digest_range.
Qed.

Lemma compare_digest_same s : plain_text s -> Hmac.compare_digest s s = Ok true.
Proof.
  intros H. unfold Hmac.compare_digest.
  rewrite (plain_text_ascii s H). simpl. now rewrite String.eqb_refl.
Qed.

(** The characters of the base64 alphabet, and the padding. *)
Lemma enc_plain v : 0 <= v < 64 -> plain (Base64.enc v) = true.
Proof.
  intros Hv.
  apply (all_from_spec (fun v => plain (Base64.enc v)) 64 0);
    [ vm_compute; reflexivity | lia ].
Qed.

Lemma encode_bytes_plain n : forall l,
  (length l <= n)%nat -> Forall (fun z => 0 <= z < 256) l ->
  Forall (fun c => plain c = true) (Base64.encode_bytes l).
Proof.
  induction n as [ | n IH]; intros l Hn Hl.
  - destruct l; [ constructor | simpl in Hn; lia ].
  - destruct l as [ | a [ | b [ | c l]]].
    + constructor.
    + inversion Hl as [ | ? ? Ha _]; subst.
      destruct (sextets_ab a 0 Ha ltac:(lia)) as (H1 & _ & H3 & _).
      cbn [Base64.encode_bytes].
      repeat constructor; apply enc_plain; assumption.
    + inversion Hl as [ | ? ? Ha Hl']; subst. inversion Hl' as [ | ? ? Hb _]; subst.
      destruct (sextets_ab a b Ha Hb) as (H1 & H2 & _).
      destruct (sextets_bc b 0 Hb ltac:(lia)) as (_ & _ & H3 & _).
      cbn [Base64.encode_bytes].
      repeat constructor; apply enc_plain; assumption.
    + inversion Hl as [ | ? ? Ha Hl']; subst. inversion Hl' as [ | ? ? Hb Hl'']; subst.
      inversion Hl'' as [ | ? ? Hc Hrest]; subst.
      destruct (sextets_ab a b Ha Hb) as (H1 & H2 & _).
      destruct (sextets_bc b c Hb Hc) as (H3 & H4 & _).
      cbn [Base64.encode_bytes].
      repeat (constructor; [ apply enc_plain; assumption | ]).
      apply IH; [ simpl in Hn; lia | exact Hrest ].
Qed.

Lemma urlsafe_b64encode_plain s : plain_text (Base64.urlsafe_b64encode s).
Proof.
  unfold plain_text, Base64.urlsafe_b64encode.
  rewrite list_ascii_of_string_of_list_ascii.
  apply (encode_bytes_plain (length (bytes_of s))); auto using bytes_of_range.
Qed.

(** Fields without a separator come back from the split of their join. *)
Lemma split_on_join_free sep (l : list string) :
  l <> [] -> Forall (fun s => bars sep s = 0%nat) l ->
  split_on sep (join (String sep "") l) = l.
Proof.
  induction l as [ | a l IH]; [ congruence | intros _ H ].
  inversion H as [ | ? ? Ha Hl]; subst.
  destruct l as [ | b l]; [ now apply split_on_free | ].
  change (join (String sep "") (a :: b :: l))
    with (a +:+ String sep "" +:+ join (String sep "") (b :: l)).
  rewrite append_cons, append_nil_l.
  rewrite (split_on_append sep a _ Ha). f_equal.
  apply IH; [ discriminate | exact Hl ].
Qed.

(* ===================================================================== *)
(** ** The round trip for a whole number of days *)
(* ===================================================================== *)

Lemma field_plain s : plain_text s -> field s.
Proof. intros H. split; [ now apply plain_text_is_text | now apply plain_text_bars ]. Qed.

Lemma is_text_join_fields (l : list string) :
  Forall field l -> is_text (join "|" l).
Proof.
  induction l as [ | a l IH]; intros H; [ reflexivity | ].
  inversion H as [ | ? ? [Ha _] Hl]; subst.
  destruct l as [ | b l]; [ exact Ha | ].
  change (join "|" (a :: b :: l)) with (a +:+ "|" +:+ join "|" (b :: l)).
  apply is_text_append; [ exact Ha | ].
  apply is_text_append; [ reflexivity | ]. apply IH. exact Hl.
Qed.

(** The signature [generate_license_key] makes passes the check of
    [validate_license_key]. *)
Lemma check_signature_generated self sigtype data signature :
  (sigtype <> "rsa" -> signature = Hmac.hexdigest (secret_key self) data) ->
  (sigtype = "rsa" ->
   exists (sign : string -> nat -> string) (verify : string -> string -> bool)
          (salt : nat),
      rsa_public_key self = Some (RSAPublicKey verify) /\
      signature = Base64.urlsafe_b64encode (sign data salt) /\
      verify (sign data salt) data = true) ->
  check_signature self sigtype signature data = Ok None.
Proof.
  intros Hh Hr. unfold check_signature.
  destruct (String.eqb_spec sigtype "rsa") as [E | E].
  - destruct (Hr E) as (sign & verify & salt & Hpub & -> & Hv).
    rewrite Hpub, base64_roundtrip. simpl. rewrite Hv. reflexivity.
  - rewrite (Hh E). rewrite compare_digest_same by apply hmac_hexdigest_plain.
    reflexivity.
Qed.

(** X1.  The round trip.  A key generated for a whole number [n] of days, for
    fields that are texts without the separator and with matching keys,
    is accepted by the same manager as long as the clock has not passed
    the end date, which is the time of generation plus [n] days, cut to
    the second; after that it is reported expired.  The record returned
    with an accepted key has the fields of the generated record, with
    [validated_at] in place of [created_at].  (A key for [0] days is
    therefore expired as soon as the clock has moved on.) *)
Theorem roundtrip_integer_days :
  forall (self : LicenseManager) (customer : string) (n : Z)
         (license_type sigtype : string) (w : world) (K : string) (rec : json)
         (w1 w2 : world),
    field (product_id self) -> field customer -> field (machine_id self) ->
    field license_type -> field sigtype -> keys_match self sigtype ->
    generate_license_key self customer (PyInt n) license_type sigtype w
    = (Ok (K, rec), w1) ->
    let t_end := clock w (S (ticks w)) + n * Datetime.us_per_day in
    let t_end_read := t_end - t_end mod Datetime.us_per_second in
    exists start_date end_date created_at,
      rec = JDict (generated_record (product_id self) customer (machine_id self)
                     start_date end_date (PyInt n) license_type sigtype created_at) /\
      (clock w2 (ticks w2) <= t_end_read ->
       validate_license_key self K w2
       = (Ok (true, JDict (validated_record (product_id self) customer (machine_id self)
                             start_date end_date n license_type sigtype
                             (clock w2 (S (ticks w2))))),
          tick (tick w2))) /\
      (t_end_read < clock w2 (ticks w2) ->
       validate_license_key self K w2
       = (Ok (false, JStr "License key has expired"), tick w2)).
Proof.
  intros self customer n lt st w K rec w1 w2 Fp Fc Fm Fl Fs Hkeys Hgen t_end t_end_read.
  unfold generate_license_key, bind, lift, now in Hgen. simpl in Hgen.
  unfold Datetime.timedelta_days in Hgen.
  rewrite Z.div_mul in Hgen by discriminate.
  destruct (Z.leb_spec (Z.abs n) 999999999) as [Hn | Hn]; [ | discriminate Hgen ].
  simpl in Hgen. unfold Datetime.add in Hgen. fold t_end in Hgen.
  destruct (Datetime.valid_datetime t_end) eqn:Hvalid; [ | discriminate Hgen ].
  simpl in Hgen.
  set (start_date := Datetime.strftime (clock w (ticks w))) in *.
  set (end_date := Datetime.strftime t_end) in *.
  set (data := data_string_of (product_id self) customer (machine_id self) start_date
                 end_date (str_of_int n) lt st) in *.
  assert (Hsig : exists signature w',
             (K, rec, w1)
             = (Base64.urlsafe_b64encode (data +:+ "|" +:+ signature),
                JDict (generated_record (product_id self) customer (machine_id self)
                         start_date end_date (PyInt n) lt st
                         (Datetime.strftime (clock w (S (S (ticks w)))))), w') /\
             plain_text signature /\
             check_signature self st signature data = Ok None).
  { destruct (String.eqb_spec st "rsa") as [E | E].
    - destruct (Hkeys E) as (sign & verify & Hpriv & Hpub & Hv).
      rewrite Hpriv in Hgen. unfold bind, fresh_iv, ret in Hgen. simpl in Hgen.
      injection Hgen as <- <- <-. eexists _, _. split; [ reflexivity | ].
      split; [ apply urlsafe_b64encode_plain | ].
      apply check_signature_generated; [ contradiction | ].
      intros _. eexists sign, verify, _. repeat split; auto.
    - unfold ret in Hgen. simpl in Hgen.
      injection Hgen as <- <- <-. eexists _, _. split; [ reflexivity | ].
      split; [ apply hmac_hexdigest_plain | ].
      apply check_signature_generated; [ reflexivity | contradiction ]. }
  destruct Hsig as (signature & w' & Heq & Hplain & Hcheck).
  injection Heq as -> -> _.
  exists start_date, end_date, (Datetime.strftime (clock w (S (S (ticks w))))).
  split; [ reflexivity | ].
  set (fields := [product_id self; customer; machine_id self; start_date; end_date;
                  str_of_int n; lt; st; signature]).
  assert (Htext : data +:+ "|" +:+ signature = join "|" fields).
  { unfold data, data_string_of, fields. cbn [join]. rewrite !append_assoc. reflexivity. }
  assert (Hfields : Forall field fields).
  { unfold fields. repeat constructor; try (apply Fp || apply Fc || apply Fm
                                             || apply Fl || apply Fs);
      try (apply field_plain; first [ apply strftime_plain | apply str_of_int_plain
                                    | exact Hplain ]). }
  assert (Hdecoded : decoded_text (Base64.urlsafe_b64encode (data +:+ "|" +:+ signature))
                     = Ok (join "|" fields)).
  { unfold decoded_text. rewrite base64_roundtrip. simpl. rewrite Htext.
    apply is_text_join_fields. exact Hfields. }
  assert (Hsplit : split_on "|" (join "|" fields) = fields).
  { apply (split_on_join_free "|"%char); [ discriminate | ].
    eapply Forall_impl; [ exact Hfields | ]. intros s [_ Hs]. exact Hs. }
  rewrite (validate_signed self _ w2 _ _ _ _ _ _ _ _ _ _ Hdecoded Hsplit
             eq_refl eq_refl Hcheck).
  rewrite (validate_fields_run _ _ _ _ _ _ _ _ w2 _
             (strptime_strftime t_end Hvalid)).
  fold t_end_read.
  rewrite int_of_str_of_int
    by (eapply Z.le_lt_trans; [ exact Hn | reflexivity ]).
  destruct (Z.ltb_spec t_end_read (clock w2 (ticks w2))) as [Hlt | Hge];
    split; intros H; first [ reflexivity | lia ].
Qed.


(* ===================================================================== *)
(** ** [fromisoformat] reads what [strftime] and [isoformat] print *)
(* ===================================================================== *)

(** The [w] characters [zfill] prints for a number below [10 ^ w]. *)
Lemma zfill_spec (w : nat) n :
  (0 < w)%nat -> 0 <= n < 10 ^ Z.of_nat w ->
  exists ds,
    list_ascii_of_string (zfill w n) = ds /\ length ds = w /\
    Forall (fun c => is_digit c = true) ds /\
    forall a, fold_left (fun v c => 10 * v + digit_val c) ds a
              = a * 10 ^ Z.of_nat w + n.
Proof.
  intros Hpos Hn. destruct (str_of_nonneg_spec n ltac:(lia))
    as (ds & Hl & Hlen & Hall & Hfold & Hmin).
  assert (Hw : (length ds <= w)%nat).
  { destruct Hmin as [H1 | Hmin]; [ lia | ].
    destruct (le_lt_dec (length ds) w) as [Hle | Hgt]; [ exact Hle | ].
    exfalso.
    assert (10 ^ Z.of_nat w <= 10 ^ (Z.of_nat (length ds) - 1))
      by (apply Z.pow_le_mono_r; lia).
    lia. }
  exists (repeat "0"%char (w - length ds) ++ ds)%list.
  split; [ | split; [ | split ] ].
  - unfold zfill. cbv zeta.
    rewrite list_ascii_append, list_ascii_of_string_of_list_ascii.
    rewrite <- length_list_ascii, Hl. reflexivity.
  - rewrite length_app, repeat_length. lia.
  - apply Forall_app. split; [ | exact Hall ].
    clear. induction (w - length ds)%nat; simpl; constructor; auto.
  - intros a. rewrite fold_left_app.
    assert (Hz : forall k b, fold_left (fun v c => 10 * v + digit_val c)
                               (repeat "0"%char k) b = b * 10 ^ Z.of_nat k).
    { clear. induction k as [ | k IH]; intros b; [ simpl; lia | ].
      cbn [repeat fold_left]. rewrite IH.
      change (digit_val "0") with 0.
      rewrite Nat2Z.inj_succ, Z.pow_succ_r by lia. lia. }
    rewrite Hz, Hfold.
    replace (Z.of_nat w) with (Z.of_nat (w - length ds) + Z.of_nat (length ds)) by lia.
    rewrite Z.pow_add_r by lia. lia.
Qed.

(** Two digits. *)
Lemma zfill2_spec n :
  0 <= n < 100 ->
  exists x y,
    list_ascii_of_string (zfill 2 n) = [x; y] /\
    is_digit x = true /\ is_digit y = true /\
    forall rest, Parse.take_digits 2 (x :: y :: rest) 0 = Some (n, rest).
Proof.
  intros Hn. destruct (zfill_spec 2 n ltac:(lia) ltac:(simpl; lia))
    as (ds & Hl & Hlen & Hall & Hfold).
  destruct ds as [ | x [ | y [ | z l]]]; try discriminate Hlen.
  inversion Hall as [ | ? ? Hx Hall']; subst. inversion Hall' as [ | ? ? Hy _]; subst.
  exists x, y. repeat split; auto.
  intros rest. cbn [Parse.take_digits]. rewrite Hx, Hy.
  specialize (Hfold 0). cbn [fold_left] in Hfold. rewrite Hfold. reflexivity.
Qed.

Lemma zfill4_take n rest :
  0 <= n < 10000 ->
  Parse.take_digits 4 (list_ascii_of_string (zfill 4 n) ++ rest) 0 = Some (n, rest).
Proof. intros Hn. apply zfill_take; simpl; lia. Qed.

Lemma digit_not_mark c :
  is_digit c = true ->
  Ascii.eqb c ":" = false /\ Ascii.eqb c "." = false /\ Ascii.eqb c "," = false /\
  Ascii.eqb c "Z" = false /\ Ascii.eqb c "+" = false /\ Ascii.eqb c "-" = false.
Proof.
  unfold is_digit. intros H.
  apply andb_true_iff in H as [H1 H2]. apply Z.leb_le in H1, H2.
  repeat split; apply Ascii.eqb_neq; intros ->; vm_compute in H1, H2; congruence.
Qed.

(** [datetime.fromisoformat] on the text of [strftime]: the basic format
    [YYYYMMDDTHHMMSS] is read since Python 3.11. *)
Lemma fromisoformat_strftime t :
  Datetime.valid_datetime t = true ->
  Parse.fromisoformat (Datetime.strftime t) = Ok (t - t mod Datetime.us_per_second).
Proof.
  intros Hv. pose proof (fields_of_spec t Hv) as Hf. cbv zeta in Hf.
  unfold Datetime.strftime. cbv zeta.
  destruct (Datetime.fields_of t) as [y m d h mi s us].
  cbn [Datetime.year Datetime.month Datetime.day Datetime.hour
       Datetime.minute Datetime.second Datetime.microsecond] in *.
  destruct Hf as (Hy & Hm & Hd & Hh & Hmi & Hs & Hus & Hval).
  assert (Hd31 : 1 <= d <= 31).
  { split; [ lia | ]. destruct Hd as [_ Hd]. revert Hd.
    unfold Datetime.days_in_month.
    destruct ((m =? 2) && Datetime.is_leap y); [ lia | ].
    assert (Hc : m = 1 \/ m = 2 \/ m = 3 \/ m = 4 \/ m = 5 \/ m = 6 \/ m = 7
                 \/ m = 8 \/ m = 9 \/ m = 10 \/ m = 11 \/ m = 12) by lia.
    repeat (destruct Hc as [-> | Hc]; [ simpl; lia | ]). subst m. simpl. lia. }
  destruct (zfill2_spec m ltac:(lia)) as (m1 & m2 & Em & Dm1 & Dm2 & Pm).
  destruct (zfill2_spec d ltac:(lia)) as (d1 & d2 & Ed & Dd1 & Dd2 & Pd).
  destruct (zfill2_spec h ltac:(lia)) as (h1 & h2 & Eh & Dh1 & Dh2 & Ph).
  destruct (zfill2_spec mi ltac:(lia)) as (i1 & i2 & Ei & Di1 & Di2 & Pi).
  destruct (zfill2_spec s ltac:(lia)) as (s1 & s2 & Es & Ds1 & Ds2 & Ps).
  unfold Parse.fromisoformat. cbv zeta.
  rewrite !list_ascii_append, Em, Ed, Eh, Ei, Es.
  unfold Parse.iso_date. rewrite zfill4_take by lia.
  cbn [app Parse.expect].
  destruct (digit_not_mark m1 Dm1) as (_ & _ & _ & _ & _ & Em1). rewrite Em1.
  rewrite Pm, Pd.
  change (list_ascii_of_string "T") with ["T"%char]. cbn [app].
  change (Parse.skip_separator ("T"%char :: ?r)) with r.
  unfold Parse.skip_separator. change (byte_val "T" <? 128) with true. cbv iota.
  unfold Parse.iso_time.
  destruct (digit_not_mark h1 Dh1) as (Ch1 & Ph1 & Kh1 & Zh1 & Ah1 & Mh1).
  destruct (digit_not_mark h2 Dh2) as (Ch2 & Ph2 & Kh2 & Zh2 & Ah2 & Mh2).
  destruct (digit_not_mark i1 Di1) as (Ci1 & Pi1 & Ki1 & Zi1 & Ai1 & Mi1).
  destruct (digit_not_mark i2 Di2) as (Ci2 & Pi2 & Ki2 & Zi2 & Ai2 & Mi2).
  destruct (digit_not_mark s1 Ds1) as (Cs1 & Ps1 & Ks1 & Zs1 & As1 & Ms1).
  destruct (digit_not_mark s2 Ds2) as (Cs2 & Ps2 & Ks2 & Zs2 & As2 & Ms2).
  cbn [existsb].
  rewrite Zh1, Ah1, Mh1, Zh2, Ah2, Mh2, Zi1, Ai1, Mi1, Zi2, Ai2, Mi2,
          Zs1, As1, Ms1, Zs2, As2, Ms2.
  cbn [orb]. rewrite Ph. rewrite Ci1.
  unfold Parse.iso_after at 1. rewrite Pi1, Ki1. cbn [andb orb negb].
  rewrite Pi.
  unfold Parse.iso_after at 1. rewrite Ps1, Ks1. cbn [andb orb negb].
  rewrite Ps. cbn [Parse.iso_after].
  rewrite make_fields by (assumption || lia).
  rewrite Hval. f_equal. lia.
Qed.

(** The six digits of a fraction. *)
Lemma fraction_run ds : forall (n : nat) acc,
  Forall (fun c => is_digit c = true) ds -> length ds = n ->
  Parse.fraction n ds acc
  = Some (fold_left (fun v c => 10 * v + digit_val c) ds acc).
Proof.
  induction ds as [ | c r IH]; intros n acc Hall Hlen.
  - subst n. simpl. f_equal. lia.
  - inversion Hall as [ | ? ? Hc Hr]; subst.
    cbn [Parse.fraction length fold_left]. rewrite Hc. apply IH; auto.
Qed.

Lemma fields_of_microsecond t :
  Datetime.valid_datetime t = true ->
  Datetime.microsecond (Datetime.fields_of t) = t mod Datetime.us_per_second.
Proof.
  intros _. unfold Datetime.fields_of. cbv zeta.
  destruct (Datetime.ord2ymd _) as [[y m] d].
  cbn [Datetime.microsecond].
  unfold Datetime.us_per_day, Datetime.us_per_second.
  Z.div_mod_to_equations. lia.
Qed.

(** [datetime.fromisoformat(t.isoformat()) == t] *)
Lemma fromisoformat_isoformat t :
  Datetime.valid_datetime t = true ->
  Parse.fromisoformat (Datetime.isoformat t) = Ok t.
Proof.
  intros Hv. pose proof (fields_of_spec t Hv) as Hf. cbv zeta in Hf.
  pose proof (fields_of_microsecond t Hv) as Hmicro.
  unfold Datetime.isoformat. cbv zeta.
  destruct (Datetime.fields_of t) as [y m d h mi s us].
  cbn [Datetime.year Datetime.month Datetime.day Datetime.hour
       Datetime.minute Datetime.second Datetime.microsecond] in *.
  destruct Hf as (Hy & Hm & Hd & Hh & Hmi & Hs & Hus & Hval).
  assert (Hd31 : 1 <= d <= 31).
  { split; [ lia | ]. destruct Hd as [_ Hd]. revert Hd.
    unfold Datetime.days_in_month.
    destruct ((m =? 2) && Datetime.is_leap y); [ lia | ].
    assert (Hc : m = 1 \/ m = 2 \/ m = 3 \/ m = 4 \/ m = 5 \/ m = 6 \/ m = 7
                 \/ m = 8 \/ m = 9 \/ m = 10 \/ m = 11 \/ m = 12) by lia.
    repeat (destruct Hc as [-> | Hc]; [ simpl; lia | ]). subst m. simpl. lia. }
  destruct (zfill2_spec m ltac:(lia)) as (m1 & m2 & Em & Dm1 & Dm2 & Pm).
  destruct (zfill2_spec d ltac:(lia)) as (d1 & d2 & Ed & Dd1 & Dd2 & Pd).
  destruct (zfill2_spec h ltac:(lia)) as (h1 & h2 & Eh & Dh1 & Dh2 & Ph).
  destruct (zfill2_spec mi ltac:(lia)) as (i1 & i2 & Ei & Di1 & Di2 & Pi).
  destruct (zfill2_spec s ltac:(lia)) as (s1 & s2 & Es & Ds1 & Ds2 & Ps).
  destruct (zfill_spec 6 us ltac:(lia) ltac:(simpl; lia))
    as (fs & Ef & Lf & Df & Ff).
  unfold Parse.fromisoformat. cbv zeta.
  rewrite !list_ascii_append, Em, Ed, Eh, Ei, Es.
  unfold Parse.iso_date. rewrite zfill4_take by lia.
  change (list_ascii_of_string "-") with ["-"%char].
  change (list_ascii_of_string "T") with ["T"%char].
  change (list_ascii_of_string ":") with [":"%char].
  cbn [app Parse.expect]. change (Ascii.eqb "-" "-") with true. cbv iota.
  rewrite Pm. cbn [Parse.expect]. change (Ascii.eqb "-" "-") with true. cbv iota.
  rewrite Pd.
  unfold Parse.skip_separator. change (byte_val "T" <? 128) with true. cbv iota.
  destruct (digit_not_mark h1 Dh1) as (Ch1 & Ph1 & Kh1 & Zh1 & Ah1 & Mh1).
  destruct (digit_not_mark h2 Dh2) as (Ch2 & Ph2 & Kh2 & Zh2 & Ah2 & Mh2).
  destruct (digit_not_mark i1 Di1) as (Ci1 & Pi1 & Ki1 & Zi1 & Ai1 & Mi1).
  destruct (digit_not_mark i2 Di2) as (Ci2 & Pi2 & Ki2 & Zi2 & Ai2 & Mi2).
  destruct (digit_not_mark s1 Ds1) as (Cs1 & Ps1 & Ks1 & Zs1 & As1 & Ms1).
  destruct (digit_not_mark s2 Ds2) as (Cs2 & Ps2 & Ks2 & Zs2 & As2 & Ms2).
  assert (Hfrac : existsb (fun c => Ascii.eqb c "Z" || Ascii.eqb c "+" || Ascii.eqb c "-")
                    (list_ascii_of_string
                       (if us =? 0 then "" else "." +:+ zfill 6 us)) = false).
  { destruct (us =? 0); [ reflexivity | ].
    rewrite append_cons, append_nil_l. cbn [list_ascii_of_string existsb].
    rewrite Ef. change (Ascii.eqb "." "Z" || Ascii.eqb "." "+" || Ascii.eqb "." "-")
      with false. cbn [orb].
    clear - Df. induction Df as [ | c l Hc _ IH]; [ reflexivity | ].
    cbn [existsb]. destruct (digit_not_mark c Hc) as (_ & _ & _ & E1 & E2 & E3).
    rewrite E1, E2, E3. exact IH. }
  unfold Parse.iso_time.
  cbn [existsb]. rewrite Hfrac.
  rewrite Zh1, Ah1, Mh1, Zh2, Ah2, Mh2, Zi1, Ai1, Mi1, Zi2, Ai2, Mi2,
          Zs1, As1, Ms1, Zs2, As2, Ms2.
  change (Ascii.eqb ":" "Z" || Ascii.eqb ":" "+" || Ascii.eqb ":" "-") with false.
  cbn [orb]. rewrite Ph. change (Ascii.eqb ":" ":") with true.
  unfold Parse.iso_after at 1. change (Ascii.eqb ":" ":") with true. cbn [andb].
  cbv iota. rewrite Pi.
  unfold Parse.iso_after at 1. change (Ascii.eqb ":" ":") with true. cbn [andb].
  cbv iota. rewrite Ps.
  destruct (Z.eqb_spec us 0) as [E0 | E0].
  - cbn [list_ascii_of_string Parse.iso_after].
    rewrite make_fields by (assumption || lia).
    rewrite Hval. f_equal. rewrite <- Hmicro, E0. lia.
  - rewrite append_cons, append_nil_l. cbn [list_ascii_of_string]. rewrite Ef.
    destruct fs as [ | f1 fs']; [ discriminate Lf | ].
    unfold Parse.iso_after.
    change (Ascii.eqb "." ":") with false. change (Ascii.eqb "." ".") with true.
    cbn [andb orb]. cbv iota.
    unfold Parse.iso_us. rewrite (fraction_run (f1 :: fs') 6 0 Df Lf).
    rewrite Ff. rewrite Z.mul_0_l, Z.add_0_l.
    rewrite make_fields by (assumption || lia).
    rewrite Hval. f_equal. rewrite <- Hmicro. lia.
Qed.


(* ===================================================================== *)
(** ** The encrypted files: what is saved is what is loaded *)
(* ===================================================================== *)

Lemma load_token self q w key32 iv doc :
  fernet_key (secret_key self) = Ok key32 ->
  files w !! q = Some (Token key32 iv doc) ->
  _load_encrypted_data self q w = (Ok doc, w).
Proof.
  intros Hk Hf. unfold _load_encrypted_data, bind, path_exists, try_except, read_file.
  rewrite Hf. simpl. rewrite Hf. simpl.
  unfold _decrypt_data. rewrite Hk. simpl. rewrite String.eqb_refl. reflexivity.
Qed.

Lemma load_absent self q w :
  files w !! q = None -> _load_encrypted_data self q w = (Ok JNull, w).
Proof.
  intros Hf. unfold _load_encrypted_data, bind, path_exists. rewrite Hf. reflexivity.
Qed.

(** A file that is no token of the manager's key loads as [None]. *)
Lemma load_foreign self q w b :
  files w !! q = Some b ->
  (forall key32 iv doc, fernet_key (secret_key self) = Ok key32 ->
                        b <> Token key32 iv doc) ->
  _load_encrypted_data self q w = (Ok JNull, w).
Proof.
  intros Hf Hb. unfold _load_encrypted_data, bind, path_exists, try_except, read_file.
  rewrite Hf. simpl. rewrite Hf. simpl. unfold _decrypt_data.
  destruct (fernet_key (secret_key self)) as [k | e] eqn:Hk; simpl; [ | reflexivity ].
  destruct b as [k' iv doc | raw]; simpl; [ | reflexivity ].
  destruct (String.eqb_spec k k') as [-> | _]; [ | reflexivity ].
  exfalso. eapply Hb; reflexivity.
Qed.



(* ===================================================================== *)
(** ** Installing a generated key *)
(* ===================================================================== *)

(** The run of [validate_license_key] on a key generated for a whole
    number of days, with the dates written out. *)
Lemma generated_key_run self customer n lt st w K rec w1 w2 :
  field (product_id self) -> field customer -> field (machine_id self) ->
  field lt -> field st -> keys_match self st ->
  generate_license_key self customer (PyInt n) lt st w = (Ok (K, rec), w1) ->
  let t_end := clock w (S (ticks w)) + n * Datetime.us_per_day in
  Datetime.valid_datetime t_end = true /\
  validate_license_key self K w2
  = if t_end - t_end mod Datetime.us_per_second <? clock w2 (ticks w2)
    then (Ok (false, JStr "License key has expired"), tick w2)
    else (Ok (true, JDict (validated_record (product_id self) customer (machine_id self)
                             (Datetime.strftime (clock w (ticks w)))
                             (Datetime.strftime t_end) n lt st
                             (clock w2 (S (ticks w2))))),
          tick (tick w2)).
Proof.
  intros Fp Fc Fm Fl Fs Hkeys Hgen t_end.
  unfold generate_license_key, bind, lift, now in Hgen. simpl in Hgen.
  unfold Datetime.timedelta_days in Hgen.
  rewrite Z.div_mul in Hgen by discriminate.
  destruct (Z.leb_spec (Z.abs n) 999999999) as [Hn | Hn]; [ | discriminate Hgen ].
  simpl in Hgen. unfold Datetime.add in Hgen. fold t_end in Hgen.
  destruct (Datetime.valid_datetime t_end) eqn:Hvalid; [ | discriminate Hgen ].
  simpl in Hgen. split; [ reflexivity | ].
  set (start_date := Datetime.strftime (clock w (ticks w))) in *.
  set (end_date := Datetime.strftime t_end) in *.
  set (data := data_string_of (product_id self) customer (machine_id self) start_date
                 end_date (str_of_int n) lt st) in *.
  assert (Hsig : exists signature,
             K = Base64.urlsafe_b64encode (data +:+ "|" +:+ signature) /\
             plain_text signature /\
             check_signature self st signature data = Ok None).
  { destruct (String.eqb_spec st "rsa") as [E | E].
    - destruct (Hkeys E) as (sign & verify & Hpriv & Hpub & Hv).
      rewrite Hpriv in Hgen. unfold bind, fresh_iv, ret in Hgen. simpl in Hgen.
      injection Hgen as <- _ _. eexists. split; [ reflexivity | ].
      split; [ apply urlsafe_b64encode_plain | ].
      apply check_signature_generated; [ contradiction | ].
      intros _. eexists sign, verify, _. repeat split; auto.
    - unfold ret in Hgen. simpl in Hgen.
      injection Hgen as <- _ _. eexists. split; [ reflexivity | ].
      split; [ apply hmac_hexdigest_plain | ].
      apply check_signature_generated; [ reflexivity | contradiction ]. }
  destruct Hsig as (signature & -> & Hplain & Hcheck).
  set (fields := [product_id self; customer; machine_id self; start_date; end_date;
                  str_of_int n; lt; st; signature]).
  assert (Htext : data +:+ "|" +:+ signature = join "|" fields).
  { unfold data, data_string_of, fields. cbn [join]. rewrite !append_assoc. reflexivity. }
  assert (Hfields : Forall field fields).
  { unfold fields. repeat constructor; try (apply Fp || apply Fc || apply Fm
                                             || apply Fl || apply Fs);
      try (apply field_plain; first [ apply strftime_plain | apply str_of_int_plain
                                    | exact Hplain ]). }
  assert (Hdecoded : decoded_text (Base64.urlsafe_b64encode (data +:+ "|" +:+ signature))
                     = Ok (join "|" fields)).
  { unfold decoded_text. rewrite base64_roundtrip. simpl. rewrite Htext.
    apply is_text_join_fields. exact Hfields. }
  assert (Hsplit : split_on "|" (join "|" fields) = fields).
  { apply (split_on_join_free "|"%char); [ discriminate | ].
    eapply Forall_impl; [ exact Hfields | ]. intros s [_ Hs]. exact Hs. }
  rewrite (validate_signed self _ w2 _ _ _ _ _ _ _ _ _ _ Hdecoded Hsplit
             eq_refl eq_refl Hcheck).
  rewrite (validate_fields_run _ _ _ _ _ _ _ _ w2 _
             (strptime_strftime t_end Hvalid)).
  rewrite int_of_str_of_int
    by (eapply Z.le_lt_trans; [ exact Hn | reflexivity ]).
  reflexivity.
Qed.

(** [is_license_valid] and [get_days_remaining] on a license file that
    holds a record whose [end_date] reads as [t_end]. *)
Lemma license_on_file self w key32 iv (rec : gmap string json) e t_end :
  fernet_key (secret_key self) = Ok key32 ->
  files w !! license_file self = Some (Token key32 iv (JDict rec)) ->
  rec !! "end_date" = Some (JStr e) -> Parse.fromisoformat e = Ok t_end ->
  is_license_valid self w
  = (if t_end <? clock w (ticks w) then (Ok (false, JStr "License has expired"), tick w)
     else (Ok (true, JDict rec), tick w)) /\
  get_days_remaining self w
  = (if t_end <? clock w (ticks w) then (Ok 0, tick w)
     else (Ok (Z.max 0 (Datetime.delta_days t_end (clock w (S (ticks w))))),
           tick (tick w))).
Proof.
  intros Hk Hf He Ht.
  assert (Hne : rec <> ∅) by (intros ->; rewrite lookup_empty in He; discriminate He).
  assert (Hvalid : is_license_valid self w
    = (if t_end <? clock w (ticks w) then (Ok (false, JStr "License has expired"), tick w)
       else (Ok (true, JDict rec), tick w))).
  { unfold is_license_valid, get_current_license, bind.
    rewrite (load_token self _ w key32 iv _ Hk Hf). simpl.
    rewrite bool_decide_eq_false_2 by exact Hne. simpl.
    unfold lift. rewrite He. simpl. rewrite Ht. unfold now. simpl.
    destruct (t_end <? clock w (ticks w)); reflexivity. }
  split; [ exact Hvalid | ].
  unfold get_days_remaining, bind. rewrite Hvalid.
  destruct (t_end <? clock w (ticks w)); simpl; [ reflexivity | ].
  unfold lift. rewrite He. simpl. rewrite Ht. reflexivity.
Qed.

(** The license file after a successful [install_license]. *)
Lemma install_accepted self K w r w1 key32 :
  fernet_key (secret_key self) = Ok key32 ->
  validate_license_key self K w = (Ok (true, r), w1) ->
  exists w2,
    install_license self K w = (Ok (true, JStr "License installed successfully"), w2) /\
    files w2 !! license_file self = Some (Token key32 (draws w1) r) /\
    clock w2 = clock w1.
Proof.
  intros Hk Hv. unfold install_license, bind. rewrite Hv. simpl.
  rewrite (save_ok _ _ _ _ _ Hk). simpl. unfold path_exists. simpl.
  destruct (bool_decide (is_Some (<[license_file self := Token key32 (draws w1) r]>
                                    (files w1) !! installation_file self))) eqn:Hex; simpl.
  - eexists. split; [ reflexivity | ]. simpl. split; [ apply lookup_insert_eq | reflexivity ].
  - unfold now. simpl. rewrite (save_ok _ _ _ _ _ Hk). simpl.
    eexists. split; [ reflexivity | ]. simpl. split; [ | reflexivity ].
    apply bool_decide_eq_false_1 in Hex.
    rewrite lookup_insert_ne; [ apply lookup_insert_eq | ].
    intros E. apply Hex. rewrite <- E. rewrite lookup_insert_eq. eauto.
Qed.



(* ===================================================================== *)
(** ** A secret that is no Fernet key *)
(* ===================================================================== *)

Lemma fernet_key_error key e :
  fernet_key key = Raise e ->
  e = Exn ValueError "Fernet key must be 32 url-safe base64-encoded bytes.".
Proof.
  unfold fernet_key. cbv zeta.
  destruct (Base64.urlsafe_b64decode key) as [k | e0];
    [ destruct (String.length k =? 32)%nat | ]; congruence.
Qed.


(* ===================================================================== *)
(** ** Revoking *)
(* ===================================================================== *)


(* ===================================================================== *)
(** ** [is_license_valid] on what the license file may hold *)
(* ===================================================================== *)


(* ===================================================================== *)
(** ** Per-user trials *)
(* ===================================================================== *)

Lemma trial_result_run self (info : gmap string json) s t0 w :
  info !! "first_install_date" = Some (JStr s) -> Parse.fromisoformat s = Ok t0 ->
  trial_result self (JDict info) w
  = (Ok (trial_status_at self (JStr s) t0 (clock w (ticks w))), tick w).
Proof.
  intros Hd Ht. unfold trial_result, bind, lift. simpl. rewrite Hd. simpl. rewrite Ht.
  reflexivity.
Qed.

Lemma get_user_trial_info_run self uid w (trials : gmap string json) :
  fst (_load_trials self w) = Ok (JDict trials) ->
  _get_user_trial_info self uid w = (Ok (default JNull (trials !! uid)), w).
Proof.
  intros Hl. unfold _get_user_trial_info, bind. rewrite load_trials_eq, Hl. reflexivity.
Qed.

(** The first call for a user the table does not know. *)
Lemma trial_first_call self uid w key32 (trials : gmap string json) :
  fernet_key (secret_key self) = Ok key32 ->
  uid <> "" ->
  fst (_load_trials self w) = Ok (JDict trials) -> trials !! uid = None ->
  Datetime.valid_datetime (clock w (ticks w)) = true ->
  let t0 := clock w (ticks w) in
  get_trial_status self (Some uid) w
  = (Ok (trial_status_at self (JStr (Datetime.isoformat t0)) t0 (clock w (S (ticks w)))),
     World (<[trials_file self :=
                Token key32 (draws w) (JDict (<[uid := trial_record self uid t0]> trials))]>
              (files w))
           (clock w) (S (S (ticks w))) (S (draws w))).
Proof.
  intros Hk Hu Hload Hnone Hvalid t0.
  assert (Htruthy : opt_truthy (Some uid) = true).
  { simpl. apply negb_true_iff. apply String.eqb_neq. exact Hu. }
  set (fresh := <["first_install_date" := JStr (Datetime.isoformat t0)]>
                (<["user_id" := JStr uid]>
                (<["product_id" := JStr (product_id self)]> (∅ : gmap string json)))).
  assert (Hiso : Parse.fromisoformat (Datetime.isoformat t0) = Ok t0)
    by (apply fromisoformat_isoformat; exact Hvalid).
  assert (Hdate : fresh !! "first_install_date" = Some (JStr (Datetime.isoformat t0)))
    by apply lookup_insert_eq.
  unfold get_trial_status, opt_or. rewrite Htruthy. cbv iota. rewrite Htruthy.
  change (default "" (Some uid)) with uid. unfold bind at 1.
  rewrite (get_user_trial_info_run self uid w trials Hload). rewrite Hnone.
  cbn [default truthy negb]. unfold bind at 1. unfold bind at 1. unfold now at 1.
  cbn [fst snd].
  assert (Hload' : fst (_load_trials self (tick w)) = Ok (JDict trials)).
  { rewrite <- Hload. apply load_trials_depends. reflexivity. }
  pose proof (set_user_trial_info_spec self uid fresh trials (tick w) key32 Hk Hload'
                (or_introl Hnone)) as Hset.
  cbv zeta in Hset. unfold merged_info in Hset. rewrite Hnone in Hset.
  change (World (files w) (clock w) (S (ticks w)) (draws w)) with (tick w).
  fold t0. fold fresh. rewrite Hset.
  rewrite (trial_result_run self fresh _ t0 _ Hdate Hiso). reflexivity.
Qed.

(** A later call, on a table that holds a record for the user. *)
Lemma trial_later_call self uid w key32 iv (trials info : gmap string json) s t0 :
  fernet_key (secret_key self) = Ok key32 ->
  uid <> "" ->
  files w !! trials_file self = Some (Token key32 iv (JDict trials)) ->
  trials !! uid = Some (JDict info) ->
  info !! "first_install_date" = Some (JStr s) -> Parse.fromisoformat s = Ok t0 ->
  get_trial_status self (Some uid) w
  = (Ok (trial_status_at self (JStr s) t0 (clock w (ticks w))), tick w).
Proof.
  intros Hk Hu Hf Hrec Hdate Hiso.
  assert (Htruthy : opt_truthy (Some uid) = true).
  { simpl. apply negb_true_iff. apply String.eqb_neq. exact Hu. }
  assert (Hload : _load_trials self w = (Ok (JDict trials), w)).
  { apply (load_trials_token self w key32 iv); auto.
    intros ->. rewrite lookup_empty in Hrec. discriminate Hrec. }
  unfold get_trial_status, opt_or. rewrite Htruthy. cbv iota. rewrite Htruthy.
  change (default "" (Some uid)) with uid. unfold bind at 1.
  rewrite (get_user_trial_info_run self uid w _ ltac:(rewrite Hload; reflexivity)).
  rewrite Hrec. change (default JNull (Some (JDict info))) with (JDict info).
  assert (Ht : truthy (JDict info) = true).
  { simpl. apply negb_true_iff. apply bool_decide_eq_false_2.
    intros ->. rewrite lookup_empty in Hdate. discriminate Hdate. }
  rewrite Ht. cbn [negb]. unfold bind at 1. unfold ret at 1.
  apply (trial_result_run self info _ t0 _ Hdate Hiso).
Qed.



Lemma trial_result_inv self info w st w' :
  trial_result self info w = (Ok st, w') ->
  exists v t0 t, st = trial_status_at self v t0 t.
Proof.
  unfold trial_result, bind, lift.
  destruct (py_getitem info "first_install_date") as [v | e]; [ | discriminate ].
  destruct (fromisoformat_value v) as [t0 | e]; [ | discriminate ].
  simpl. intros H. injection H as <- _. eexists _, _, _. reflexivity.
Qed.


(* ===================================================================== *)
(** ** The machine-wide trial *)
(* ===================================================================== *)

(** The installation file after the first successful [install_license]. *)
Lemma install_first self K w r w1 key32 :
  fernet_key (secret_key self) = Ok key32 ->
  installation_file self <> license_file self ->
  validate_license_key self K w = (Ok (true, r), w1) ->
  files w !! installation_file self = None ->
  exists w2,
    install_license self K w = (Ok (true, JStr "License installed successfully"), w2) /\
    files w2 !! installation_file self
    = Some (Token key32 (S (draws w1)) (installation_record self (clock w1 (ticks w1)))).
Proof.
  intros Hk Hne Hv Hnone. unfold install_license, bind. rewrite Hv. simpl.
  rewrite (save_ok _ _ _ _ _ Hk). simpl. unfold path_exists. simpl.
  assert (Hw1 : files w1 = files w).
  { pose proof (validate_files self K w) as E. rewrite Hv in E. exact E. }
  rewrite lookup_insert_ne by congruence. rewrite Hw1, Hnone. simpl.
  unfold now. simpl. rewrite (save_ok _ _ _ _ _ Hk). simpl.
  eexists. split; [ reflexivity | ]. simpl. apply lookup_insert_eq.
Qed.


(* ===================================================================== *)
(** ** The examples, evaluated *)
(* ===================================================================== *)

Lemma sample_generated_eq :
  generate_license_key sample_manager "cust" (PyInt 7) "paid" "hmac" sample_world
  = (Ok (sample_key, sample_record), snd sample_generated).
Proof. vm_compute. reflexivity. Qed.

(** C1 fails on the code: a key generated for half a day is rejected by
    the manager that made it, because [int()] does not read ["0.5"]; so
    is a key for [30.0] days, which is what the package-level
    [generate_license_key] passes on after [validate_license_duration]. *)
Theorem fractional_days_rejected :
  fst (validate_license_key sample_manager (key_of sample_generated_half)
         (snd sample_generated_half))
  = Ok (false, JStr "License validation error: invalid literal for int() with base 10: '0.5'")
  /\
  fst (validate_license_key sample_manager (key_of sample_generated_float)
         (snd sample_generated_float))
  = Ok (false, JStr "License validation error: invalid literal for int() with base 10: '30.0'")
  /\
  (exists r, fst (validate_license_key sample_manager sample_key (snd sample_generated))
             = Ok (true, r)).
Proof.
  split; [ vm_compute; reflexivity | ].
  split; [ vm_compute; reflexivity | ].
  eexists. vm_compute. reflexivity.
Qed.

(** C2 fails on the code: the sample key with one character changed is
    still accepted.  The character is the last one before the padding;
    its two low bits belong to no byte and the decoder drops them. *)
Lemma tampered_key_accepted :
  sample_tampered_key <> sample_key /\
  String.length sample_tampered_key = String.length sample_key /\
  hamming sample_key sample_tampered_key = 1%nat /\
  decoded_text sample_tampered_key = decoded_text sample_key /\
  (exists r, fst (validate_license_key sample_manager sample_tampered_key
                    (snd sample_generated)) = Ok (true, r)).
Proof.
  split; [ vm_compute; discriminate | ].
  split; [ vm_compute; reflexivity | ].
  split; [ vm_compute; reflexivity | ].
  split; [ vm_compute; reflexivity | ].
  eexists. vm_compute. reflexivity.
Qed.

Lemma tamper_detection_witness :
  exists data signature,
    sample_key = Base64.urlsafe_b64encode (data +:+ "|" +:+ signature) /\
    forall K' w2 r w3,
      validate_license_key sample_manager K' w2 = (Ok (true, r), w3) ->
      exists p c mc s e d lt st sig,
        let data' := data_string_of p c mc s e d lt st in
        decoded_text K' = Ok (data' +:+ "|" +:+ sig) /\
        split_on "|" (data' +:+ "|" +:+ sig) = [p; c; mc; s; e; d; lt; st; sig] /\
        check_signature sample_manager st sig data' = Ok None /\
        (st <> "rsa" -> sig = Hmac.hexdigest (secret_key sample_manager) data') /\
        (st = "rsa" -> exists verify raw,
            rsa_public_key sample_manager = Some (RSAPublicKey verify) /\
            Base64.urlsafe_b64decode sig = Ok raw /\ verify raw data' = true) /\
        ("hmac" <> "rsa" -> st <> "rsa" -> data' = data ->
           decoded_text K' = Ok (data +:+ "|" +:+ signature)).
Proof.
  apply (tamper_detection sample_manager "cust" (PyInt 7) "paid" "hmac" sample_world
           sample_key sample_record (snd sample_generated)).
  vm_compute. reflexivity.
Defined.

(** C3 fails on the code: on an empty data directory [get_trial_status]
    without a user returns [(None, "No installation found")] and creates
    no installation file. *)
Lemma trial_status_creates_nothing :
  files sample_world !! installation_file sample_manager = None /\
  fst (get_trial_status sample_manager None sample_world)
  = Ok (NoInstallation "No installation found") /\
  files (snd (get_trial_status sample_manager None sample_world))
    !! installation_file sample_manager = None.
Proof. repeat split; vm_compute; reflexivity. Qed.

(** After an install, a revoke, status queries and a second install
    leave the installation file as the first install wrote it. *)
Lemma installation_record_witness :
  let w1 := step sample_manager (CallInstall sample_key) (snd sample_generated) in
  let later := [CallRevoke; CallGetTrialStatus None; CallGetTrialStatus (Some "bob");
                CallInstall sample_key; CallIsLicenseValid] in
  files (run sample_manager later w1) !! installation_file sample_manager
  = Some (Token sample_key32 1 (installation_record sample_manager (t2024 + 1250000))).
Proof.
  intros w1 later.
  assert (H1 : installation_file sample_manager <> license_file sample_manager)
    by (vm_compute; discriminate).
  assert (H2 : installation_file sample_manager <> trials_file sample_manager)
    by (vm_compute; discriminate).
  destruct (installation_record_lifecycle sample_manager H1 H2) as (Hkeep & _).
  apply Hkeep. vm_compute. reflexivity.
Defined.

(** C4 fails on the code: with no private key, signing in RSA mode
    raises [ValueError], which is neither of the two classes named. *)
Lemma rsa_without_key_raises_value_error :
  fst (generate_license_key sample_manager "cust" (PyInt 30) "trial" "rsa" sample_world)
  = Raise (Exn ValueError "RSA private key not loaded for signing.") /\
  isinstance (Exn ValueError "RSA private key not loaded for signing.")
             CryptographicError = false /\
  isinstance (Exn ValueError "RSA private key not loaded for signing.")
             ConfigurationError = false.
Proof. repeat split; vm_compute; reflexivity. Qed.

Lemma rsa_misconfiguration_witness :
  generate_license_key sample_manager "cust" (PyInt 30) "trial" "rsa" sample_world
  = (Raise (Exn ValueError "RSA private key not loaded for signing."),
     tick (tick (tick sample_world))).
Proof.
  assert (Hkey : forall sign, rsa_private_key sample_manager <> Some (RSAPrivateKey sign))
    by (intros sign; vm_compute; discriminate).
  destruct (rsa_misconfiguration_raises sample_manager "cust" (PyInt 30) "trial"
              sample_world Hkey) as [_ Hrun].
  apply (Hrun (30 * Datetime.us_per_day) (250000 + t2024 + 30 * Datetime.us_per_day));
    vm_compute; reflexivity.
Defined.

(** On a fresh table the first of two dates is the one kept. *)
Lemma first_install_date_witness :
  exists r1 w1 r2 w2 rec2,
    _set_user_trial_info sample_manager "bob"
      (JDict (trial_info_of "2024-01-01T00:00:00")) sample_world = (Ok r1, w1) /\
    _set_user_trial_info sample_manager "bob"
      (JDict (trial_info_of "2025-06-30T12:00:00")) w1 = (Ok r2, w2) /\
    fst (_get_user_trial_info sample_manager "bob" w2) = Ok (JDict rec2) /\
    rec2 !! "first_install_date" = Some (JStr "2024-01-01T00:00:00").
Proof.
  destruct (first_install_date_immutable sample_manager "bob"
              (trial_info_of "2024-01-01T00:00:00") (trial_info_of "2025-06-30T12:00:00")
              ∅ (JStr "2024-01-01T00:00:00") (JStr "2025-06-30T12:00:00") sample_world
              sample_key32)
    as (r1 & w1 & r2 & w2 & rec1 & rec2 & H1 & H2 & _ & _ & H5 & H6 & _).
  - vm_compute. reflexivity.
  - vm_compute. reflexivity.
  - left. reflexivity.
  - vm_compute. reflexivity.
  - vm_compute. reflexivity.
  - exists r1, w1, r2, w2, rec2. repeat split; [ exact H1 | exact H2 | exact H5 | exact H6 ].
Defined.

(** At the reading 2024-01-01T00:00:00, a key that ended one second
    earlier is expired and a key that ends one second later is valid. *)
Lemma expiry_boundary_witness :
  fst (validate_license_key sample_manager
         (hmac_key sample_manager "cust" "20231201T000000" "20231231T235959" "30" "paid")
         sample_world)
  = Ok (false, JStr "License key has expired") /\
  fst (validate_license_key sample_manager
         (hmac_key sample_manager "cust" "20231201T000000" "20240101T000001" "30" "paid")
         sample_world)
  = Ok (true, JDict (validated_record "AllyIn" "cust" (machine_id sample_manager)
                       "20231201T000000" "20240101T000001" 30 "paid" "hmac"
                       (clock sample_world 1))).
Proof.
  split.
  - refine (proj1 (proj2 (expiry_boundary sample_manager
        (hmac_key sample_manager "cust" "20231201T000000" "20231231T235959" "30" "paid")
        sample_world
        (hmac_text sample_manager "cust" "20231201T000000" "20231231T235959" "30" "paid")
        "AllyIn" "cust" (machine_id sample_manager) "20231201T000000"
        "20231231T235959" "30" "paid" "hmac"
        (hmac_signature sample_manager "cust" "20231201T000000" "20231231T235959"
                        "30" "paid")
        (t2024 - 1000000) _ _ _ _ _ _)) _); vm_compute; reflexivity.
  - refine (proj2 (proj2 (proj2 (expiry_boundary sample_manager
        (hmac_key sample_manager "cust" "20231201T000000" "20240101T000001" "30" "paid")
        sample_world
        (hmac_text sample_manager "cust" "20231201T000000" "20240101T000001" "30" "paid")
        "AllyIn" "cust" (machine_id sample_manager) "20231201T000000"
        "20240101T000001" "30" "paid" "hmac"
        (hmac_signature sample_manager "cust" "20231201T000000" "20240101T000001"
                        "30" "paid")
        (t2024 + 1000000) _ _ _ _ _ _)) (or_introl _)) 30 _); vm_compute; reflexivity.
Defined.

(** C9 fails on the code in its last part: a signature field that is not
    base64 makes the decoder raise inside the RSA branch, and the result
    carries the message of the inner handler. *)
Lemma rsa_decode_error_message :
  Base64.urlsafe_b64decode "A"
  = Raise (Exn BinasciiError
             "Invalid base64-encoded string: number of data characters (1) cannot be 1 more than a multiple of 4")
  /\
  fst (validate_license_key sample_rsa_manager sample_rsa_key sample_world)
  = Ok (false, JStr "Invalid RSA signature: Invalid base64-encoded string: number of data characters (1) cannot be 1 more than a multiple of 4")
  /\
  is_prefix "License validation error: "
    "Invalid RSA signature: Invalid base64-encoded string: number of data characters (1) cannot be 1 more than a multiple of 4"
  = false.
Proof. repeat split; vm_compute; reflexivity. Qed.

(** The round trip and its failure for a float duration, on the sample
    manager. *)
Lemma float_days_witness :
  exists reason w3,
    validate_license_key sample_manager (key_of sample_generated_half)
      (snd sample_generated_half)
    = (Ok (false, JStr reason), w3).
Proof.
  apply (float_days_never_accepted sample_manager "cust" (1 # 2) "paid" "hmac"
           sample_world (key_of sample_generated_half)
           (record_of sample_generated_half) (snd sample_generated_half)).
  vm_compute. reflexivity.
Defined.

Lemma roundtrip_integer_days_witness :
  exists start_date end_date created_at,
    sample_record
    = JDict (generated_record (product_id sample_manager) "cust"
               (machine_id sample_manager) start_date end_date (PyInt 7) "paid" "hmac"
               created_at) /\
    (clock (snd sample_generated) (ticks (snd sample_generated))
     <= 250000 + t2024 + 7 * Datetime.us_per_day
        - (250000 + t2024 + 7 * Datetime.us_per_day) mod Datetime.us_per_second ->
     validate_license_key sample_manager sample_key (snd sample_generated)
     = (Ok (true, JDict (validated_record (product_id sample_manager) "cust"
                           (machine_id sample_manager) start_date end_date 7 "paid" "hmac"
                           (clock (snd sample_generated)
                              (S (ticks (snd sample_generated)))))),
        tick (tick (snd sample_generated)))) /\
    (250000 + t2024 + 7 * Datetime.us_per_day
     - (250000 + t2024 + 7 * Datetime.us_per_day) mod Datetime.us_per_second
     < clock (snd sample_generated) (ticks (snd sample_generated)) ->
     validate_license_key sample_manager sample_key (snd sample_generated)
     = (Ok (false, JStr "License key has expired"), tick (snd sample_generated))).
Proof.
  apply (roundtrip_integer_days sample_manager "cust" 7 "paid" "hmac" sample_world
           sample_key sample_record (snd sample_generated) (snd sample_generated)).
  - split; vm_compute; reflexivity.
  - split; vm_compute; reflexivity.
  - split; vm_compute; reflexivity.
  - split; vm_compute; reflexivity.
  - split; vm_compute; reflexivity.
  - intros H. discriminate H.
  - vm_compute. reflexivity.
Defined.

Lemma int_of_str_of_int_witness : int_of_str (str_of_int (-42)) = Ok (-42).
Proof. apply (int_of_str_of_int (-42)). vm_compute. reflexivity. Defined.

Lemma strptime_strftime_witness :
  Parse.strptime (Datetime.strftime (t2024 + 250000))
  = Ok (t2024 + 250000 - (t2024 + 250000) mod Datetime.us_per_second).
Proof. apply (strptime_strftime (t2024 + 250000)). vm_compute. reflexivity. Defined.

(** A key for [0] days, validated right after it was generated: the end
    date is the time of generation cut to the second, and the clock has
    moved on. *)
Lemma zero_days_expired :
  validate_license_key sample_manager (key_of sample_generated_zero)
    (snd sample_generated_zero)
  = (Ok (false, JStr "License key has expired"), tick (snd sample_generated_zero)).
Proof. vm_compute. reflexivity. Qed.


(* ===================================================================== *)
(** ** The rest of the library on the sample managers *)
(* ===================================================================== *)









